(** * CidChecker: a shallow embedding of the report pipeline

    This development embeds the [CidChecker] class of the filplus-checker:
    the resolver of application infos with its process-lifetime cache, the
    aggregation of the provider, replication and CID-sharing distributions,
    the retrievability score, the evaluation of the tier criteria and the
    writing of the two documents by [check], and the two queries on the
    generated reports.  The first part holds the definitions, in the order
    of the class; the second part holds the properties.

    Conventions of the embedding:
    - JavaScript numbers are the type [number]: exact rationals together
      with [NaN] and the two infinities.  Comparisons are exact; the
      rounding of [+], [*] and [/] to binary64 and the sign of zero are
      not represented.
    - [undefined] and [null] are [None].
    - An [async] method that can reject is a computation in the monad [M]
      (state passing with a thrown-error outcome); [await] is bind.  The
      promises of a [Promise.all] are run in the order they are written.
    - The state holds what the class shares between calls or with its
      caller: the static cache of application infos, the arrays of
      addresses passed by reference, the number of requests sent to the
      verified-client registry and the rows inserted into
      [generated_reports].
    - A call wrapped in [retry] is represented by the outcome it has once
      the retries are used up, except for the verified-client lookup, whose
      attempts are counted one by one.
    - The services the class talks to are the fields of a [World]; the
      builtins of the JavaScript runtime and the helpers of the repository
      that live outside the class (MarkdownUtils, charts, parseIssue) are
      the fields of the class [Runtime].  Every property is proved for all
      worlds and runtimes; [Sample] has one of each to run the examples. *)

From Stdlib Require Import ZArith QArith Qcanon Lia Lqa List String Ascii Permutation.
From stdpp Require Import base gmap strings list fin_maps numbers pretty.

Local Open Scope Z_scope.
Local Open Scope string_scope.
Local Open Scope list_scope.

(** ** JavaScript numbers *)

Inductive number : Type :=
| Fin (q : Qc)
| NaN
| PosInf
| NegInf.

Global Instance number_eq_dec : EqDecision number.
Proof. solve_decision. Defined.

Module Num.

Definition zero : number := Fin 0%Qc.
Definition one : number := Fin 1%Qc.
Definition of_Z (z : Z) : number := Fin (Qc_of_Z z).
Definition of_nat (n : nat) : number := Fin (Qc_of_Z (Z.of_nat n)).
(** [frac a b] is the literal a/b, e.g. [frac 1 4] for 0.25. *)
Definition frac (a : Z) (b : positive) : number := Fin (Q2Qc (a # b)).

Definition is_nan (x : number) : bool :=
  match x with NaN => true | _ => false end.


Definition pos (q : Qc) : bool := bool_decide (0 < q)%Qc.
Definition neg (q : Qc) : bool := bool_decide (q < 0)%Qc.

(** [x + y] *)
Definition add (x y : number) : number :=
  match x, y with
  | NaN, _ | _, NaN => NaN
  | Fin a, Fin b => Fin (a + b)%Qc
  | PosInf, NegInf | NegInf, PosInf => NaN
  | PosInf, _ | _, PosInf => PosInf
  | NegInf, _ | _, NegInf => NegInf
  end.

(** the infinity with the sign of [q], NaN for [q = 0] *)
Definition signed_inf (q : Qc) (positive_one : number) (negative_one : number) : number :=
  if pos q then positive_one else if neg q then negative_one else NaN.

(** [x * y] *)
Definition mul (x y : number) : number :=
  match x, y with
  | NaN, _ | _, NaN => NaN
  | Fin a, Fin b => Fin (a * b)%Qc
  | PosInf, PosInf | NegInf, NegInf => PosInf
  | PosInf, NegInf | NegInf, PosInf => NegInf
  | PosInf, Fin q | Fin q, PosInf => signed_inf q PosInf NegInf
  | NegInf, Fin q | Fin q, NegInf => signed_inf q NegInf PosInf
  end.

(** [x / y]: a finite value over zero is an infinity, 0/0 is NaN *)
Definition div (x y : number) : number :=
  match x, y with
  | NaN, _ | _, NaN => NaN
  | Fin a, Fin b =>
      if bool_decide (b = 0%Qc) then signed_inf a PosInf NegInf
      else Fin (a / b)%Qc
  | Fin _, (PosInf | NegInf) => zero
  | (PosInf | NegInf), (PosInf | NegInf) => NaN
  | PosInf, Fin q => if neg q then NegInf else PosInf
  | NegInf, Fin q => if neg q then PosInf else NegInf
  end.

(** [x < y] *)
Definition lt (x y : number) : bool :=
  match x, y with
  | NaN, _ | _, NaN => false
  | Fin a, Fin b => bool_decide (a < b)%Qc
  | NegInf, NegInf => false
  | NegInf, _ => true
  | _, NegInf => false
  | PosInf, _ => false
  | _, PosInf => true
  end.

(** [x > y] *)
Definition gt (x y : number) : bool := lt y x.

(** [x <= y] *)
Definition le (x y : number) : bool :=
  match x, y with
  | NaN, _ | _, NaN => false
  | _, _ => negb (lt y x)
  end.

(** [x === y] *)
Definition eq (x y : number) : bool :=
  match x, y with
  | NaN, _ | _, NaN => false
  | _, _ => bool_decide (x = y)
  end.

(** [xs.reduce((a, b) => a + b, 0)] *)
Definition sum (xs : list number) : number := fold_left add xs zero.

End Num.

(** ** Arrays *)

(** [a[i]] for a number [i] that is an integer: [undefined] out of range. *)
Definition array_get {A : Type} (a : list A) (i : Z) : option A :=
  if (i <? 0)%Z then None else a !! Z.to_nat i.

(** [a.reduce(f)] without an initial value; it throws on the empty array,
    which is [None] here. *)
Definition reduce1 {A : Type} (f : A → A → A) (a : list A) : option A :=
  match a with
  | [] => None
  | x :: rest => Some (fold_left f rest x)
  end.

(** [a.find(p)] *)
Definition array_find {A : Type} (p : A → bool) (a : list A) : option A :=
  List.find p a.

(** [a.includes(x)] on strings *)
Definition includes (a : list string) (x : string) : bool :=
  bool_decide (x ∈ a).

(** [a.join(sep)] *)
Fixpoint join (sep : string) (a : list string) : string :=
  match a with
  | [] => ""
  | [x] => x
  | x :: rest => x +:+ sep +:+ join sep rest
  end.

(** ** Records of the data model (./Types) *)

Record Criteria : Type := {
  maxProviderDealPercentage : number;
  maxDuplicationPercentage : number;
  lowReplicaThreshold : number;
  maxPercentageForLowReplica : number
}.

Record ApplicationInfo : Type := {
  clientAddress : string;
  organizationName : string;
  url : option string;
  verifier : string;
  issueNumber : option string;
  numberOfAllocations : nat
}.

Global Instance ApplicationInfo_eq_dec : EqDecision ApplicationInfo.
Proof. solve_decision. Defined.

Record Allowance : Type := {
  auditTrail : option string
}.

(** An entry of [GetVerifiedClientResponse.data]. *)
Record VerifiedClient : Type := {
  initialAllowance : string;
  name : option string;
  orgName_vc : option string;
  verifierName : string;
  allowanceArray : list Allowance
}.

Global Instance Allowance_eq_dec : EqDecision Allowance.
Proof. solve_decision. Defined.

Global Instance VerifiedClient_eq_dec : EqDecision VerifiedClient.
Proof. solve_decision. Defined.

(** The default tier list of [check]. *)
Definition default_criterias : list Criteria :=
  [ {| maxProviderDealPercentage := Num.frac 1 4;
       maxDuplicationPercentage := Num.frac 1 5;
       lowReplicaThreshold := Num.of_Z 3;
       maxPercentageForLowReplica := Num.frac 1 4 |} ].

(** ** Tier selection (check, line 604)

    [criterias.length > allocations - 1 ? criterias[allocations - 1]
                                        : criterias[criterias.length - 1]] *)
Definition select_criteria (criterias : list Criteria) (allocations : nat)
  : option Criteria :=
  if (Z.of_nat allocations - 1 <? Z.of_nat (length criterias))%Z
  then array_get criterias (Z.of_nat allocations - 1)
  else array_get criterias (Z.of_nat (length criterias) - 1).

(** ** Strings *)

Definition nl : string := String (ascii_of_nat 10) EmptyString.

(** [s.split(sep)] for a one-character separator *)
Fixpoint split_on (sep : ascii) (s : string) : list string :=
  match s with
  | EmptyString => [EmptyString]
  | String c rest =>
      if Ascii.eqb c sep then EmptyString :: split_on sep rest
      else match split_on sep rest with
           | [] => [String c EmptyString]
           | x :: xs => String c x :: xs
           end
  end.

(** the lines of a document: [doc.split('\n')] *)
Definition lines (doc : string) : list string :=
  split_on (ascii_of_nat 10) doc.

(** [s.split('/').pop()] *)
Definition split_pop (s : string) : option string :=
  let parts := split_on "/"%char s in
  parts !! (length parts - 1)%nat.

(** the last character of a string *)
Fixpoint last_char (s : string) : option ascii :=
  match s with
  | EmptyString => None
  | String c EmptyString => Some c
  | String _ rest => last_char rest
  end.

(** [s[0]] *)
Definition first_char (s : string) : option ascii :=
  match s with
  | EmptyString => None
  | String c _ => Some c
  end.

(** ** The runtime: builtins and helpers defined outside the class *)

Class Runtime : Type := {
  (** JavaScript builtins *)
  parseInt : string → number;
  parseFloat : string → number;
  Number : string → number;
  toFixed : number → nat → string;
  number_toString : number → string;
  toLocaleString : number → string;
  localeCompare : string → string → number;
  (** [a.sort(compare)]: the order it produces for a comparator that is
      not a consistent ordering is implementation-defined; the result is
      always a rearrangement of the array *)
  array_sort : ∀ A : Type, (A → A → number) → list A → list A;
  array_sort_perm : ∀ (A : Type) (compare : A → A → number) (a : list A),
      Permutation (array_sort A compare a) a;
  (** npm packages *)
  xbytes : number → string;
  emoji_get : string → string;
  ordinal : nat → string;
  (** ./MarkdownUtils *)
  escape : string → string;
  wrapInCode : string → string;
  generateLink : string → string → string;
  (** [generateGfmTable rows columns]: every row is given by its cells in
      the order of [columns]; a column is its title and its alignment. *)
  generateGfmTable : list (list string) → list (string * string) → string;
  (** ../ldn-parser-functions/parseIssue: the [address] of the parsed body *)
  parseIssue_address : string → option string;
  (** [address.match(/.{1,41}/g)!.join('<br/>')] *)
  chunk41 : string → string;
  (** [Buffer.from(s).toString('base64')] *)
  base64 : string → string;
  (** ../charts *)
  BarChart_getImage : list (number * number * string * string) → list bool → string;
  GeoMap_getImage : list (number * number * number * string) → string
}.

(** ** Outcomes, the state of the process and the monad of async methods *)

Inductive outcome (A : Type) : Type :=
| Ok (a : A)
| Throw (e : string).
Arguments Ok {A} a.
Arguments Throw {A} e.

(** A reference to an array of strings living on the heap. *)
Definition ref : Type := nat.

Record state : Type := {
  (** arrays of strings shared with the caller *)
  arrays : gmap ref (list string);
  (** [CidChecker.issueApplicationInfoCache] *)
  issueApplicationInfoCache : gmap string (option ApplicationInfo);
  (** number of GET requests sent to the verified-client registry *)
  http_calls : nat;
  (** rows inserted into [generated_reports]: client_address_id, file_path *)
  generated_reports : list (string * string)
}.

Definition M (A : Type) : Type := state → outcome A * state.

Global Instance M_ret : MRet M := fun A a s => (Ok a, s).

Global Instance M_bind : MBind M := fun A B k m s =>
  match m s with
  | (Ok a, s') => k a s'
  | (Throw e, s') => (Throw e, s')
  end.

Definition throw {A : Type} (e : string) : M A := fun s => (Throw e, s).

(** an awaited call whose outcome is already known *)
Definition await {A : Type} (o : outcome A) : M A := fun s => (o, s).

(** sequential [for ... await] over an array *)
Fixpoint mapM {A B : Type} (f : A → M B) (l : list A) : M (list B) :=
  match l with
  | [] => mret []
  | x :: rest =>
      y ← f x;
      ys ← mapM f rest;
      mret (y :: ys)
  end.

(** [retry(attempt, { retries })]: the attempt is run again after a
    failure, at most [retries] more times. *)
Fixpoint retry {A : Type} (retries : nat) (attempt : M A) : M A :=
  fun s =>
    match attempt s with
    | (Ok a, s') => (Ok a, s')
    | (Throw e, s') =>
        match retries with
        | O => (Throw e, s')
        | S n => retry n attempt s'
        end
    end.

Definition set_cache (client : string) (v : option ApplicationInfo) : M unit :=
  fun s =>
    (Ok tt, {| arrays := arrays s;
               issueApplicationInfoCache := <[client := v]> (issueApplicationInfoCache s);
               http_calls := http_calls s;
               generated_reports := generated_reports s |}).

(** ** The error document *)

Definition ErrorTemplate_before : string :=
  nl +:+ "  ## DataCap and CID Checker Report[^1]" +:+ nl +:+ "  ".

Definition ErrorTemplate_after : string :=
  nl +:+ nl +:+
  "  [^1]: To manually trigger this report, add a comment with text `checker:manualTrigger`"
  +:+ nl +:+ "  ".

(** [ErrorTemplate.replace('{message}', message)]; the messages passed by
    the class contain no [$] pattern. *)
Definition getErrorContent (message : string) : string :=
  ErrorTemplate_before +:+ message +:+ ErrorTemplate_after.

Definition msg_no_address : string := "No client address found for this issue.".
Definition msg_no_application : string :=
  "No application info found for this issue on https://datacapstats.io/clients.".
Definition msg_no_allocation : string := "There is no previous allocation for this issue.".
Definition msg_no_client_id : string := "No client ID found for this issue.".
Definition msg_no_deals : string := "No active deals found for this client.".

(** ** Rows and responses *)

(** A row of [ProviderDistributionQuery]. *)
Record ProviderDistributionSql : Type := {
  sql_provider : string;
  sql_total_deal_size : string;
  sql_unique_data_size : string;
  sql_duplication_percentage : number
}.

(** The same row once [getStorageProviderDistribution] has set [percentage]. *)
Record ProviderDistribution : Type := {
  provider : string;
  total_deal_size : string;
  unique_data_size : string;
  duplication_percentage : number;
  percentage : number
}.

Record Location : Type := {
  city : option string;
  country : option string;
  region : option string;
  latitude : option number;
  longitude : option number;
  orgName : string
}.

(** [{ ...item, ...location, new: isNew }]: the fields of the location are
    [undefined] when [location] is [null]. *)
Record ProviderDistributionWithLocation : Type := {
  item : ProviderDistribution;
  location : option Location;
  new : bool
}.

Definition wl_city (d : ProviderDistributionWithLocation) : option string :=
  location d ≫= city.
Definition wl_region (d : ProviderDistributionWithLocation) : option string :=
  location d ≫= region.
Definition wl_country (d : ProviderDistributionWithLocation) : option string :=
  location d ≫= country.
Definition wl_latitude (d : ProviderDistributionWithLocation) : option number :=
  location d ≫= latitude.
Definition wl_longitude (d : ProviderDistributionWithLocation) : option number :=
  location d ≫= longitude.
Definition wl_orgName (d : ProviderDistributionWithLocation) : option string :=
  orgName <$> location d.

(** A row of [ReplicaDistributionQuery]. *)
Record ReplicationDistributionSql : Type := {
  sql_num_of_replicas : number;
  sql_r_total_deal_size : string;
  sql_r_unique_data_size : string
}.

Record ReplicationDistribution : Type := {
  num_of_replicas : number;
  r_total_deal_size : string;
  r_unique_data_size : string;
  r_percentage : number
}.

Record CidSharing : Type := {
  other_client : string;
  c_total_deal_size : string;
  unique_cid_count : number
}.

Record SparkSuccessRate : Type := {
  miner_id : string;
  spark_success_rate : number
}.

Record Retrievability : Type := {
  provider_id : string;
  success_rate : number;
  rt_total_deal_size : number
}.

Global Instance Retrievability_eq_dec : EqDecision Retrievability.
Proof. solve_decision. Defined.

Record MinerInfo : Type := {
  Multiaddrs : option (list string)
}.

Record IpInfoResponse : Type := {
  bogon : option bool;
  ip_city : option string;
  ip_country : option string;
  ip_region : option string;
  loc : option string;
  org : option string
}.

Record ProviderDistributionRow : Type := {
  row_provider : string;
  row_totalDealSize : string;
  row_uniqueDataSize : string;
  row_location : string;
  row_percentage : string;
  row_duplicatePercentage : string;
  row_retrievability : string
}.

Record ReplicationDistributionRow : Type := {
  row_numOfReplica : number;
  rr_totalDealSize : string;
  rr_uniqueDataSize : string;
  rr_percentage : string
}.

Record CidSharingRow : Type := {
  otherClientAddress : string;
  cs_totalDealSize : string;
  uniqueCidCount : string;
  otherClientOrganizationName : string;
  cs_verifier : string
}.

Record Issue : Type := {
  issue_number : Z;
  body : option string
}.

Record Repository : Type := {
  full_name : string;
  owner_login : string;
  repo_name : string
}.

(** A row of [generated_reports]. *)
Record GeneratedReport : Type := {
  id : Z;
  client_address_id : string;
  file_path : string;
  created_at : string
}.

(** ** The services the class talks to *)

Record World : Type := {
  (** the data of the [k]-th GET of api.datacapstats.io/getVerifiedClients *)
  getVerifiedClients : nat → string → outcome (list VerifiedClient);
  (** Filecoin.StateLookupID after its retries; [None] when it failed *)
  StateLookupID : string → option string;
  (** the queries on the pool, after their retries *)
  query_provider_distribution : list string → outcome (list ProviderDistributionSql);
  query_providers : list string → outcome (list (string * string));
  query_replica_distribution : list string → outcome (list ReplicationDistributionSql);
  query_cid_sharing : list string → outcome (list CidSharing);
  query_latest_generated_report : string → outcome (list GeneratedReport);
  query_all_generated_reports : string → outcome (list GeneratedReport);
  (** whether the INSERT into generated_reports succeeds *)
  insert_succeeds : string → string → bool;
  (** Filecoin.StateMinerInfo after its retries *)
  StateMinerInfo : string → outcome MinerInfo;
  (** [new Multiaddr(...)]: node address and first protocol name *)
  decode_multiaddr : string → outcome (string * string);
  resolve4 : string → outcome (list string);
  resolve6 : string → outcome (list string);
  (** GET ipinfo.io/ip after its retries *)
  ipinfo : string → outcome IpInfoResponse;
  (** the retrieval success rates of the window of the given length *)
  fetchRetrievalSuccessRate : number → outcome (list SparkSuccessRate);
  (** approvers of an issue: login and number of approvals *)
  getApprovers : number → outcome (list (string * number));
  (** [uploadFile path content message]: download url and html url;
      it catches its own failures and returns two empty strings *)
  uploadFile : string → string → string → string * string;
  Date_now : string;
  now_toISOString : string
}.

(** ** Heap operations on the caller's arrays *)

Definition set_arrays (h : gmap ref (list string)) (s : state) : state :=
  {| arrays := h;
     issueApplicationInfoCache := issueApplicationInfoCache s;
     http_calls := http_calls s;
     generated_reports := generated_reports s |}.

(** a new array (a default parameter value [[]]) *)
Definition alloc (a : list string) : M ref :=
  fun s =>
    let r := fresh (dom (arrays s)) in
    (Ok r, set_arrays (<[r := a]> (arrays s)) s).

Definition read (r : ref) : M (list string) :=
  fun s =>
    match arrays s !! r with
    | Some a => (Ok a, s)
    | None => (Throw "TypeError", s)
    end.

(** [a.push(x)] *)
Definition push (r : ref) (x : string) : M unit :=
  fun s =>
    match arrays s !! r with
    | Some a => (Ok tt, set_arrays (<[r := a ++ [x]]> (arrays s)) s)
    | None => (Throw "TypeError", s)
    end.

(** ** Methods of the class *)

Section CidChecker.

Context `{Runtime} (w : World).

(** *** getClientAddress *)
Definition getClientAddress (issue : Issue) : option string :=
  match parseIssue_address (default "" (body issue)) with
  | None => None
  | Some address =>
      if bool_decide (first_char address = Some "f"%char) then Some address
      else None
  end.

(** *** findApplicationInfoForClient *)

(** one GET of the verified-client registry *)
Definition http_get_verified_clients (client : string) : M (list VerifiedClient) :=
  fun s =>
    (getVerifiedClients w (http_calls s) client,
     {| arrays := arrays s;
        issueApplicationInfoCache := issueApplicationInfoCache s;
        http_calls := S (http_calls s);
        generated_reports := generated_reports s |}).

(** [(prev, curr) => parseInt(prev.initialAllowance) >
                     parseInt(curr.initialAllowance) ? prev : curr] *)
Definition larger_allowance (prev curr : VerifiedClient) : VerifiedClient :=
  if Num.gt (parseInt (initialAllowance prev)) (parseInt (initialAllowance curr))
  then prev else curr.

Definition find_primary (data : list VerifiedClient) : option VerifiedClient :=
  reduce1 larger_allowance data.

(** [primary.allowanceArray[0]?.auditTrail] *)
Definition first_auditTrail (primary : VerifiedClient) : option string :=
  head (allowanceArray primary) ≫= auditTrail.

Definition application_info_of (client : string) (primary : VerifiedClient)
  : ApplicationInfo :=
  {| clientAddress := client;
     organizationName := default "" (name primary) +:+ default "" (orgName_vc primary);
     url := first_auditTrail primary;
     verifier := verifierName primary;
     issueNumber := first_auditTrail primary ≫= split_pop;
     numberOfAllocations := length (allowanceArray primary) |}.

Definition findApplicationInfoForClient (client : string)
  : M (option ApplicationInfo) :=
  fun s =>
    match issueApplicationInfoCache s !! client with
    | Some cached => (Ok cached, s)
    | None =>
        (data ← retry 6 (http_get_verified_clients client);
         match find_primary data with
         | None =>
             _ ← set_cache client None;
             mret None
         | Some primary =>
             let result := application_info_of client primary in
             _ ← set_cache client (Some result);
             mret (Some result)
         end) s
    end.

(** *** getClientAddressId: [null] as soon as one lookup fails *)
Fixpoint getClientAddressId (clientAddress : list string) : option (list string) :=
  match clientAddress with
  | [] => Some []
  | address :: rest =>
      match StateLookupID w address with
      | None => None
      | Some result =>
          match getClientAddressId rest with
          | None => None
          | Some clientIds => Some (result :: clientIds)
          end
      end
  end.

(** *** getStorageProviderDistribution *)

Definition provider_total (distributions : list ProviderDistributionSql) : number :=
  fold_left (fun acc cur => Num.add acc (parseFloat (sql_total_deal_size cur)))
            distributions Num.zero.

Definition with_percentage (total : number) (d : ProviderDistributionSql)
  : ProviderDistribution :=
  {| provider := sql_provider d;
     total_deal_size := sql_total_deal_size d;
     unique_data_size := sql_unique_data_size d;
     duplication_percentage := sql_duplication_percentage d;
     percentage := Num.div (parseFloat (sql_total_deal_size d)) total |}.

Definition provider_percentages (distributions : list ProviderDistributionSql)
  : list ProviderDistribution :=
  map (with_percentage (provider_total distributions)) distributions.

Definition getStorageProviderDistribution (clientIds : list string)
  : M (list ProviderDistribution) :=
  distributions ← await (query_provider_distribution w clientIds);
  mret (provider_percentages distributions).

(** *** getReplicationDistribution *)

Definition replication_total (distributions : list ReplicationDistributionSql) : number :=
  fold_left (fun acc cur => Num.add acc (parseFloat (sql_r_total_deal_size cur)))
            distributions Num.zero.

Definition replication_percentages (distributions : list ReplicationDistributionSql)
  : list ReplicationDistribution :=
  map (fun d =>
         {| num_of_replicas := sql_num_of_replicas d;
            r_total_deal_size := sql_r_total_deal_size d;
            r_unique_data_size := sql_r_unique_data_size d;
            r_percentage := Num.div (parseFloat (sql_r_total_deal_size d))
                                    (replication_total distributions) |})
      distributions.

Definition getReplicationDistribution (clientIds : list string)
  : M (list ReplicationDistribution) :=
  distributions ← await (query_replica_distribution w clientIds);
  mret (replication_percentages distributions).

(** *** getCidSharing *)
Definition getCidSharing (clientIds : list string) : M (list CidSharing) :=
  await (query_cid_sharing w clientIds).

(** *** getFirstClientByProviders *)
Definition getFirstClientByProviders (providers : list string)
  : M (list (string * string)) :=
  await (query_providers w providers).

(** *** getIpFromMultiaddr *)
Definition getIpFromMultiaddr (multiAddr : string) : outcome (list string) :=
  match decode_multiaddr w multiAddr with
  | Throw e => Throw e
  | Ok (address, proto) =>
      if bool_decide (proto = "dns4") then resolve4 w address
      else if bool_decide (proto = "dns6") then resolve6 w address
      else if bool_decide (proto = "ip4") || bool_decide (proto = "ip6")
           then Ok [address]
      else Ok []
  end.

(** *** getLocation *)

(** the first loop: any multiaddr that cannot be resolved ends the
    method with [null] *)
Fixpoint collect_ips (multiaddrs : list string) (ips : list string)
  : option (list string) :=
  match multiaddrs with
  | [] => Some ips
  | multiAddr :: rest =>
      match getIpFromMultiaddr multiAddr with
      | Ok ip => collect_ips rest (ips ++ ip)
      | Throw _ => None
      end
  end.

Definition location_of (data : IpInfoResponse) : Location :=
  {| city := ip_city data;
     country := ip_country data;
     region := ip_region data;
     latitude :=
       (fun l => parseFloat (default "undefined" (split_on ","%char l !! 0%nat)))
         <$> loc data;
     longitude :=
       (fun l => parseFloat (default "undefined" (split_on ","%char l !! 1%nat)))
         <$> loc data;
     orgName :=
       match org data with
       | Some o => join " " (drop 1 (split_on " "%char o))
       | None => "Unknown"
       end |}.

(** the second loop: the first address that is not a bogon decides *)
Fixpoint locate (ips : list string) : outcome (option Location) :=
  match ips with
  | [] => Ok None
  | ip :: rest =>
      match ipinfo w ip with
      | Throw e => Throw e
      | Ok data =>
          if bool_decide (bogon data = Some true) then locate rest
          else Ok (Some (location_of data))
      end
  end.

Definition getLocation (provider : string) : outcome (option Location) :=
  match StateMinerInfo w provider with
  | Throw e => Throw e
  | Ok minerInfo =>
      match Multiaddrs minerInfo with
      | None | Some [] => Ok None
      | Some multiaddrs =>
          match collect_ips multiaddrs [] with
          | None => Ok None
          | Some ips => locate ips
          end
      end
  end.

(** *** The provider branch of the [Promise.all] of [check] *)

Definition is_new (clientIds : list string) (firstClientByProvider : list (string * string))
           (provider : string) : bool :=
  includes clientIds
    (default "" (snd <$> array_find (fun row => bool_decide (fst row = provider))
                                    firstClientByProvider)).

Definition with_location (clientIds : list string)
           (firstClientByProvider : list (string * string))
           (item : ProviderDistribution) : M ProviderDistributionWithLocation :=
  location ← await (getLocation (provider item));
  mret {| item := item;
          location := location;
          new := is_new clientIds firstClientByProvider (provider item) |}.

(** [(a, b) => a.orgName?.localeCompare(b.orgName ?? '') ?? 0] *)
Definition compare_orgName (a b : ProviderDistributionWithLocation) : number :=
  match wl_orgName a with
  | Some o => localeCompare o (default "" (wl_orgName b))
  | None => Num.zero
  end.

Definition provider_distributions_with_locations (clientIds : list string)
  : M (list ProviderDistributionWithLocation) :=
  result ← getStorageProviderDistribution clientIds;
  let providers := map provider result in
  if bool_decide (length providers = 0%nat) then mret []
  else
    firstClientByProvider ← getFirstClientByProviders providers;
    withLocations ← mapM (with_location clientIds firstClientByProvider) result;
    mret (array_sort _ compare_orgName withLocations).

(** *** createRetrievability, calculateAvgProviderScore, providersRetrievability *)

Definition createRetrievability
           (providerDistributions : list ProviderDistributionWithLocation)
           (sparkData : list SparkSuccessRate) : list Retrievability :=
  omap (fun d =>
          match array_find (fun x => bool_decide (miner_id x = provider (item d)))
                           sparkData with
          | None => None
          | Some sparkItem =>
              Some {| provider_id := miner_id sparkItem;
                      success_rate := spark_success_rate sparkItem;
                      rt_total_deal_size := Number (total_deal_size (item d)) |}
          end)
       providerDistributions.

(** the accumulator of the reduce: totalClientDealSize, totalSuccessRate *)
Definition score_step (acc : number * number) (r : Retrievability) : number * number :=
  (Num.add (fst acc) (rt_total_deal_size r),
   Num.add (snd acc) (Num.mul (success_rate r) (rt_total_deal_size r))).

Definition calculateAvgProviderScore (matchedRetrievability : list Retrievability)
  : number :=
  let '(totalClientDealSize, totalSuccessRate) :=
    fold_left score_step matchedRetrievability (Num.zero, Num.zero) in
  if Num.eq totalSuccessRate Num.zero || Num.eq totalClientDealSize Num.zero
  then Num.zero
  else Num.div totalSuccessRate totalClientDealSize.

Definition providersRetrievability
           (providerDistributions : list ProviderDistributionWithLocation)
           (retrievabilityRange : number) : list Retrievability * number :=
  match fetchRetrievalSuccessRate w retrievabilityRange with
  | Throw _ => ([], Num.zero)
  | Ok sparkData =>
      let retrievability := createRetrievability providerDistributions sparkData in
      if bool_decide (length retrievability = 0%nat) then ([], Num.zero)
      else (retrievability, calculateAvgProviderScore retrievability)
  end.

(** *** Rendering helpers *)

Definition filfox (address : string) : string :=
  "https://filfox.info/en/address/" +:+ address.

Definition linkifyAddress (address : string) : string :=
  "[" +:+ chunk41 address +:+ "](" +:+ filfox address +:+ ")".

Definition linkifyApplicationInfo (applicationInfo : option ApplicationInfo) : string :=
  match applicationInfo with
  | Some a =>
      match url a with
      | Some u => "[" +:+ escape (organizationName a) +:+ "](" +:+ u +:+ ")"
      | None => wrapInCode (organizationName a)
      end
  | None => "Unknown"
  end.

Definition renderApprovers (approvers : list (string * number)) : string :=
  join "<br/>"
       (map (fun a => wrapInCode (number_toString (snd a)) +:+ fst a) approvers).

(** [(x * 100).toFixed(digits)] *)
Definition percent (x : number) (digits : nat) : string :=
  toFixed (Num.mul x (Num.of_Z 100)) digits.

(** [[a, b, c].filter(x => x)] *)
Definition truthy (xs : list (option string)) : list string :=
  omap (fun x => match x with
                 | Some s => if bool_decide (s = "") then None else Some s
                 | None => None
                 end) xs.

(** the location text of a provider, before the organisation is added *)
Definition location_text (d : ProviderDistributionWithLocation) : string :=
  let location := join ", " (truthy [wl_city d; wl_region d; wl_country d]) in
  if bool_decide (location = "") then "Unknown" else location.

Definition providerDistributionRow (retrievability : list Retrievability)
           (d : ProviderDistributionWithLocation) : ProviderDistributionRow :=
  let matchedRetrievability :=
    array_find (fun r => bool_decide (provider_id r = provider (item d))) retrievability in
  {| row_provider :=
       generateLink (provider (item d)) (filfox (provider (item d)))
       +:+ (if new d then "`new` " else "");
     row_totalDealSize := xbytes (parseFloat (total_deal_size (item d)));
     row_uniqueDataSize := xbytes (parseFloat (unique_data_size (item d)));
     row_location :=
       location_text d +:+ "<br/>" +:+ wrapInCode (default "Unknown" (wl_orgName d));
     row_percentage := percent (percentage (item d)) 2 +:+ "%";
     row_duplicatePercentage := percent (duplication_percentage (item d)) 2 +:+ "%";
     row_retrievability :=
       match matchedRetrievability with
       | Some m => percent (success_rate m) 2 +:+ "%"
       | None => "-"
       end |}.

Definition replicationDistributionRow (d : ReplicationDistribution)
  : ReplicationDistributionRow :=
  {| row_numOfReplica := num_of_replicas d;
     rr_totalDealSize := xbytes (parseFloat (r_total_deal_size d));
     rr_uniqueDataSize := xbytes (parseFloat (r_unique_data_size d));
     rr_percentage := percent (r_percentage d) 2 +:+ "%" |}.

Definition cidSharingRow (share : CidSharing) : M CidSharingRow :=
  otherApplication ← findApplicationInfoForClient (other_client share);
  verifier ← match otherApplication ≫= issueNumber with
             | None => mret "Unknown"
             | Some n =>
                 approvers ← await (getApprovers w (parseInt n));
                 mret (renderApprovers approvers)
             end;
  mret {| otherClientAddress := linkifyAddress (other_client share);
          cs_totalDealSize := xbytes (parseFloat (c_total_deal_size share));
          uniqueCidCount := toLocaleString (unique_cid_count share);
          otherClientOrganizationName := linkifyApplicationInfo otherApplication;
          cs_verifier := verifier |}.

Definition getImageForProviderDistribution
           (providerDistributions : list ProviderDistributionWithLocation) : string :=
  GeoMap_getImage
    (omap (fun d =>
             match wl_longitude d, wl_latitude d with
             | Some lon, Some lat =>
                 Some (lon, lat, percentage (item d), provider (item d))
             | _, _ => None
             end) providerDistributions).

Definition getImageForReplicationDistribution
           (replicationDistributions : list ReplicationDistribution)
           (colorThreshold : number) : string :=
  let replicationEntries :=
    map (fun d => (parseFloat (r_unique_data_size d), num_of_replicas d,
                   xbytes (parseFloat (r_unique_data_size d)),
                   number_toString (num_of_replicas d)))
        replicationDistributions in
  BarChart_getImage replicationEntries
    (map (fun d => Num.le (num_of_replicas d) colorThreshold) replicationDistributions).

End CidChecker.

(** ** The two documents

    [check] fills two arrays, [content] and [summary]; every statement that
    appends to them is one [line_push]. *)

Inductive line_push : Type :=
| content_push (str : string)
| summary_push (str : string)
| pushBoth (str : string).

Definition content_of (pushes : list line_push) : list string :=
  omap (fun p => match p with
                 | content_push str | pushBoth str => Some str
                 | summary_push _ => None
                 end) pushes.

Definition summary_of (pushes : list line_push) : list string :=
  omap (fun p => match p with
                 | summary_push str | pushBoth str => Some str
                 | content_push _ => None
                 end) pushes.

(** the strings appended to both arrays by [pushBoth] *)
Definition shared_of (pushes : list line_push) : list string :=
  omap (fun p => match p with
                 | pushBoth str => Some str
                 | _ => None
                 end) pushes.

(** the strings appended to [summary] alone *)
Definition summary_only_of (pushes : list line_push) : list string :=
  omap (fun p => match p with
                 | summary_push str => Some str
                 | _ => None
                 end) pushes.

(** What [check] has gathered when it starts to write the documents. *)
Record ReportData : Type := {
  applicationInfo : ApplicationInfo;
  clientId : list string;
  approvers : list (string * number);
  addressGroup : list string;
  (** the application info found for each other address of the group *)
  otherApplications : list (string * option ApplicationInfo);
  isEarlyAllocation : bool;
  allocations : nat;
  criteria : Criteria;
  providerDistributions : list ProviderDistributionWithLocation;
  retrievability : list Retrievability;
  avgProviderScore : number;
  retrievabilityThreshold : number;
  retrievabilityRange : number;
  replicationDistributions : list ReplicationDistribution;
  cidSharingRows : list CidSharingRow;
  providerDistributionImageUrl : string;
  replicationDistributionImageUrl : string;
  now : string
}.

(** the double quote *)
Definition dq : string := String (ascii_of_nat 34) EmptyString.

(** an [img] element with the given [src] *)
Definition img (src : string) : string :=
  "<img src=" +:+ dq +:+ src +:+ dq +:+ "/>".

(** [s.replace('T', ' ')] *)
Fixpoint replace_T (s : string) : string :=
  match s with
  | EmptyString => EmptyString
  | String c rest =>
      if Ascii.eqb c "T"%char then String " "%char rest
      else String c (replace_T rest)
  end.

Section Report.

Context `{Runtime}.

Definition warning : string := emoji_get "warning".
Definition heavy_check_mark : string := emoji_get "heavy_check_mark".

Definition providerLink (p : string) : string := generateLink p (filfox p).

(** *** The rules on one provider *)

Definition exceeds_max_percentage (c : Criteria) (p : ProviderDistributionWithLocation)
  : bool :=
  Num.gt (percentage (item p)) (maxProviderDealPercentage c).

Definition exceeds_max_duplication (c : Criteria) (p : ProviderDistributionWithLocation)
  : bool :=
  Num.gt (duplication_percentage (item p)) (maxDuplicationPercentage c).

(** [provider.country == null || provider.country === ''] *)
Definition no_ip_location (p : ProviderDistributionWithLocation) : bool :=
  match wl_country p with
  | None => true
  | Some c => bool_decide (c = "")
  end.

(** the body of the loop over the providers *)
Definition provider_pushes (c : Criteria) (p : ProviderDistributionWithLocation)
  : list line_push :=
  (if exceeds_max_percentage c p
   then [content_push (warning +:+ " " +:+ providerLink (provider (item p))
                       +:+ " has sealed " +:+ percent (percentage (item p)) 2
                       +:+ "% of total datacap.");
         content_push ""]
   else [])
  ++ (if exceeds_max_duplication c p
      then [content_push (warning +:+ " " +:+ percent (duplication_percentage (item p)) 2
                          +:+ "% of total deal sealed by "
                          +:+ providerLink (provider (item p))
                          +:+ " are duplicate data.");
            content_push ""]
      else [])
  ++ (if no_ip_location p
      then [content_push (warning +:+ " " +:+ providerLink (provider (item p))
                          +:+ " has unknown IP location.");
            content_push ""]
      else []).

Definition providersExceedingMaxPercentage (d : ReportData) : list (string * number) :=
  map (fun p => (provider (item p), percentage (item p)))
      (filter (fun p => exceeds_max_percentage (criteria d) p = true)
              (providerDistributions d)).

Definition providersExceedingMaxDuplication (d : ReportData) : list (string * number) :=
  map (fun p => (provider (item p), duplication_percentage (item p)))
      (filter (fun p => exceeds_max_duplication (criteria d) p = true)
              (providerDistributions d)).

Definition providersNoIp (d : ReportData) : list string :=
  map (fun p => provider (item p))
      (filter (fun p => no_ip_location p = true) (providerDistributions d)).

Definition providerDistributionRows (d : ReportData) : list ProviderDistributionRow :=
  map (providerDistributionRow (retrievability d)) (providerDistributions d).

Definition replicationDistributionRows (d : ReportData)
  : list ReplicationDistributionRow :=
  map replicationDistributionRow (replicationDistributions d).

(** *** The rules on the whole set *)

(** [new Set(providerDistributionRows.map(row => row.location)).size <= 1] *)
Definition single_region (rows : list ProviderDistributionRow) : bool :=
  bool_decide (size (list_to_set (map row_location rows) : gset string) ≤ 1)%nat.

Definition providerDistributionHealthy (d : ReportData) : bool :=
  bool_decide (length (providersExceedingMaxPercentage d) = 0%nat)
  && bool_decide (length (providersExceedingMaxDuplication d) = 0%nat)
  && bool_decide (length (providersNoIp d) = 0%nat)
  && negb (single_region (providerDistributionRows d)).

Definition countWarningRetrievability (r : list Retrievability) : nat :=
  length (filter (fun x => Num.eq (success_rate x) Num.zero = true) r).

Definition retrievabilityThreeQuart (r : list Retrievability) : nat :=
  length (filter (fun x => Num.lt (success_rate x) (Num.frac 3 4) = true) r).

(** [(count / retrievability.length) * 100] *)
Definition share_of (count : nat) (r : list Retrievability) : number :=
  Num.mul (Num.div (Num.of_nat count) (Num.of_nat (length r))) (Num.of_Z 100).

(** [(retrievability.length > 0) && avgProviderScore < retrievabilityThreshold] *)
Definition retrievability_below_threshold (r : list Retrievability)
           (avg threshold : number) : bool :=
  bool_decide (0 < length r)%nat && Num.lt avg threshold.

Definition lowReplicaPercentage (c : Criteria) (rs : list ReplicationDistribution)
  : number :=
  Num.sum
    (map r_percentage
         (filter (fun x => Num.le (num_of_replicas x) (lowReplicaThreshold c) = true) rs)).

End Report.

Section Documents.

Context `{Runtime}.

Definition relaxed_note (d : ReportData) : list line_push :=
  if isEarlyAllocation d
  then [content_push "";
        content_push ("**Since this is the " +:+ ordinal (allocations d + 1)
                      +:+ " allocation, the following restrictions have been relaxed:**")]
  else [].

(** lines 706-715 *)
Definition header_pushes (d : ReportData) : list line_push :=
  [ content_push ("## DataCap and CID Checker Report[^1] (" +:+ replace_T (now d) +:+ ")");
    summary_push "## DataCap and CID Checker Report Summary[^1]";
    content_push (" - Allocator: " +:+ wrapInCode (verifier (applicationInfo d)));
    content_push (" - Organization: " +:+ wrapInCode (organizationName (applicationInfo d)));
    content_push (" - Client: " +:+ wrapInCode (clientAddress (applicationInfo d)));
    content_push (" - Client ID: " +:+ wrapInCode (default "N/A" (head (clientId d))));
    content_push (" - Github Issue: [#"
                  +:+ default "N/A" (issueNumber (applicationInfo d))
                  +:+ "](" +:+ default "undefined" (url (applicationInfo d)) +:+ ")");
    content_push "### Approvers";
    content_push (renderApprovers (approvers d));
    content_push "" ].

(** lines 716-725 *)
Definition other_addresses_pushes (d : ReportData) : list line_push :=
  if bool_decide (1 < length (addressGroup d))%nat
  then pushBoth "### Other Addresses[^2]"
       :: flat_map (fun o =>
                      [ pushBoth (" - " +:+ linkifyAddress (fst o) +:+ " - "
                                  +:+ linkifyApplicationInfo (snd o));
                        pushBoth "" ])
                   (otherApplications d)
  else [].

(** lines 726-741 *)
Definition provider_intro_pushes (d : ReportData) : list line_push :=
  [ content_push "";
    pushBoth "### Storage Provider Distribution";
    content_push "The below table shows the distribution of storage providers that have stored data for this client.";
    content_push "";
    content_push "If this is the first time a provider takes verified deal, it will be marked as `new`.";
    content_push "";
    content_push "For most of the datacap application, below restrictions should apply." ]
  ++ relaxed_note d
  ++ [ content_push (" - Storage provider should not exceed "
                     +:+ percent (maxProviderDealPercentage (criteria d)) 0
                     +:+ "% of total datacap.");
       content_push (" - Storage provider should not be storing duplicate data for more than "
                     +:+ percent (maxDuplicationPercentage (criteria d)) 0 +:+ "%.");
       content_push " - Storage provider should have published its public IP address.";
       content_push " - All storage providers should be located in different regions.";
       content_push "" ].

Definition linked_percentage (x : string * number) : string :=
  " " +:+ providerLink (fst x) +:+ ": " +:+ percent (snd x) 2 +:+ "%".

(** lines 773-787 *)
Definition provider_summary_pushes (d : ReportData) : list line_push :=
  (if bool_decide (0 < length (providersExceedingMaxPercentage d))%nat
   then [ summary_push
            (warning +:+ " "
             +:+ number_toString (Num.of_nat (length (providersExceedingMaxPercentage d)))
             +:+ " storage providers sealed more than "
             +:+ percent (maxProviderDealPercentage (criteria d)) 0
             +:+ "% of total datacap - "
             +:+ join ", " (map linked_percentage (providersExceedingMaxPercentage d)));
          summary_push "" ]
   else [])
  ++ (if bool_decide (0 < length (providersExceedingMaxDuplication d))%nat
      then [ summary_push
               (warning +:+ " "
                +:+ number_toString (Num.of_nat (length (providersExceedingMaxDuplication d)))
                +:+ " storage providers sealed too much duplicate data - "
                +:+ join ", " (map linked_percentage (providersExceedingMaxDuplication d)));
             summary_push "" ]
      else [])
  ++ (if bool_decide (0 < length (providersNoIp d))%nat
      then [ summary_push
               (warning +:+ " "
                +:+ number_toString (Num.of_nat (length (providersNoIp d)))
                +:+ " storage providers have unknown IP location - "
                +:+ join ", " (map (fun p => " " +:+ providerLink p) (providersNoIp d)));
             summary_push "" ]
      else []).

Definition SINGLE_REGION : string :=
  warning +:+ " All storage providers are located in the same region.".

(** lines 788-798 *)
Definition region_and_health_pushes (d : ReportData) : list line_push :=
  (if single_region (providerDistributionRows d)
   then [ pushBoth SINGLE_REGION; pushBoth "" ]
   else [])
  ++ (if providerDistributionHealthy d
      then [ pushBoth (heavy_check_mark +:+ " Storage provider distribution looks healthy.");
             pushBoth "" ]
      else []).

Definition RETRIEVABILITY_BELOW_THRESHOLD (d : ReportData) : string :=
  warning +:+ " The average retrieval success rate is "
  +:+ percent (avgProviderScore d) 2 +:+ "%".

(** lines 800-820 *)
Definition retrievability_pushes (d : ReportData) : list line_push :=
  (if bool_decide (0 < countWarningRetrievability (retrievability d))%nat
   then [ pushBoth (warning +:+ " "
                    +:+ toFixed (share_of (countWarningRetrievability (retrievability d))
                                          (retrievability d)) 2
                    +:+ "% of Storage Providers have retrieval success rate equal to zero.");
          pushBoth "" ]
   else [])
  ++ (if bool_decide (0 < length (retrievability d))%nat
         && bool_decide (0 < retrievabilityThreeQuart (retrievability d))%nat
      then [ pushBoth (warning +:+ " "
                       +:+ toFixed (share_of (retrievabilityThreeQuart (retrievability d))
                                             (retrievability d)) 2
                       +:+ "% of Storage Providers have retrieval success rate less than 75%.");
             pushBoth "" ]
      else [])
  ++ (if retrievability_below_threshold (retrievability d) (avgProviderScore d)
                                        (retrievabilityThreshold d)
      then [ pushBoth (RETRIEVABILITY_BELOW_THRESHOLD d); pushBoth "" ]
      else []).

Definition provider_table (d : ReportData) : string :=
  generateGfmTable
    (map (fun r => [ row_provider r; row_location r; row_totalDealSize r;
                     row_percentage r; row_uniqueDataSize r;
                     row_duplicatePercentage r; row_retrievability r ])
         (providerDistributionRows d))
    [ ("Provider", "l"); ("Location", "r"); ("Total Deals Sealed", "r");
      ("Percentage", "r"); ("Unique Data", "r"); ("Duplicate Deals", "r");
      ("Mean Spark Retrieval Success Rate "
         +:+ number_toString (retrievabilityRange d) +:+ "d", "r") ].

(** lines 822-847 *)
Definition replication_intro_pushes (d : ReportData) : list line_push :=
  [ content_push (provider_table d);
    pushBoth "";
    content_push (img (providerDistributionImageUrl d));
    content_push "";
    pushBoth "### Deal Data Replication";
    content_push "The below table shows how each many unique data are replicated across storage providers.";
    content_push "" ]
  ++ (if Num.lt (maxPercentageForLowReplica (criteria d)) Num.one
      then relaxed_note d
           ++ [ content_push
                  ("- No more than "
                   +:+ percent (maxPercentageForLowReplica (criteria d)) 0
                   +:+ "% of unique data are stored with less than "
                   +:+ number_toString (Num.add (lowReplicaThreshold (criteria d)) Num.one)
                   +:+ " providers.") ]
      else [])
  ++ [ content_push "" ].

Definition replication_table (d : ReportData) : string :=
  generateGfmTable
    (map (fun r => [ rr_uniqueDataSize r; rr_totalDealSize r;
                     number_toString (row_numOfReplica r); rr_percentage r ])
         (replicationDistributionRows d))
    [ ("Unique Data Size", "r"); ("Total Deals Made", "r");
      ("Number of Providers", "r"); ("Deal Percentage", "r") ].

(** lines 848-869 *)
Definition replication_pushes (d : ReportData) : list line_push :=
  (if Num.gt (lowReplicaPercentage (criteria d) (replicationDistributions d))
             (maxPercentageForLowReplica (criteria d))
   then [ pushBoth (warning +:+ " "
                    +:+ percent (lowReplicaPercentage (criteria d)
                                                      (replicationDistributions d)) 2
                    +:+ "% of deals are for data replicated across less than "
                    +:+ number_toString (Num.add (lowReplicaThreshold (criteria d)) Num.one)
                    +:+ " storage providers.");
          pushBoth "" ]
   else [ pushBoth (heavy_check_mark +:+ " Data replication looks healthy.");
          pushBoth "" ])
  ++ [ content_push (replication_table d);
       content_push "";
       content_push (img (replicationDistributionImageUrl d));
       pushBoth "" ].

Definition sharing_table (d : ReportData) : string :=
  generateGfmTable
    (map (fun r => [ otherClientAddress r; otherClientOrganizationName r;
                     cs_totalDealSize r; uniqueCidCount r; cs_verifier r ])
         (cidSharingRows d))
    [ ("Other Client", "l"); ("Application", "l"); ("Total Deals Affected", "r");
      ("Unique CIDs", "r"); ("Approvers", "l") ].

(** lines 870-895 *)
Definition sharing_pushes (d : ReportData) : list line_push :=
  [ pushBoth "### Deal Data Shared with other Clients[^3]";
    content_push "The below table shows how many unique data are shared with other clients.";
    content_push "Usually different applications owns different data and should not resolve to the same CID.";
    content_push "";
    content_push "However, this could be possible if all below clients use same software to prepare for the exact same dataset or they belong to a series of LDN applications for the same dataset.";
    content_push "" ]
  ++ (if bool_decide (0 < length (cidSharingRows d))%nat
      then [ content_push (warning +:+ " CID sharing has been observed.");
             summary_push (warning +:+ " CID sharing has been observed. (Top 3)");
             pushBoth "";
             content_push (sharing_table d) ]
           ++ map (fun r => summary_push ("- " +:+ cs_totalDealSize r +:+ " - "
                                          +:+ otherClientAddress r +:+ " - "
                                          +:+ otherClientOrganizationName r))
                  (take 3 (cidSharingRows d))
      else [ pushBoth (heavy_check_mark +:+ " No CID sharing has been observed.") ]).

(** lines 897-903 *)
Definition footnote_pushes : list line_push :=
  [ pushBoth "";
    pushBoth "[^1]: To manually trigger this report, add a comment with text `checker:manualTrigger`";
    pushBoth "";
    pushBoth "[^2]: Deals from those addresses are combined into this report as they are specified with `checker:manualTrigger`";
    pushBoth "";
    pushBoth "[^3]: To manually trigger this report with deals from other related addresses, add a comment with text `checker:manualTrigger <other_address_1> <other_address_2> ...`";
    pushBoth "" ].

(** every push of [check] up to the upload of the full report *)
Definition report_pushes (d : ReportData) : list line_push :=
  header_pushes d
  ++ other_addresses_pushes d
  ++ provider_intro_pushes d
  ++ flat_map (provider_pushes (criteria d)) (providerDistributions d)
  ++ provider_summary_pushes d
  ++ region_and_health_pushes d
  ++ retrievability_pushes d
  ++ replication_intro_pushes d
  ++ replication_pushes d
  ++ sharing_pushes d
  ++ footnote_pushes.

(** lines 916-917 *)
Definition link_pushes (contentUrl : string) : list line_push :=
  [ summary_push "### Full report";
    summary_push ("Click " +:+ generateLink "here" contentUrl
                  +:+ " to view the CID Checker report.") ].

Definition joinedContent (d : ReportData) : string :=
  join nl (content_of (report_pushes d)).

Definition joinedSummary (d : ReportData) (contentUrl : string) : string :=
  join nl (summary_of (report_pushes d ++ link_pushes contentUrl)).

End Documents.

(** ** check *)

(** the values the two report queries can return *)
#[local] Unset Elimination Schemes.
Inductive value : Type :=
| undefined
| str (s : string)
| row (r : GeneratedReport)
| array (elements : list value).
#[local] Set Elimination Schemes.


(** [[getErrorContent(...), undefined]], what the two report queries
    return when no application info is found *)
Definition no_application_pair : value :=
  array [str (getErrorContent msg_no_application); undefined].

(** [rows[0]?.file_path] *)
Definition latest_file_path (rows : list GeneratedReport) : value :=
  match head rows with
  | Some r => str (file_path r)
  | None => undefined
  end.

(** a computation that leaves the arrays of the caller as they are *)
Definition keeps_arrays {A : Type} (m : M A) : Prop :=
  ∀ s, arrays (m s).2 = arrays s.

Section Check.

Context `{Runtime} (w : World).

(** the [try] around the INSERT: a failure is logged and nothing else *)
Definition insert_generated_report (client_address_id file_path : string) : M unit :=
  fun s =>
    if insert_succeeds w client_address_id file_path
    then (Ok tt, {| arrays := arrays s;
                    issueApplicationInfoCache := issueApplicationInfoCache s;
                    http_calls := http_calls s;
                    generated_reports :=
                      generated_reports s ++ [(client_address_id, file_path)] |})
    else (Ok tt, s).

Definition issue_path (event : Issue * Repository) (extension : string) : string :=
  full_name (snd event) +:+ "/issues/"
  +:+ number_toString (Num.of_Z (issue_number (fst event)))
  +:+ "/" +:+ Date_now w +:+ extension.

Definition upload_message (what : string) (event : Issue * Repository) : string :=
  "Upload " +:+ what +:+ " for issue #"
  +:+ number_toString (Num.of_Z (issue_number (fst event)))
  +:+ " of " +:+ full_name (snd event).

(** *** uploadReport *)
Definition uploadReport (joinedContent : string) (event : Issue * Repository) : string :=
  snd (uploadFile w (issue_path event ".md") (base64 joinedContent)
                  (upload_message "report" event)).

(** the loop of lines 718-724 as far as it awaits *)
Definition other_applications (addressGroup : list string) (client : string)
  : M (list (string * option ApplicationInfo)) :=
  if bool_decide (1 < length addressGroup)%nat
  then mapM (fun address =>
               otherApplication ← findApplicationInfoForClient w address;
               mret (address, otherApplication))
            (filter (fun address => address ≠ client) addressGroup)
  else mret [].

(** lines 593-596: [addressGroup] is the caller's array itself *)
Definition address_group (otherAddresses : ref) (client : string) : M (list string) :=
  addressGroup ← read otherAddresses;
  _ ← (if includes addressGroup client then mret tt
       else push otherAddresses client);
  read otherAddresses.

(** lines 604-919, once the address group is known *)
Definition check_group (event : Issue * Repository) (criterias : list Criteria)
           (applicationInfo : ApplicationInfo) (addressGroup : list string)
           (retrievabilityThreshold retrievabilityRange : number)
  : M (string * option string) :=
  let allocations := numberOfAllocations applicationInfo in
  let isEarlyAllocation := bool_decide (allocations < length criterias)%nat in
  match getClientAddressId w addressGroup with
  | None => mret (getErrorContent msg_no_client_id, None)
  | Some clientIds =>
      let criteria := select_criteria criterias allocations in
      providerDistributions ← provider_distributions_with_locations w clientIds;
      replicationDistributions ← getReplicationDistribution w clientIds;
      cidSharing ← getCidSharing w clientIds;
      let '(retrievability, avgProviderScore) :=
        providersRetrievability w providerDistributions retrievabilityRange in
      if bool_decide (length providerDistributions = 0%nat)
      then mret (getErrorContent msg_no_deals, None)
      else
        cidSharingRows ← mapM (cidSharingRow w) cidSharing;
        match criteria with
        | None => throw "TypeError"
        | Some criteria =>
            let providerDistributionImage :=
              getImageForProviderDistribution providerDistributions in
            let replicationDistributionImage :=
              getImageForReplicationDistribution replicationDistributions
                                                 (lowReplicaThreshold criteria) in
            let providerDistributionImageUrl :=
              fst (uploadFile w (issue_path event ".png") providerDistributionImage
                              (upload_message "provider distribution image" event)) in
            let replicationDistributionImageUrl :=
              fst (uploadFile w (issue_path event ".png") replicationDistributionImage
                              (upload_message "replication distribution image" event)) in
            let clientId :=
              default ["N/A"] (getClientAddressId w [clientAddress applicationInfo]) in
            approvers ← await (getApprovers w (Num.of_Z (issue_number (fst event))));
            otherApplications ←
              other_applications addressGroup (clientAddress applicationInfo);
            let d :=
              {| applicationInfo := applicationInfo;
                 clientId := clientId;
                 approvers := approvers;
                 addressGroup := addressGroup;
                 otherApplications := otherApplications;
                 isEarlyAllocation := isEarlyAllocation;
                 allocations := allocations;
                 criteria := criteria;
                 providerDistributions := providerDistributions;
                 retrievability := retrievability;
                 avgProviderScore := avgProviderScore;
                 retrievabilityThreshold := retrievabilityThreshold;
                 retrievabilityRange := retrievabilityRange;
                 replicationDistributions := replicationDistributions;
                 cidSharingRows := cidSharingRows;
                 providerDistributionImageUrl := providerDistributionImageUrl;
                 replicationDistributionImageUrl := replicationDistributionImageUrl;
                 now := now_toISOString w |} in
            let contentUrl := uploadReport (joinedContent d) event in
            _ ← insert_generated_report (clientAddress applicationInfo) contentUrl;
            mret (joinedSummary d contentUrl, Some (joinedContent d))
        end
  end.

(** [check(event, criterias, otherAddresses, retrievabilityThreshold,
    retrievabilityRange)]; an argument that is left out is [None]. *)
Definition check (event : Issue * Repository) (criterias : option (list Criteria))
           (otherAddresses : option ref)
           (retrievabilityThreshold retrievabilityRange : option number)
  : M (string * option string) :=
  let criterias := default default_criterias criterias in
  let retrievabilityThreshold := default (Num.frac 1 5) retrievabilityThreshold in
  let retrievabilityRange := default (Num.of_Z 7) retrievabilityRange in
  otherAddresses ← match otherAddresses with
                   | Some r => mret r
                   | None => alloc []
                   end;
  match getClientAddress (fst event) with
  | None => mret (getErrorContent msg_no_address, None)
  | Some address =>
      applicationInfo ← findApplicationInfoForClient w address;
      match applicationInfo with
      | None => mret (getErrorContent msg_no_application, None)
      | Some applicationInfo =>
          if bool_decide (numberOfAllocations applicationInfo = 0%nat)
          then mret (getErrorContent msg_no_allocation, None)
          else
            addressGroup ← address_group otherAddresses (clientAddress applicationInfo);
            check_group event criterias applicationInfo addressGroup
                        retrievabilityThreshold retrievabilityRange
      end
  end.

(** *** getAllClientGeneratedReports *)
Definition getAllClientGeneratedReports (address : string) : M value :=
  applicationInfo ← findApplicationInfoForClient w address;
  match applicationInfo with
  | None => mret no_application_pair
  | Some applicationInfo =>
      rows ← await (query_all_generated_reports w (clientAddress applicationInfo));
      mret (array (map row rows))
  end.

(** *** getLatestClientGeneratedReport *)
Definition getLatestClientGeneratedReport (address : string) : M value :=
  applicationInfo ← findApplicationInfoForClient w address;
  match applicationInfo with
  | None => mret no_application_pair
  | Some applicationInfo =>
      rows ← await (query_latest_generated_report w (clientAddress applicationInfo));
      mret (latest_file_path rows)
  end.

End Check.

(** the state of the process after the given addresses were resolved one
    after the other, whatever each resolution returned *)
Fixpoint lookups `{Runtime} (w : World) (clients : list string) (s : state) : state :=
  match clients with
  | [] => s
  | client :: rest => lookups w rest (findApplicationInfoForClient w client s).2
  end.

(** ** Vocabulary of the properties *)


(** the first line of the summary *)
Definition summary_title : string := "## DataCap and CID Checker Report Summary[^1]".


(** the state after a lookup that sent one request and stored [v] *)
Definition after_lookup (client : string) (v : option ApplicationInfo) (s : state)
  : state :=
  {| arrays := arrays s;
     issueApplicationInfoCache := <[client := v]> (issueApplicationInfoCache s);
     http_calls := S (http_calls s);
     generated_reports := generated_reports s |}.


Section Vocabulary.

Context `{Runtime}.

(** one of the multiaddrs of the provider cannot be resolved to addresses *)
Definition unresolved (w : World) (provider : string) : Prop :=
  ∃ minerInfo multiaddrs multiAddr e,
    StateMinerInfo w provider = Ok minerInfo
    ∧ Multiaddrs minerInfo = Some multiaddrs
    ∧ multiAddr ∈ multiaddrs
    ∧ getIpFromMultiaddr w multiAddr = Throw e.


Definition allowance (r : VerifiedClient) : number := parseInt (initialAllowance r).

(** [r] is the last of the records of [data] with the largest allowance *)
Definition last_largest (data : list VerifiedClient) (r : VerifiedClient) : Prop :=
  ∃ before after,
    data = before ++ r :: after
    ∧ Forall (fun x => Num.le (allowance x) (allowance r) = true) before
    ∧ Forall (fun x => Num.lt (allowance x) (allowance r) = true) after.

(** the reading of the specification: [r] is the first of the records of
    [data] with the largest allowance *)
Definition first_largest (data : list VerifiedClient) (r : VerifiedClient) : Prop :=
  ∃ before after,
    data = before ++ r :: after
    ∧ Forall (fun x => Num.lt (allowance x) (allowance r) = true) before
    ∧ Forall (fun x => Num.le (allowance x) (allowance r) = true) after.

End Vocabulary.

(** ** A small runtime and a small world

    They are used to run the embedding on concrete inputs.  The number
    readers agree with the JavaScript builtins on strings of decimal
    digits, the only ones the examples give them. *)

Module Sample.

Definition digit_of (c : ascii) : option Z :=
  let n := Z.of_nat (nat_of_ascii c) in
  if (48 <=? n)%Z && (n <=? 57)%Z then Some (n - 48)%Z else None.

(** the value of the leading decimal digits, if there is one *)
Fixpoint leading_digits (acc : option Z) (s : string) : option Z :=
  match s with
  | EmptyString => acc
  | String c rest =>
      match digit_of c with
      | Some d => leading_digits (Some (10 * default 0%Z acc + d)%Z) rest
      | None => acc
      end
  end.

Fixpoint all_digits (s : string) : bool :=
  match s with
  | EmptyString => true
  | String c rest => bool_decide (is_Some (digit_of c)) && all_digits rest
  end.

Definition parse_prefix (s : string) : number :=
  match leading_digits None s with
  | Some z => Num.of_Z z
  | None => NaN
  end.

Definition parse_whole (s : string) : number :=
  if bool_decide (s = "") then Num.zero
  else if all_digits s then parse_prefix s else NaN.

Definition floor (q : Qc) : Z := (Qnum (this q) / Zpos (Qden (this q)))%Z.

(** [digits] decimals, rounding half up *)
Definition fixed (x : number) (digits : nat) : string :=
  match x with
  | NaN => "NaN"
  | PosInf => "Infinity"
  | NegInf => "-Infinity"
  | Fin q =>
      let scale := (10 ^ Z.of_nat digits)%Z in
      let scaled := floor (q * Qc_of_Z scale + Q2Qc (1 # 2))%Qc in
      let whole := (Z.abs scaled / scale)%Z in
      let part := (Z.abs scaled mod scale)%Z in
      let padding :=
        String.concat "" (replicate (digits - String.length (pretty part)) "0") in
      (if (scaled <? 0)%Z then "-" else "")
      +:+ pretty whole
      +:+ (if bool_decide (digits = 0%nat) then "" else "." +:+ padding +:+ pretty part)
  end.

Definition show (x : number) : string :=
  match x with
  | Fin q => if bool_decide (Qden (this q) = 1%positive)
             then pretty (Qnum (this q)) else fixed x 6
  | _ => fixed x 0
  end.

Definition compare_strings (a b : string) : number :=
  match String.compare a b with
  | Lt => Num.of_Z (-1)
  | Eq => Num.zero
  | Gt => Num.one
  end.

(** insertion sort, stable *)
Fixpoint insert_sorted {A : Type} (compare : A → A → number) (x : A) (a : list A)
  : list A :=
  match a with
  | [] => [x]
  | y :: rest =>
      if Num.gt (compare x y) Num.zero then y :: insert_sorted compare x rest
      else x :: a
  end.

Definition sort {A : Type} (compare : A → A → number) (a : list A) : list A :=
  foldr (insert_sorted compare) [] a.

Definition ordinal_suffix (n : nat) : string :=
  if bool_decide (n mod 100 = 11 ∨ n mod 100 = 12 ∨ n mod 100 = 13)%nat then "th"
  else if bool_decide (n mod 10 = 1)%nat then "st"
  else if bool_decide (n mod 10 = 2)%nat then "nd"
  else if bool_decide (n mod 10 = 3)%nat then "rd"
  else "th".

Definition table (rows : list (list string)) (columns : list (string * string)) : string :=
  join nl (map (fun cells => "| " +:+ join " | " cells +:+ " |")
               (map fst columns :: map snd columns :: rows)).

Fixpoint chunks (fuel : nat) (s : string) : list string :=
  match fuel with
  | O => []
  | S n =>
      if bool_decide (s = "") then []
      else String.substring 0 41 s
           :: chunks n (String.substring 41 (String.length s - 41) s)
  end.

#[refine] Instance runtime : Runtime := {|
  parseInt := parse_prefix;
  parseFloat := parse_prefix;
  Number := parse_whole;
  toFixed := fixed;
  number_toString := show;
  toLocaleString := show;
  localeCompare := compare_strings;
  array_sort := @sort;
  xbytes := fun x => show x +:+ " B";
  emoji_get := fun name => ":" +:+ name +:+ ":";
  ordinal := fun n => pretty n +:+ ordinal_suffix n;
  escape := fun s => s;
  wrapInCode := fun s => "`" +:+ s +:+ "`";
  generateLink := fun text target => "[" +:+ text +:+ "](" +:+ target +:+ ")";
  generateGfmTable := table;
  parseIssue_address := fun body => if bool_decide (body = "") then None else Some body;
  chunk41 := fun s => join "<br/>" (chunks (String.length s) s);
  base64 := fun s => s;
  BarChart_getImage := fun _ _ => "bar-chart";
  GeoMap_getImage := fun _ => "geo-map"
|}.
Proof.
  intros A compare a. unfold sort.
  induction a as [|x a IH]; simpl; [constructor|].
  transitivity (x :: foldr (insert_sorted compare) [] a); [|by constructor].
  clear IH.
  generalize (foldr (insert_sorted compare) [] a). clear.
  intros l. induction l as [|y l IH]; cbn [insert_sorted]; [done|].
  destruct (Num.gt (compare x y) Num.zero); [|reflexivity].
  rewrite IH. apply perm_swap.
Defined.

(** *** Sample data *)

Definition tier (n : Z) : Criteria :=
  {| maxProviderDealPercentage := Num.frac n 100;
     maxDuplicationPercentage := Num.frac 1 5;
     lowReplicaThreshold := Num.of_Z 3;
     maxPercentageForLowReplica := Num.frac 1 4 |}.

Definition verified_client (allowance who : string) (allocations : nat)
  : VerifiedClient :=
  {| initialAllowance := allowance;
     name := Some who;
     orgName_vc := None;
     verifierName := "notary";
     allowanceArray :=
       replicate allocations
                 {| auditTrail := Some "https://github.com/org/repo/issues/7" |} |}.

(** two records with the same initial allowance *)
Definition tied_clients : list VerifiedClient :=
  [ verified_client "100" "first" 1; verified_client "100" "second" 2 ].

Definition three_clients : list VerifiedClient :=
  [ verified_client "50" "small" 1; verified_client "100" "first" 1;
    verified_client "100" "second" 2 ].

(** the situations the examples are run in *)
Inductive scenario : Type :=
| Usual          (** two providers in two countries *)
| ZeroDeals      (** the only provider row has a total deal size of 0 *)
| SameRegion     (** two providers in one city, behind two network operators *)
| MinerInfoDown  (** Filecoin.StateMinerInfo fails for provider f02 *)
| GeoDown        (** ipinfo.io fails for the address of provider f02 *)
| DnsDown.       (** the multiaddr of provider f02 cannot be resolved *)

Global Instance scenario_eq_dec : EqDecision scenario.
Proof. solve_decision. Defined.

Definition provider_row (p size : string) (duplication : number)
  : ProviderDistributionSql :=
  {| sql_provider := p;
     sql_total_deal_size := size;
     sql_unique_data_size := size;
     sql_duplication_percentage := duplication |}.

Definition ip_response (c r k o : string) : IpInfoResponse :=
  {| bogon := None;
     ip_city := Some c;
     ip_country := Some k;
     ip_region := Some r;
     loc := Some "39,77";
     org := Some o |}.

Definition report_row (n : Z) (path date : string) : GeneratedReport :=
  {| id := n; client_address_id := "f1client"; file_path := path; created_at := date |}.

Definition world (sc : scenario) : World :=
  {| getVerifiedClients := fun _ client =>
       if bool_decide (client = "f1client") then Ok [verified_client "100" "Acme" 2]
       else if bool_decide (client = "f1tied") then Ok tied_clients
       else if bool_decide (client = "f1fresh") then Ok [verified_client "100" "Fresh" 0]
       else if bool_decide (client = "f1down") then Throw "ECONNRESET"
       else Ok [];
     StateLookupID := fun address => Some ("f0" +:+ address);
     query_provider_distribution := fun _ =>
       match sc with
       | ZeroDeals => Ok [provider_row "f01" "0" NaN]
       | _ => Ok [provider_row "f01" "100" Num.zero; provider_row "f02" "300" Num.zero]
       end;
     query_providers := fun _ => Ok [("f01", "f0f1client")];
     query_replica_distribution := fun _ =>
       Ok [ {| sql_num_of_replicas := Num.of_Z 1;
               sql_r_total_deal_size := "100";
               sql_r_unique_data_size := "100" |};
            {| sql_num_of_replicas := Num.of_Z 5;
               sql_r_total_deal_size := "300";
               sql_r_unique_data_size := "300" |} ];
     query_cid_sharing := fun _ => Ok [];
     query_latest_generated_report := fun client =>
       if bool_decide (client = "f1client")
       then Ok [report_row 2 "https://view.example/2.md" "2024-02-01"]
       else Ok [];
     query_all_generated_reports := fun client =>
       if bool_decide (client = "f1client")
       then Ok [ report_row 2 "https://view.example/2.md" "2024-02-01";
                 report_row 1 "https://view.example/1.md" "2024-01-01" ]
       else Ok [];
     insert_succeeds := fun _ _ => true;
     StateMinerInfo := fun p =>
       if bool_decide (sc = MinerInfoDown ∧ p = "f02") then Throw "ETIMEDOUT"
       else Ok {| Multiaddrs := Some [p] |};
     decode_multiaddr := fun m =>
       if bool_decide (sc = DnsDown) then Ok (m, "dns4") else Ok (m, "ip4");
     resolve4 := fun a =>
       if bool_decide (a = "f02") then Throw "ENOTFOUND" else Ok [a];
     resolve6 := fun _ => Throw "ENOTFOUND";
     ipinfo := fun ip =>
       if bool_decide (sc = GeoDown ∧ ip = "f02") then Throw "ETIMEDOUT"
       else if bool_decide (ip = "f01")
            then Ok (ip_response "Ashburn" "Virginia" "US" "AS1 Amazon")
       else if bool_decide (sc = SameRegion)
            then Ok (ip_response "Ashburn" "Virginia" "US" "AS2 Google")
       else Ok (ip_response "Frankfurt" "Hesse" "DE" "AS3 Hetzner");
     fetchRetrievalSuccessRate := fun _ =>
       Ok [ {| miner_id := "f01"; spark_success_rate := Num.frac 1 10 |};
            {| miner_id := "f02"; spark_success_rate := Num.frac 9 10 |} ];
     getApprovers := fun _ => Ok [("alice", Num.one)];
     uploadFile := fun path _ _ =>
       ("https://raw.example/" +:+ path, "https://view.example/" +:+ path);
     Date_now := "1700000000000";
     now_toISOString := "2023-11-14T22:13:20.000Z" |}.

(** an issue whose parsed address is [address] *)
Definition event (address : string) : Issue * Repository :=
  ({| issue_number := 7; body := Some address |},
   {| full_name := "org/repo"; owner_login := "org"; repo_name := "repo" |}).

(** a process that has looked up nothing yet; the caller holds the array
    [others] under reference 0 *)
Definition start (others : list string) : state :=
  {| arrays := {[ 0%nat := others ]};
     issueApplicationInfoCache := ∅;
     http_calls := 0;
     generated_reports := [] |}.


(** the report of the usual situation, requested with the caller's array
    and the default tiers, threshold and window *)
Definition usual_run : outcome (string * option string) * state :=
  check (H := runtime) (world Usual) (event "f1client") None (Some 0%nat) None None
        (start []).

Definition usual_summary : string :=
  Eval vm_compute in
    match usual_run.1 with
    | Ok (summary, _) => summary
    | Throw _ => ""
    end.

Definition usual_content : string :=
  Eval vm_compute in
    match usual_run.1 with
    | Ok (_, Some content) => content
    | _ => ""
    end.

End Sample.

From Stdlib Require Import Qround.

(** * The rest of the class

    The methods that the report pipeline calls through a [World] field or
    that stand beside it: the comments of an issue with their cache, the
    approvers, the record of a pull request, the upload of a file, and the
    two migrations of the report tables. *)

(** ** More vocabulary *)

(** [c] occurs in [s] *)
Fixpoint occurs (c : ascii) (s : string) : bool :=
  match s with
  | EmptyString => false
  | String x rest => Ascii.eqb x c || occurs c rest
  end.

(** *** getCurrentEpoch

    [Math.floor((Date.now() / 1000 - 1598306400) / 30)], for [Date.now()]
    in milliseconds *)
Definition getCurrentEpoch (now : Z) : Z :=
  Qfloor ((inject_Z now / 1000 - 1598306400) / 30)%Q.

(** every application info of the cache is stored under its own address *)
Definition cache_ok (s : state) : Prop :=
  ∀ client info,
    issueApplicationInfoCache s !! client = Some (Some info) →
    clientAddress info = client.

(** the response of ipinfo.io for an address is a bogon *)
Definition is_bogon (w : World) (ip : string) : Prop :=
  ∃ data, ipinfo w ip = Ok data ∧ bogon data = Some true.



(** a computation relates every state it is run in to the state it leaves *)
Definition respects (R : relation state) {A : Type} (m : M A) : Prop :=
  ∀ s, R s (m s).2.

(** no row was added to [generated_reports] *)
Definition same_reports : relation state :=
  fun s s' => generated_reports s' = generated_reports s.

(** the cache has kept its entries and no request was taken back *)
Definition cache_grows : relation state :=
  fun s s' =>
    issueApplicationInfoCache s ⊆ issueApplicationInfoCache s'
    ∧ (http_calls s ≤ http_calls s')%nat.

(** the five documents [check] returns instead of a report *)
Definition error_documents : list string :=
  map getErrorContent
      [ msg_no_address; msg_no_application; msg_no_allocation; msg_no_client_id;
        msg_no_deals ].

(** the rows [check] adds to [generated_reports] when it ends with [r] for
    the client [client] *)
Definition rows_of `{Runtime} (w : World) (client : string)
           (r : outcome (string * option string))
           (event : Issue * Repository) : list (string * string) :=
  match r with
  | Ok (_, Some content) =>
      if insert_succeeds w client (uploadReport w content event)
      then [(client, uploadReport w content event)] else []
  | _ => []
  end.

(** the world [w] with another answer of the INSERT into [generated_reports] *)
Definition with_insert_succeeds (f : string → string → bool) (w : World) : World :=
  {| getVerifiedClients := getVerifiedClients w;
     StateLookupID := StateLookupID w;
     query_provider_distribution := query_provider_distribution w;
     query_providers := query_providers w;
     query_replica_distribution := query_replica_distribution w;
     query_cid_sharing := query_cid_sharing w;
     query_latest_generated_report := query_latest_generated_report w;
     query_all_generated_reports := query_all_generated_reports w;
     insert_succeeds := f;
     StateMinerInfo := StateMinerInfo w;
     decode_multiaddr := decode_multiaddr w;
     resolve4 := resolve4 w;
     resolve6 := resolve6 w;
     ipinfo := ipinfo w;
     fetchRetrievalSuccessRate := fetchRetrievalSuccessRate w;
     getApprovers := getApprovers w;
     uploadFile := uploadFile w;
     Date_now := Date_now w;
     now_toISOString := now_toISOString w |}.

(** a computation returns in every state *)
Definition returns {A : Type} (m : M A) : Prop :=
  ∀ s, ∃ a, (m s).1 = Ok a.

(** the registry, the database, the node, ipinfo.io and GitHub answer
    every request *)
Definition answers (w : World) : Prop :=
  (∀ n client, ∃ data, getVerifiedClients w n client = Ok data)
  ∧ (∀ clientIds, ∃ rows, query_provider_distribution w clientIds = Ok rows)
  ∧ (∀ providers, ∃ rows, query_providers w providers = Ok rows)
  ∧ (∀ clientIds, ∃ rows, query_replica_distribution w clientIds = Ok rows)
  ∧ (∀ clientIds, ∃ rows, query_cid_sharing w clientIds = Ok rows)
  ∧ (∀ provider, ∃ minerInfo, StateMinerInfo w provider = Ok minerInfo)
  ∧ (∀ ip, ∃ data, ipinfo w ip = Ok data)
  ∧ (∀ issueNumber, ∃ approvers, getApprovers w issueNumber = Ok approvers).

(** the world [w] with another registry of verified clients *)
Definition with_getVerifiedClients
           (f : nat → string → outcome (list VerifiedClient)) (w : World) : World :=
  {| getVerifiedClients := f;
     StateLookupID := StateLookupID w;
     query_provider_distribution := query_provider_distribution w;
     query_providers := query_providers w;
     query_replica_distribution := query_replica_distribution w;
     query_cid_sharing := query_cid_sharing w;
     query_latest_generated_report := query_latest_generated_report w;
     query_all_generated_reports := query_all_generated_reports w;
     insert_succeeds := insert_succeeds w;
     StateMinerInfo := StateMinerInfo w;
     decode_multiaddr := decode_multiaddr w;
     resolve4 := resolve4 w;
     resolve6 := resolve6 w;
     ipinfo := ipinfo w;
     fetchRetrievalSuccessRate := fetchRetrievalSuccessRate w;
     getApprovers := getApprovers w;
     uploadFile := uploadFile w;
     Date_now := Date_now w;
     now_toISOString := now_toISOString w |}.

(** the world [w] with another retrieval statistics service *)
Definition with_fetchRetrievalSuccessRate
           (f : number → outcome (list SparkSuccessRate)) (w : World) : World :=
  {| getVerifiedClients := getVerifiedClients w;
     StateLookupID := StateLookupID w;
     query_provider_distribution := query_provider_distribution w;
     query_providers := query_providers w;
     query_replica_distribution := query_replica_distribution w;
     query_cid_sharing := query_cid_sharing w;
     query_latest_generated_report := query_latest_generated_report w;
     query_all_generated_reports := query_all_generated_reports w;
     insert_succeeds := insert_succeeds w;
     StateMinerInfo := StateMinerInfo w;
     decode_multiaddr := decode_multiaddr w;
     resolve4 := resolve4 w;
     resolve6 := resolve6 w;
     ipinfo := ipinfo w;
     fetchRetrievalSuccessRate := f;
     getApprovers := getApprovers w;
     uploadFile := uploadFile w;
     Date_now := Date_now w;
     now_toISOString := now_toISOString w |}.

Module Cases.

(** a provider with a private address, a public one and one whose lookup
    fails, in this order; provider f09 announces an address of a protocol
    the class does not know *)
Definition addresses_world : World :=
  {| getVerifiedClients := getVerifiedClients (Sample.world Sample.Usual);
     StateLookupID := StateLookupID (Sample.world Sample.Usual);
     query_provider_distribution :=
       query_provider_distribution (Sample.world Sample.Usual);
     query_providers := query_providers (Sample.world Sample.Usual);
     query_replica_distribution :=
       query_replica_distribution (Sample.world Sample.Usual);
     query_cid_sharing := query_cid_sharing (Sample.world Sample.Usual);
     query_latest_generated_report :=
       query_latest_generated_report (Sample.world Sample.Usual);
     query_all_generated_reports :=
       query_all_generated_reports (Sample.world Sample.Usual);
     insert_succeeds := fun _ _ => true;
     StateMinerInfo := fun p =>
       if bool_decide (p = "f09") then Ok {| Multiaddrs := Some ["quic-address"] |}
       else Ok {| Multiaddrs := Some ["10.0.0.1"; "8.8.8.8"; "203.0.113.9"] |};
     decode_multiaddr := fun m =>
       if bool_decide (m = "quic-address") then Ok (m, "quic") else Ok (m, "ip4");
     resolve4 := fun a => Ok [a];
     resolve6 := fun a => Ok [a];
     ipinfo := fun ip =>
       if bool_decide (ip = "10.0.0.1")
       then Ok {| bogon := Some true; ip_city := None; ip_country := None;
                  ip_region := None; loc := None; org := None |}
       else if bool_decide (ip = "8.8.8.8")
            then Ok (Sample.ip_response "Mountain View" "California" "US"
                                        "AS15169 Google LLC")
       else Throw "ETIMEDOUT";
     fetchRetrievalSuccessRate :=
       fetchRetrievalSuccessRate (Sample.world Sample.Usual);
     getApprovers := getApprovers (Sample.world Sample.Usual);
     uploadFile := uploadFile (Sample.world Sample.Usual);
     Date_now := Date_now (Sample.world Sample.Usual);
     now_toISOString := now_toISOString (Sample.world Sample.Usual) |}.


(** what [check] gathers for a client with one provider *)
Definition one_provider_data : ReportData :=
  {| applicationInfo :=
       application_info_of "f1client" (Sample.verified_client "100" "Acme" 2);
     clientId := ["f0f1client"];
     approvers := [("alice", Num.one)];
     addressGroup := ["f1client"];
     otherApplications := [];
     isEarlyAllocation := false;
     allocations := 2;
     criteria := Sample.tier 25;
     providerDistributions :=
       [ {| item := {| provider := "f01";
                       total_deal_size := "100";
                       unique_data_size := "100";
                       duplication_percentage := Num.zero;
                       percentage := Num.one |};
            location :=
              Some (location_of (H := Sample.runtime)
                      (Sample.ip_response "Ashburn" "Virginia" "US" "AS1 Amazon"));
            new := true |} ];
     retrievability := [];
     avgProviderScore := Num.zero;
     retrievabilityThreshold := Num.frac 1 5;
     retrievabilityRange := Num.of_Z 7;
     replicationDistributions := [];
     cidSharingRows := [];
     providerDistributionImageUrl := "https://raw.example/map.png";
     replicationDistributionImageUrl := "https://raw.example/bars.png";
     now := "2023-11-14T22:13:20.000Z" |}.

(** the usual situation with a registry that answers for every address *)
Definition steady : World :=
  with_getVerifiedClients
    (fun _ client =>
       if bool_decide (client = "f1client")
       then Ok [Sample.verified_client "100" "Acme" 2] else Ok [])
    (Sample.world Sample.Usual).



End Cases.

(** ** The methods that talk to GitHub and to the disk

    [getComments], [getApprovers], [getRecordByPR] and [uploadFile] keep two
    more caches and send requests through octokit.  The state they run in
    is the part of the process [check] does not read. *)

Module GitHub.

Record User : Type := {
  login : option string;
  user_id : Z
}.

(** A comment of an issue, as far as the class reads it. *)
Record Comment : Type := {
  comment_body : option string;
  user : option User
}.

(** [./application]: the record of an allocation, here its JSON value *)
Definition DatacapAllocation : Type := string.

(** What a request through octokit gives: the [data] of the response, or
    the error it throws with its [status]. *)
Inductive reply (A : Type) : Type :=
| Data (data : A)
| RequestError (status : Z) (message : string).
Arguments Data {A} data.
Arguments RequestError {A} status message.

Record FileUploadConfig : Type := {
  local : option string;
  localBaseURL : string;
  owner : string;
  repo : string;
  branch : option string;
  committerName : string;
  committerEmail : string
}.

(** the parameters of PUT /repos/{owner}/{repo}/contents/{path} *)
Record PutParams : Type := {
  put_owner : string;
  put_repo : string;
  put_path : string;
  put_message : string;
  put_content : string;
  put_branch : option string;
  put_committer : string * string
}.

(** GitHub, the disk and the builtins these methods use.  A request is
    answered by its number in the process and its parameters. *)
Record Environment : Type := {
  (** GET /repos/{owner}/{repo}/issues/{issue_number}/comments with
      [per_page: 100] and the given page *)
  list_comments : nat → string → string → number → nat → reply (list Comment);
  (** GET /repos/{owner}/{repo}/pulls/{pull_number}/files: the
      [contents_url] of every file, or a response that is [null] *)
  pulls_files : nat → string → string → Z → reply (option (list string));
  (** GET of a [contents_url]: the [content] of the file *)
  get_contents : nat → string → reply string;
  (** PUT /repos/{owner}/{repo}/contents/{path}: the [download_url] and
      the [html_url] of the [content] of the response, if it has one *)
  put_contents : nat → PutParams → reply (option (string * string));
  atob : string → outcome string;
  JSON_parse : string → outcome DatacapAllocation;
  (** [Buffer.from(s, 'base64')] *)
  from_base64 : string → string;
  dirname : string → string;
  pathJoin : string → string → string;
  (** [fs.mkdirSync(path, { recursive: true })] *)
  mkdirSync : string → outcome unit;
  (** whether [fs.writeFileSync(path, data)] can write *)
  writeFileSync : string → outcome unit
}.

Record store : Type := {
  (** [CidChecker.commentsCache] *)
  commentsCache : gmap string (list Comment);
  (** [CidChecker.prCache] *)
  prCache : gmap Z DatacapAllocation;
  (** number of requests sent through octokit *)
  requests : nat;
  (** the files written to the disk *)
  files : gmap string string
}.

Definition G (A : Type) : Type := store → outcome A * store.

#[export] Instance G_ret : MRet G := fun A a s => (Ok a, s).

#[export] Instance G_bind : MBind G := fun A B k m s =>
  match m s with
  | (Ok a, s') => k a s'
  | (Throw e, s') => (Throw e, s')
  end.

Definition throw {A : Type} (e : string) : G A := fun s => (Throw e, s).

Definition await {A : Type} (o : outcome A) : G A := fun s => (o, s).

(** [retry(attempt, { retries })] *)
Fixpoint retry {A : Type} (retries : nat) (attempt : G A) : G A :=
  fun s =>
    match attempt s with
    | (Ok a, s') => (Ok a, s')
    | (Throw e, s') =>
        match retries with
        | O => (Throw e, s')
        | S n => retry n attempt s'
        end
    end.

(** the state after one more request *)
Definition sent (s : store) : store :=
  {| commentsCache := commentsCache s;
     prCache := prCache s;
     requests := S (requests s);
     files := files s |}.

(** [await this.octokit.request(...)] *)
Definition request {A : Type} (answer : nat → reply A) : G A :=
  fun s =>
    match answer (requests s) with
    | Data data => (Ok data, sent s)
    | RequestError _ message => (Throw message, sent s)
    end.

Definition set_comments (key : string) (comments : list Comment) : G unit :=
  fun s =>
    (Ok tt, {| commentsCache := <[key := comments]> (commentsCache s);
               prCache := prCache s;
               requests := requests s;
               files := files s |}).

Definition set_record (prNumber : Z) (record : DatacapAllocation) : G unit :=
  fun s =>
    (Ok tt, {| commentsCache := commentsCache s;
               prCache := <[prNumber := record]> (prCache s);
               requests := requests s;
               files := files s |}).

Definition write_file (path data : string) : G unit :=
  fun s =>
    (Ok tt, {| commentsCache := commentsCache s;
               prCache := prCache s;
               requests := requests s;
               files := <[path := data]> (files s) |}).

(** [approvers.get(key)] on a Map, kept in the order of insertion *)
Fixpoint map_get (m : list (string * number)) (key : string) : option number :=
  match m with
  | [] => None
  | (k, v) :: rest => if bool_decide (k = key) then Some v else map_get rest key
  end.

(** [approvers.set(key, value)]: a key that is there keeps its place *)
Fixpoint map_set (m : list (string * number)) (key : string) (value : number)
  : list (string * number) :=
  match m with
  | [] => [(key, value)]
  | (k, v) :: rest =>
      if bool_decide (k = key) then (k, value) :: rest
      else (k, v) :: map_set rest key value
  end.

(** [body?.startsWith(prefix) === true] *)
Definition startsWith (body : option string) (prefix : string) : bool :=
  match body with
  | Some b => String.prefix prefix b
  | None => false
  end.

Definition is_approval (comment : Comment) : bool :=
  startsWith (comment_body comment) "## Request Approved"
  || startsWith (comment_body comment) "## Request Proposed".

(** [comment.user?.login ?? 'Unknown'] *)
Definition approver_of (comment : Comment) : string :=
  default "Unknown" (user comment ≫= login).

(** the body of the loop of [getApprovers] *)
Definition count_approval (approvers : list (string * number)) (comment : Comment)
  : list (string * number) :=
  if is_approval comment
  then let approver := approver_of comment in
       let count := default Num.zero (map_get approvers approver) in
       map_set approvers approver (Num.add count Num.one)
  else approvers.

Section Methods.

Context `{Runtime} (env : Environment) (fileUploadConfig : FileUploadConfig).

(** one attempt of the request of a page: a 404 is the response [null] *)
Definition comments_attempt (repo : Repository) (issueNumber : number) (page : nat)
  : G (option (list Comment)) :=
  fun s =>
    match list_comments env (requests s) (owner_login repo) (repo_name repo)
                        issueNumber page with
    | Data data => (Ok (Some data), sent s)
    | RequestError status message =>
        if bool_decide (status = 404%Z) then (Ok None, sent s)
        else (Throw message, sent s)
    end.

(** the loop [while (true)] of [getComments], run for at most [fuel]
    pages; [None] when the fuel does not reach the last page *)
Fixpoint comment_pages (fuel : nat) (repo : Repository) (issueNumber : number)
         (page : nat) (comments : list Comment) : G (option (list Comment)) :=
  match fuel with
  | O => mret None
  | S fuel =>
      response ← retry 3 (comments_attempt repo issueNumber page);
      let comments := match response with
                      | Some data => comments ++ data
                      | None => comments
                      end in
      if match response with
         | None => true
         | Some data => bool_decide (length data < 100)%nat
         end
      then mret (Some comments)
      else comment_pages fuel repo issueNumber (S page) comments
  end.

Definition comments_key (issueNumber : number) (repo : Repository) : string :=
  owner_login repo +:+ "/" +:+ repo_name repo +:+ "/" +:+ number_toString issueNumber.

(** *** getComments *)
Definition getComments (fuel : nat) (issueNumber : number) (repo : Repository)
  : G (option (list Comment)) :=
  fun s =>
    let key := comments_key issueNumber repo in
    match commentsCache s !! key with
    | Some cached => (Ok (Some cached), s)
    | None =>
        (pages ← comment_pages fuel repo issueNumber 1 [];
         match pages with
         | None => mret None
         | Some comments =>
             _ ← set_comments key comments;
             mret (Some comments)
         end) s
    end.

(** *** getApprovers *)

(** the entries of the Map, sorted by name *)
Definition approvers_of (comments : list Comment) : list (string * number) :=
  array_sort _ (fun a b => localeCompare (fst a) (fst b))
             (fold_left count_approval comments []).

Definition getApprovers (fuel : nat) (issueNumber : number) (repo : Repository)
  : G (option (list (string * number))) :=
  comments ← getComments fuel issueNumber repo;
  mret (approvers_of <$> comments).

(** *** getRecordByPR *)
Definition getRecordByPR (prNumber : Z) (repo : Repository) : G DatacapAllocation :=
  fun s =>
    match prCache s !! prNumber with
    | Some cached => (Ok cached, s)
    | None =>
        (response ← retry 3 (request (fun n => pulls_files env n (owner_login repo)
                                                           (repo_name repo) prNumber));
         match response with
         | None => throw "Failed to get PR"
         | Some [] => throw "TypeError"
         | Some (editedFile :: _) =>
             content ← request (fun n => get_contents env n editedFile);
             outData ← await (atob env content);
             outRecord ← await (JSON_parse env outData);
             _ ← set_record prNumber outRecord;
             mret outRecord
         end) s
    end.

(** *** uploadFile *)

(** [if (local)]: a string that is not empty *)
Definition local_directory : option string :=
  match local fileUploadConfig with
  | Some directory => if bool_decide (directory = "") then None else Some directory
  | None => None
  end.

Definition put_params (path base64Content commitMessage : string) : PutParams :=
  {| put_owner := owner fileUploadConfig;
     put_repo := repo fileUploadConfig;
     put_path := path;
     put_message := commitMessage;
     put_content := base64Content;
     put_branch := branch fileUploadConfig;
     put_committer := (committerName fileUploadConfig, committerEmail fileUploadConfig) |}.

(** the [try] of the local branch *)
Definition write_locally (directory path base64Content : string) : G unit :=
  let base := dirname env path in
  let fullPath := pathJoin env directory base in
  _ ← await (mkdirSync env fullPath);
  _ ← await (writeFileSync env (pathJoin env directory path));
  write_file (pathJoin env directory path) (from_base64 env base64Content).

(** the [try] of the remote branch *)
Definition put_remotely (path base64Content commitMessage : string)
  : G (string * string) :=
  response ← retry 3 (request (fun n =>
                put_contents env n (put_params path base64Content commitMessage)));
  match response with
  | Some urls => mret urls
  | None => throw "TypeError"
  end.

(** [try { ... } catch (e) { return ['', ''] }] *)
Definition or_empty (attempt : G (string * string)) : G (string * string) :=
  fun s =>
    match attempt s with
    | (Ok urls, s') => (Ok urls, s')
    | (Throw _, s') => (Ok ("", ""), s')
    end.

Definition uploadFile (path base64Content commitMessage : string)
  : G (string * string) :=
  match local_directory with
  | Some directory =>
      let fullURL := localBaseURL fileUploadConfig +:+ path in
      or_empty (_ ← write_locally directory path base64Content;
                mret (fullURL, fullURL))
  | None => or_empty (put_remotely path base64Content commitMessage)
  end.

End Methods.

(** *** Vocabulary *)

(** the server shows the comments [all] in pages of 100, whenever it is
    asked *)
Definition paginates (env : Environment) (repo : Repository) (issueNumber : number)
           (all : list Comment) : Prop :=
  ∀ n page,
    list_comments env n (owner_login repo) (repo_name repo) issueNumber (S page)
    = Data (take 100 (drop (100 * page) all)).

(** the approvals of [approver] among the comments *)
Definition approvals (approver : string) (comments : list Comment) : nat :=
  length (filter (fun c => is_approval c = true ∧ approver_of c = approver) comments).

(** the entry of the Map of an approver with [n] approvals *)
Definition entry_of (n : nat) : option number :=
  match n with
  | O => None
  | S _ => Some (Num.of_nat n)
  end.

Definition empty : store :=
  {| commentsCache := ∅; prCache := ∅; requests := 0; files := ∅ |}.

End GitHub.

(** ** A repository with an issue of 102 comments *)

Module Hub.

Definition comment (who body : string) : GitHub.Comment :=
  {| GitHub.comment_body := Some body;
     GitHub.user := Some {| GitHub.login := Some who; GitHub.user_id := 1 |} |}.

(** a hundred comments of a bot, then a proposal and an approval *)
Definition comments : list GitHub.Comment :=
  replicate 100 (comment "bot" "Checking the application")
  ++ [ comment "alice" "## Request Proposed"; comment "bob" "## Request Approved" ].

Definition repository : Repository :=
  {| full_name := "org/repo"; owner_login := "org"; repo_name := "repo" |}.

(** GitHub answers every request for the comments with the page asked
    for; the other requests fail *)
Definition env : GitHub.Environment :=
  {| GitHub.list_comments := fun _ _ _ _ page =>
       match page with
       | O => GitHub.RequestError 422 "Unprocessable Entity"
       | S page => GitHub.Data (take 100 (drop (100 * page) comments))
       end;
     GitHub.pulls_files := fun _ _ _ _ => GitHub.RequestError 500 "Server Error";
     GitHub.get_contents := fun _ _ => GitHub.RequestError 500 "Server Error";
     GitHub.put_contents := fun _ _ => GitHub.RequestError 500 "Server Error";
     GitHub.atob := fun s => Ok s;
     GitHub.JSON_parse := fun s => Ok s;
     GitHub.from_base64 := fun s => s;
     GitHub.dirname := fun path => path;
     GitHub.pathJoin := fun a b => a +:+ "/" +:+ b;
     GitHub.mkdirSync := fun _ => Ok tt;
     GitHub.writeFileSync := fun _ => Ok tt |}.

(** the same with an answer [status] to every request for comments *)
Definition failing (status : Z) : GitHub.Environment :=
  {| GitHub.list_comments := fun _ _ _ _ _ => GitHub.RequestError status "Request failed";
     GitHub.pulls_files := GitHub.pulls_files env;
     GitHub.get_contents := GitHub.get_contents env;
     GitHub.put_contents := GitHub.put_contents env;
     GitHub.atob := GitHub.atob env;
     GitHub.JSON_parse := GitHub.JSON_parse env;
     GitHub.from_base64 := GitHub.from_base64 env;
     GitHub.dirname := GitHub.dirname env;
     GitHub.pathJoin := GitHub.pathJoin env;
     GitHub.mkdirSync := GitHub.mkdirSync env;
     GitHub.writeFileSync := GitHub.writeFileSync env |}.

End Hub.

(** ** The migrations of the report tables

    A migration is the list of the calls it makes on the builder [pgm] of
    node-pg-migrate.  The calls are run on a schema: the tables with their
    columns and the indexes, each on one column of a table.  As in
    PostgreSQL, a table or an index is created once, only what is there is
    dropped, and an index is on a column of its table. *)

Module Migrations.

Record ColumnDefinition : Type := {
  column_type : string;
  notNull : bool;
  (** [default: pgm.func(...)] *)
  column_default : option string;
  primaryKey : bool
}.

(** the shorthand ['id'] of node-pg-migrate: [{ type: 'serial', primaryKey: true }] *)
Definition id_column : ColumnDefinition :=
  {| column_type := "serial"; notNull := false; column_default := None;
     primaryKey := true |}.

(** [{ type, notNull: true }] *)
Definition required (type : string) : ColumnDefinition :=
  {| column_type := type; notNull := true; column_default := None;
     primaryKey := false |}.

(** [{ type: 'timestamp', notNull: true, default: pgm.func('current_timestamp') }] *)
Definition created_at_column : ColumnDefinition :=
  {| column_type := "timestamp"; notNull := true;
     column_default := Some "current_timestamp"; primaryKey := false |}.

Inductive operation : Type :=
| createTable (tableName : string) (columns : list (string * ColumnDefinition))
| createIndex (tableName : string) (column : string)
| dropIndex (tableName : string) (column : string)
| dropTable (tableName : string).

(** *** src/unnamed/part_000 *)
Module GeneratedReports.

Definition up : list operation :=
  [ createTable "generated_reports"
      [ ("id", id_column);
        ("client_address_id", required "varchar");
        ("file_path", required "varchar");
        ("created_at", created_at_column) ];
    createIndex "generated_reports" "client_address_id" ].

Definition down : list operation :=
  [ dropIndex "generated_reports" "client_address_id";
    dropTable "generated_reports" ].

End GeneratedReports.

(** *** src/migrations/1722528893687_add-allocator-generated-reports.js *)
Module AllocatorGeneratedReports.

Definition up : list operation :=
  [ createTable "allocator_generated_reports"
      [ ("id", id_column);
        ("address", required "text");
        ("address_id", required "text");
        ("name", required "text");
        ("url", required "text");
        ("created_at", created_at_column) ];
    createIndex "allocator_generated_reports" "address";
    createIndex "allocator_generated_reports" "address_id" ].

Definition down : list operation :=
  [ dropIndex "allocator_generated_reports" "address";
    dropIndex "allocator_generated_reports" "address_id";
    dropTable "allocator_generated_reports" ].

End AllocatorGeneratedReports.

Record schema : Type := {
  tables : gmap string (list (string * ColumnDefinition));
  indexes : gset (string * string)
}.

Definition apply (op : operation) (s : schema) : option schema :=
  match op with
  | createTable tableName columns =>
      match tables s !! tableName with
      | Some _ => None
      | None => Some {| tables := <[tableName := columns]> (tables s);
                        indexes := indexes s |}
      end
  | createIndex tableName column =>
      match tables s !! tableName with
      | Some columns =>
          if bool_decide (column ∈ map fst columns
                          ∧ (tableName, column) ∉ indexes s)
          then Some {| tables := tables s;
                       indexes := {[ (tableName, column) ]} ∪ indexes s |}
          else None
      | None => None
      end
  | dropIndex tableName column =>
      if bool_decide ((tableName, column) ∈ indexes s)
      then Some {| tables := tables s;
                   indexes := indexes s ∖ {[ (tableName, column) ]} |}
      else None
  | dropTable tableName =>
      match tables s !! tableName with
      | Some _ =>
          Some {| tables := delete tableName (tables s);
                  indexes := filter (fun i => fst i ≠ tableName) (indexes s) |}
      | None => None
      end
  end.

(** the calls of a migration, one after the other; [None] when one fails *)
Fixpoint run (ops : list operation) (s : schema) : option schema :=
  match ops with
  | [] => Some s
  | op :: rest =>
      match apply op s with
      | Some s' => run rest s'
      | None => None
      end
  end.

(** every index is on a table of the schema *)
Definition well_formed (s : schema) : Prop :=
  ∀ tableName column, (tableName, column) ∈ indexes s → is_Some (tables s !! tableName).

Definition no_tables : schema := {| tables := ∅; indexes := ∅ |}.

(** the columns of
    [INSERT INTO generated_reports (client_address_id, file_path) VALUES ($1, $2)]
    of [check] *)
Definition insert_table : string := "generated_reports".
Definition insert_columns : list string := ["client_address_id"; "file_path"].

(** a column gets a value without being given one: it may be null, has a
    default, or is a serial *)
Definition fills_itself (c : ColumnDefinition) : bool :=
  negb (notNull c) || bool_decide (is_Some (column_default c))
  || bool_decide (column_type c = "serial").

(** an INSERT that gives the columns [given] of a table with [columns] *)
Definition accepts (columns : list (string * ColumnDefinition)) (given : list string)
  : bool :=
  forallb (fun g => bool_decide (g ∈ map fst columns)) given
  && forallb (fun c => bool_decide (fst c ∈ given) || fills_itself (snd c)) columns.

End Migrations.

(** * Properties *)

(** ** Order on numbers *)

Ltac num_cases :=
  repeat match goal with
         | x : number |- _ => destruct x
         end;
  cbn in *; try congruence;
  repeat match goal with
         | H : bool_decide _ = true |- _ => apply bool_decide_eq_true_1 in H
         | H : bool_decide _ = false |- _ => apply bool_decide_eq_false_1 in H
         | H : negb _ = true |- _ => apply negb_true_iff in H
         | H : negb _ = false |- _ => apply negb_false_iff in H
         | |- bool_decide _ = true => apply bool_decide_eq_true_2
         | |- bool_decide _ = false => apply bool_decide_eq_false_2
         | |- negb _ = true => apply negb_true_iff
         | |- negb _ = false => apply negb_false_iff
         end;
  unfold Qclt, Qcle in *; try lra.

Lemma num_le_trans x y z :
  Num.le x y = true → Num.le y z = true → Num.le x z = true.
Proof. intros. num_cases. Qed.

Lemma num_lt_le_trans x y z :
  Num.lt x y = true → Num.le y z = true → Num.lt x z = true.
Proof. intros. num_cases. Qed.

Lemma num_lt_le x y : Num.lt x y = true → Num.le x y = true.
Proof. intros. num_cases. Qed.

Lemma num_not_gt_le x y :
  x ≠ NaN → y ≠ NaN → Num.gt x y = false → Num.le x y = true.
Proof. intros. num_cases. Qed.

(** ** The primary record of an address *)

Section Primary.

Context `{Runtime}.

(** the reduce keeps the last of the largest records seen so far *)
Lemma fold_larger_allowance (rest before after : list VerifiedClient)
      (p : VerifiedClient) :
  Forall (fun r => allowance r ≠ NaN) (before ++ p :: after ++ rest) →
  Forall (fun r => Num.le (allowance r) (allowance p) = true) before →
  Forall (fun r => Num.lt (allowance r) (allowance p) = true) after →
  ∃ before' after',
    before ++ p :: after ++ rest
    = before' ++ fold_left larger_allowance rest p :: after'
    ∧ Forall (fun r => Num.le (allowance r)
                              (allowance (fold_left larger_allowance rest p)) = true)
             before'
    ∧ Forall (fun r => Num.lt (allowance r)
                              (allowance (fold_left larger_allowance rest p)) = true)
             after'.
Proof.
  revert before after p.
  induction rest as [|c rest IH]; intros before after p Hnan Hle Hlt.
  - exists before, after. by rewrite app_nil_r.
  - cbn [fold_left]. unfold larger_allowance at 2 4 6.
    fold (allowance p) (allowance c).
    assert (allowance p ≠ NaN ∧ allowance c ≠ NaN) as [Hp Hc].
    { rewrite !Forall_app, !Forall_cons, !Forall_app, !Forall_cons in Hnan. tauto. }
    destruct (Num.gt (allowance p) (allowance c)) eqn:Hgt.
    + destruct (IH before (after ++ [c]) p) as (b' & a' & Heq & Hb & Ha).
      * by rewrite <- (assoc_L (++)).
      * done.
      * apply Forall_app; split; [done|]. by repeat constructor.
      * exists b', a'. by rewrite <- Heq, <- (assoc_L (++)).
    + pose proof (num_not_gt_le _ _ Hp Hc Hgt) as Hpc.
      destruct (IH (before ++ p :: after) [] c) as (b' & a' & Heq & Hb & Ha).
      * by rewrite <- (assoc_L (++)).
      * apply Forall_app; split; [|constructor].
        -- eapply Forall_impl; [exact Hle|]. intros r Hr. cbn beta in Hr.
           by eapply num_le_trans.
        -- done.
        -- eapply Forall_impl; [exact Hlt|]. intros r Hr. cbn beta in Hr.
           eapply num_lt_le, num_lt_le_trans; done.
      * constructor.
      * exists b', a'. by rewrite <- Heq, <- (assoc_L (++)).
Qed.

Lemma find_primary_last_largest (data : list VerifiedClient) :
  data ≠ [] →
  Forall (fun r => allowance r ≠ NaN) data →
  ∃ primary, find_primary data = Some primary ∧ last_largest data primary.
Proof.
  intros Hne Hnan. destruct data as [|x rest]; [done|].
  destruct (fold_larger_allowance rest [] [] x) as (b & a & Heq & Hb & Ha);
    [done | constructor | constructor |].
  exists (fold_left larger_allowance rest x). split; [done|].
  exists b, a. done.
Qed.

End Primary.

(** ** The resolver and its cache *)

Section Resolver.

Context `{Runtime} (w : World).

(** a lookup that misses the cache and whose first request is answered *)
Lemma findApplicationInfoForClient_miss (client : string) (s : state)
      (data : list VerifiedClient) :
  issueApplicationInfoCache s !! client = None →
  getVerifiedClients w (http_calls s) client = Ok data →
  findApplicationInfoForClient w client s
  = (Ok (application_info_of client <$> find_primary data),
     after_lookup client (application_info_of client <$> find_primary data) s).
Proof.
  intros Hmiss Hget. unfold findApplicationInfoForClient. rewrite Hmiss.
  unfold mbind, M_bind. cbn [retry]. unfold http_get_verified_clients at 1.
  rewrite Hget. by destruct (find_primary data).
Qed.

Lemma findApplicationInfoForClient_hit (client : string) (s : state)
      (v : option ApplicationInfo) :
  issueApplicationInfoCache s !! client = Some v →
  findApplicationInfoForClient w client s = (Ok v, s).
Proof. intros Hhit. unfold findApplicationInfoForClient. by rewrite Hhit. Qed.

(** C3 (amended): when the lookup of an address returns two or more
    records whose initial allowances all parse to numbers, the record
    [findApplicationInfoForClient] builds its result from has the largest
    initial allowance, and among several records with that allowance it is
    the last one encountered. *)
Theorem findApplicationInfoForClient_last_largest (client : string) (s : state)
        (data : list VerifiedClient) :
  issueApplicationInfoCache s !! client = None →
  getVerifiedClients w (http_calls s) client = Ok data →
  (2 ≤ length data)%nat →
  Forall (fun r => allowance r ≠ NaN) data →
  ∃ primary,
    last_largest data primary
    ∧ find_primary data = Some primary
    ∧ (findApplicationInfoForClient w client s).1
      = Ok (Some (application_info_of client primary)).
Proof.
  intros Hmiss Hget Hlen Hnan.
  destruct (find_primary_last_largest data) as (primary & Hprim & Hlast);
    [intros ->; simpl in Hlen; lia | done |].
  exists primary. split; [done|]. split; [done|].
  rewrite (findApplicationInfoForClient_miss _ _ data) by done.
  rewrite Hprim. reflexivity.
Qed.

End Resolver.

Section Cache.

Context `{Runtime} (w : World).

(** the requests of a lookup touch nothing but the request counter *)
Lemma retry_http_get_frame (client : string) (retries : nat) (s : state) :
  let s' := (retry retries (http_get_verified_clients w client) s).2 in
  issueApplicationInfoCache s' = issueApplicationInfoCache s
  ∧ arrays s' = arrays s
  ∧ generated_reports s' = generated_reports s
  ∧ (http_calls s < http_calls s')%nat.
Proof.
  revert s. induction retries as [|n IH]; intros s; cbn.
  - destruct (getVerifiedClients w (http_calls s) client); cbn; repeat split; lia.
  - destruct (getVerifiedClients w (http_calls s) client); cbn;
      [repeat split; lia|].
    specialize (IH {| arrays := arrays s;
                      issueApplicationInfoCache := issueApplicationInfoCache s;
                      http_calls := S (http_calls s);
                      generated_reports := generated_reports s |}).
    cbn in IH. destruct IH as (-> & -> & -> & Hlt). repeat split; lia.
Qed.

(** a lookup that returns has its result in the cache *)
Lemma findApplicationInfoForClient_cached (client : string) (s s' : state)
      (v : option ApplicationInfo) :
  findApplicationInfoForClient w client s = (Ok v, s') →
  issueApplicationInfoCache s' !! client = Some v.
Proof.
  unfold findApplicationInfoForClient.
  destruct (issueApplicationInfoCache s !! client) as [cached|] eqn:Hc.
  - intros [= <- <-]. done.
  - unfold mbind, M_bind, mret, M_ret, set_cache.
    destruct (retry 6 (http_get_verified_clients w client) s) as [[data|e] s1];
      [|done].
    destruct (find_primary data); intros [= <- <-]; cbn; apply lookup_insert_eq.
Qed.

(** no lookup removes or replaces an entry of the cache *)
Lemma findApplicationInfoForClient_keeps (client other : string) (s : state)
      (v : option ApplicationInfo) :
  issueApplicationInfoCache s !! client = Some v →
  issueApplicationInfoCache (findApplicationInfoForClient w other s).2 !! client
  = Some v.
Proof.
  intros Hv. unfold findApplicationInfoForClient.
  destruct (issueApplicationInfoCache s !! other) as [cached|] eqn:Hc; [done|].
  assert (other ≠ client) as Hne by (intros ->; congruence).
  unfold mbind, M_bind, mret, M_ret, set_cache.
  pose proof (retry_http_get_frame other 6 s) as (Hcache & _).
  destruct (retry 6 (http_get_verified_clients w other) s) as [[data|e] s1];
    cbn in Hcache |- *.
  - destruct (find_primary data); cbn; by rewrite lookup_insert_ne, Hcache.
  - by rewrite Hcache.
Qed.

Lemma lookups_keep (clients : list string) (client : string) (s : state)
      (v : option ApplicationInfo) :
  issueApplicationInfoCache s !! client = Some v →
  issueApplicationInfoCache (lookups w clients s) !! client = Some v.
Proof.
  revert s. induction clients as [|other clients IH]; intros s Hv; [done|].
  cbn. by apply IH, findApplicationInfoForClient_keeps.
Qed.

(** C8: once an address has been resolved (to an application info or to
    [null]), resolving it again later in the same process, after any
    number of other resolutions, returns the same value from the cache and
    leaves the state, and so the number of requests sent, as it is. *)
Theorem findApplicationInfoForClient_idempotent (client : string)
        (between : list string) (s s1 : state) (v : option ApplicationInfo) :
  findApplicationInfoForClient w client s = (Ok v, s1) →
  let s2 := lookups w between s1 in
  findApplicationInfoForClient w client s2 = (Ok v, s2)
  ∧ http_calls (findApplicationInfoForClient w client s2).2 = http_calls s2.
Proof.
  intros Hfirst s2.
  assert (findApplicationInfoForClient w client s2 = (Ok v, s2)) as Hsecond.
  { apply findApplicationInfoForClient_hit, lookups_keep.
    by eapply findApplicationInfoForClient_cached. }
  split; [done|]. by rewrite Hsecond.
Qed.

End Cache.

Section Resolver_examples.

#[local] Existing Instance Sample.runtime.

(** C3 (amended) on two records with the same initial allowance. *)
Lemma findApplicationInfoForClient_last_largest_witness :
  ∃ primary,
    last_largest Sample.tied_clients primary
    ∧ find_primary Sample.tied_clients = Some primary
    ∧ (findApplicationInfoForClient (Sample.world Sample.Usual) "f1tied"
                                    (Sample.start [])).1
      = Ok (Some (application_info_of "f1tied" primary)).
Proof.
  apply (findApplicationInfoForClient_last_largest
           (Sample.world Sample.Usual) "f1tied" (Sample.start []) Sample.tied_clients).
  - reflexivity.
  - reflexivity.
  - simpl. lia.
  - repeat (apply Forall_cons; split); try apply Forall_nil; by vm_compute.
Defined.

(** C3 as stated fails: of two records with the same initial allowance
    the resolver takes the second, which is not the first of the largest;
    the resolved application is the one of the second record. *)
Lemma tied_allowances_select_the_last :
  ∃ primary,
    find_primary Sample.tied_clients = Some primary
    ∧ ¬ first_largest Sample.tied_clients primary
    ∧ (findApplicationInfoForClient (Sample.world Sample.Usual) "f1tied"
                                    (Sample.start [])).1
      = Ok (Some (application_info_of "f1tied" primary))
    ∧ organizationName (application_info_of "f1tied" primary) = "second".
Proof.
  exists (Sample.verified_client "100" "second" 2).
  split; [reflexivity|]. split; [|split; reflexivity].
  intros (before & after & Heq & Hbefore & _).
  unfold Sample.tied_clients in Heq.
  destruct before as [|b1 [|b2 before]]; simplify_eq/=.
  - apply Forall_cons in Hbefore as [Hlt _]. vm_compute in Hlt. discriminate.
  - by destruct before.
Qed.

(** C8 on an address resolved, two other addresses resolved, and the
    first address resolved again: three requests in all. *)
Lemma findApplicationInfoForClient_idempotent_witness :
  let w := Sample.world Sample.Usual in
  let first := findApplicationInfoForClient w "f1client" (Sample.start []) in
  let s2 := lookups w ["f1tied"; "f1unknown"] first.2 in
  first.1 = Ok (Some (application_info_of "f1client"
                                          (Sample.verified_client "100" "Acme" 2)))
  ∧ http_calls first.2 = 1%nat
  ∧ http_calls s2 = 3%nat
  ∧ findApplicationInfoForClient w "f1client" s2
    = (Ok (Some (application_info_of "f1client"
                                     (Sample.verified_client "100" "Acme" 2))), s2)
  ∧ http_calls (findApplicationInfoForClient w "f1client" s2).2 = http_calls s2.
Proof.
  intros w first s2.
  split; [reflexivity|]. split; [reflexivity|]. split; [reflexivity|].
  apply (findApplicationInfoForClient_idempotent w "f1client" ["f1tied"; "f1unknown"]
           (Sample.start []) first.2).
  reflexivity.
Defined.

(** a miss is cached as well: the unknown address is looked up once *)
Lemma not_found_is_cached :
  let w := Sample.world Sample.Usual in
  let first := findApplicationInfoForClient w "f1unknown" (Sample.start []) in
  first.1 = Ok None
  ∧ http_calls first.2 = 1%nat
  ∧ findApplicationInfoForClient w "f1unknown" first.2 = (Ok None, first.2).
Proof. repeat split; reflexivity. Qed.

End Resolver_examples.

(** ** Lines of a joined array *)

Lemma split_on_nonempty (sep : ascii) (s : string) : split_on sep s ≠ [].
Proof.
  destruct s as [|c s]; cbn [split_on]; [done|].
  destruct (Ascii.eqb c sep); [done|]. by destruct (split_on sep s).
Qed.

Lemma lines_app_nl (x y : string) : lines (x +:+ nl +:+ y) = lines x ++ lines y.
Proof.
  unfold lines. induction x as [|c x IH].
  - reflexivity.
  - change (String c x +:+ nl +:+ y) with (String c (x +:+ nl +:+ y)).
    cbn [split_on]. rewrite IH.
    destruct (Ascii.eqb c (ascii_of_nat 10)); [reflexivity|].
    pose proof (split_on_nonempty (ascii_of_nat 10) x) as Hne.
    by destruct (split_on (ascii_of_nat 10) x).
Qed.

(** the lines of [a.join('\n')] are the lines of the elements of [a] *)
Lemma lines_join (a : list string) :
  a ≠ [] → lines (join nl a) = flat_map lines a.
Proof.
  induction a as [|x a IH]; [done|]. intros _.
  destruct a as [|y a].
  - cbn. by rewrite app_nil_r.
  - change (join nl (x :: y :: a)) with (x +:+ nl +:+ join nl (y :: a)).
    rewrite lines_app_nl, IH by done. reflexivity.
Qed.

(** ** What is pushed to both arrays *)

Lemma shared_sublist_content (pushes : list line_push) :
  shared_of pushes `sublist_of` content_of pushes.
Proof.
  induction pushes as [|[str|str|str] pushes IH]; cbn.
  - constructor.
  - by apply sublist_cons.
  - done.
  - by apply sublist_skip.
Qed.

Lemma shared_sublist_summary (pushes : list line_push) :
  shared_of pushes `sublist_of` summary_of pushes.
Proof.
  induction pushes as [|[str|str|str] pushes IH]; cbn.
  - constructor.
  - done.
  - by apply sublist_cons.
  - by apply sublist_skip.
Qed.

Lemma sublist_flat_map {A B : Type} (f : A → list B) (l k : list A) :
  l `sublist_of` k → flat_map f l `sublist_of` flat_map f k.
Proof.
  induction 1 as [|x l k _ IH|x l k _ IH]; cbn.
  - constructor.
  - by apply sublist_app.
  - by apply sublist_inserts_l.
Qed.

(** the summary is made of what is pushed to both arrays and of what is
    pushed to it alone *)
Lemma summary_permutation (f : string → list string) (pushes : list line_push) :
  flat_map f (summary_of pushes)
  ≡ₚ flat_map f (shared_of pushes) ++ flat_map f (summary_only_of pushes).
Proof.
  induction pushes as [|[str|str|str] pushes IH]; cbn.
  - constructor.
  - done.
  - rewrite IH. apply Permutation_app_swap_app.
  - by rewrite IH, (assoc_L (++)).
Qed.

(** ** The summary and the full report *)

Section Consistency.

Context `{Runtime}.

Lemma omap_flat_map {A B C : Type} (f : B → option C) (g : A → list B) (l : list A) :
  omap f (flat_map g l) = flat_map (fun x => omap f (g x)) l.
Proof.
  induction l as [|x l IH]; [done|]. cbn. by rewrite omap_app, IH.
Qed.

Lemma flat_map_nil {A B : Type} (f : A → list B) (l : list A) :
  (∀ x, f x = []) → flat_map f l = [].
Proof.
  intros Hf. induction l as [|x l IH]; [done|]. cbn. by rewrite Hf, IH.
Qed.

Lemma summary_only_provider_pushes (c : Criteria)
      (ps : list ProviderDistributionWithLocation) :
  summary_only_of (flat_map (provider_pushes c) ps) = [].
Proof.
  unfold summary_only_of. rewrite omap_flat_map. apply flat_map_nil.
  intros p. unfold provider_pushes.
  by destruct (exceeds_max_percentage c p), (exceeds_max_duplication c p),
       (no_ip_location p).
Qed.

Lemma summary_only_of_app (a b : list line_push) :
  summary_only_of (a ++ b) = summary_only_of a ++ summary_only_of b.
Proof. apply omap_app. Qed.

(** the strings that [check] appends to the summary alone *)
Lemma summary_only_report_pushes (d : ReportData) (contentUrl : string) :
  summary_only_of (report_pushes d ++ link_pushes contentUrl)
  = summary_title
      :: summary_only_of (provider_summary_pushes d)
      ++ summary_only_of (sharing_pushes d)
      ++ summary_only_of (link_pushes contentUrl).
Proof.
  unfold report_pushes.
  rewrite !summary_only_of_app, summary_only_provider_pushes.
  assert (summary_only_of (other_addresses_pushes d) = []) as ->.
  { unfold other_addresses_pushes. case_bool_decide; [|done].
    cbn. unfold summary_only_of. rewrite omap_flat_map. by apply flat_map_nil. }
  assert (summary_only_of (provider_intro_pushes d) = []) as ->.
  { unfold provider_intro_pushes, relaxed_note. by destruct (isEarlyAllocation d). }
  assert (summary_only_of (region_and_health_pushes d) = []) as ->.
  { unfold region_and_health_pushes.
    by destruct (single_region _), (providerDistributionHealthy d). }
  assert (summary_only_of (retrievability_pushes d) = []) as ->.
  { unfold retrievability_pushes.
    by repeat match goal with |- context [if ?b then _ else _] => destruct b end. }
  assert (summary_only_of (replication_intro_pushes d) = []) as ->.
  { unfold replication_intro_pushes, relaxed_note.
    by repeat match goal with |- context [if ?b then _ else _] => destruct b end. }
  assert (summary_only_of (replication_pushes d) = []) as ->.
  { unfold replication_pushes.
    by repeat match goal with |- context [if ?b then _ else _] => destruct b end. }
  change (summary_only_of (header_pushes d)) with [summary_title].
  change (summary_only_of footnote_pushes) with (@nil string).
  cbn [app]. by rewrite !app_nil_r, <- !(assoc_L (++)).
Qed.

Lemma content_of_report_pushes (d : ReportData) (contentUrl : string) :
  content_of (report_pushes d ++ link_pushes contentUrl) = content_of (report_pushes d).
Proof. unfold content_of. rewrite omap_app. cbn. by rewrite app_nil_r. Qed.

(** the two documents of a report, line by line *)
Lemma report_lines (d : ReportData) (contentUrl : string) :
  let pushes := report_pushes d ++ link_pushes contentUrl in
  lines (joinedContent d) = flat_map lines (content_of pushes)
  ∧ lines (joinedSummary d contentUrl) = flat_map lines (summary_of pushes).
Proof.
  cbv zeta. rewrite content_of_report_pushes. unfold joinedContent, joinedSummary.
  split; apply lines_join; unfold report_pushes; cbn; done.
Qed.

End Consistency.

Section Report_consistency.

Context `{Runtime} (w : World).

(** a report that [check] returns is written from the data it gathered:
    the tier selected for the number of allocations, the joined
    retrievability list with its average, the threshold given or its
    default 0.2 *)
Lemma check_report_data (event : Issue * Repository)
      (criterias : option (list Criteria)) (otherAddresses : option ref)
      (threshold range : option number) (s s' : state) (summary content : string) :
  check w event criterias otherAddresses threshold range s
  = (Ok (summary, Some content), s') →
  ∃ d contentUrl,
    summary = joinedSummary d contentUrl
    ∧ content = joinedContent d
    ∧ retrievabilityThreshold d = default (Num.frac 1 5) threshold
    ∧ providersRetrievability w (providerDistributions d) (default (Num.of_Z 7) range)
      = (retrievability d, avgProviderScore d)
    ∧ select_criteria (default default_criterias criterias)
                      (numberOfAllocations (applicationInfo d))
      = Some (criteria d)
    ∧ numberOfAllocations (applicationInfo d) ≠ 0%nat
    ∧ providerDistributions d ≠ [].
Proof.
  unfold check, check_group, insert_generated_report,
    mbind, M_bind, mret, M_ret, await, throw.
  intros Hcheck.
  repeat (case_match; simplify_eq).
  all: repeat match goal with
              | Hb : bool_decide _ = false |- _ => apply bool_decide_eq_false_1 in Hb
              end.
  all: eexists _, _; split; [reflexivity|]; split; [reflexivity|]; cbn.
  all: repeat split; try reflexivity; try eassumption.
  all: by intros ->.
Qed.

Lemma check_report (event : Issue * Repository) (criterias : option (list Criteria))
      (otherAddresses : option ref) (threshold range : option number)
      (s s' : state) (summary content : string) :
  check w event criterias otherAddresses threshold range s
  = (Ok (summary, Some content), s') →
  ∃ d contentUrl,
    summary = joinedSummary d contentUrl ∧ content = joinedContent d.
Proof.
  intros Hcheck.
  destruct (check_report_data _ _ _ _ _ _ _ _ _ Hcheck) as (d & url & ? & ? & _).
  by exists d, url.
Qed.

(** C1 (amended): in every report that [check] returns, the strings it
    appended with [pushBoth] appear, line by line and in the same order, in
    the full document and in the summary.  The other lines of the summary
    are those of the strings appended to the summary alone: its title, the
    aggregated provider warnings, the CID-sharing headline with its top
    rows, and the closing link to the full report; those need not appear in
    the full document. *)
Theorem check_shared_lines (event : Issue * Repository)
        (criterias : option (list Criteria)) (otherAddresses : option ref)
        (threshold range : option number) (s s' : state)
        (summary content : string) :
  check w event criterias otherAddresses threshold range s
  = (Ok (summary, Some content), s') →
  ∃ d contentUrl,
    summary = joinedSummary d contentUrl
    ∧ content = joinedContent d
    ∧ let pushes := report_pushes d ++ link_pushes contentUrl in
      let shared := flat_map lines (shared_of pushes) in
      let summary_only := flat_map lines (summary_only_of pushes) in
      shared `sublist_of` lines content
      ∧ shared `sublist_of` lines summary
      ∧ lines summary ≡ₚ shared ++ summary_only
      ∧ summary_only_of pushes
        = summary_title
            :: summary_only_of (provider_summary_pushes d)
            ++ summary_only_of (sharing_pushes d)
            ++ summary_only_of (link_pushes contentUrl).
Proof.
  intros Hcheck.
  destruct (check_report _ _ _ _ _ _ _ _ _ Hcheck) as (d & contentUrl & -> & ->).
  exists d, contentUrl. split; [done|]. split; [done|]. cbv zeta.
  destruct (report_lines d contentUrl) as [-> ->].
  split; [|split; [|split]].
  - apply sublist_flat_map, shared_sublist_content.
  - apply sublist_flat_map, shared_sublist_summary.
  - apply summary_permutation.
  - apply summary_only_report_pushes.
Qed.

End Report_consistency.

(** ** Tier selection *)

Section Tier.

Context `{Runtime} (w : World).


End Tier.

Section Tier_examples.

#[local] Existing Instance Sample.runtime.


End Tier_examples.

Section Report_consistency_examples.

#[local] Existing Instance Sample.runtime.

(** C1 (amended) on the report of the usual situation. *)
Lemma check_shared_lines_witness :
  Sample.usual_run
  = (Ok (Sample.usual_summary, Some Sample.usual_content), Sample.usual_run.2)
  ∧ ∃ d contentUrl,
      Sample.usual_summary = joinedSummary d contentUrl
      ∧ Sample.usual_content = joinedContent d
      ∧ let pushes := report_pushes d ++ link_pushes contentUrl in
        let shared := flat_map lines (shared_of pushes) in
        let summary_only := flat_map lines (summary_only_of pushes) in
        shared `sublist_of` lines Sample.usual_content
        ∧ shared `sublist_of` lines Sample.usual_summary
        ∧ lines Sample.usual_summary ≡ₚ shared ++ summary_only
        ∧ summary_only_of pushes
          = summary_title
              :: summary_only_of (provider_summary_pushes d)
              ++ summary_only_of (sharing_pushes d)
              ++ summary_only_of (link_pushes contentUrl).
Proof.
  assert (Sample.usual_run
          = (Ok (Sample.usual_summary, Some Sample.usual_content), Sample.usual_run.2))
    as Hrun by (vm_compute; reflexivity).
  split; [exact Hrun|].
  exact (check_shared_lines (Sample.world Sample.Usual) (Sample.event "f1client")
           None (Some 0%nat) None None (Sample.start []) _ _ _ Hrun).
Defined.

(** C1 as stated fails: the title of the summary of the usual report is
    a line of the summary and no line of the full document. *)
Lemma summary_title_not_in_full_report :
  Sample.usual_run.1 = Ok (Sample.usual_summary, Some Sample.usual_content)
  ∧ summary_title ∈ lines Sample.usual_summary
  ∧ summary_title ∉ lines Sample.usual_content.
Proof.
  split; [vm_compute; reflexivity|].
  split; apply (bool_decide_unpack _); vm_compute; reflexivity.
Qed.

End Report_consistency_examples.

(** ** The caller's array of other addresses *)

Section Aliasing.

Context `{Runtime} (w : World).

Lemma keeps_arrays_ret {A : Type} (a : A) : keeps_arrays (mret a).
Proof. by intros s. Qed.

Lemma keeps_arrays_throw {A : Type} (e : string) : keeps_arrays (@throw A e).
Proof. by intros s. Qed.

Lemma keeps_arrays_await {A : Type} (o : outcome A) : keeps_arrays (await o).
Proof. by intros s. Qed.

Lemma keeps_arrays_bind {A B : Type} (m : M A) (k : A → M B) :
  keeps_arrays m → (∀ a, keeps_arrays (k a)) → keeps_arrays (m ≫= k).
Proof.
  intros Hm Hk s. specialize (Hm s). unfold mbind, M_bind.
  destruct (m s) as [[a|e] s1]; cbn in Hm |- *; [|done].
  by rewrite Hk.
Qed.

Lemma keeps_arrays_mapM {A B : Type} (f : A → M B) (l : list A) :
  (∀ x, keeps_arrays (f x)) → keeps_arrays (mapM f l).
Proof.
  intros Hf. induction l as [|x l IH]; cbn [mapM].
  - apply keeps_arrays_ret.
  - apply keeps_arrays_bind; [done|]. intros y.
    apply keeps_arrays_bind; [done|]. intros ys. apply keeps_arrays_ret.
Qed.

Lemma keeps_arrays_findApplicationInfoForClient (client : string) :
  keeps_arrays (findApplicationInfoForClient w client).
Proof.
  intros s. unfold findApplicationInfoForClient.
  destruct (issueApplicationInfoCache s !! client); [done|].
  unfold mbind, M_bind, mret, M_ret, set_cache.
  pose proof (retry_http_get_frame w client 6 s) as (_ & Harrays & _).
  destruct (retry 6 (http_get_verified_clients w client) s) as [[data|e] s1];
    cbn in Harrays |- *; [|done].
  by destruct (find_primary data).
Qed.

Lemma keeps_arrays_insert_generated_report (client_address_id file_path : string) :
  keeps_arrays (insert_generated_report w client_address_id file_path).
Proof.
  intros s. unfold insert_generated_report.
  by destruct (insert_succeeds w client_address_id file_path).
Qed.

Ltac keeps_arrays :=
  repeat first
    [ apply keeps_arrays_ret
    | apply keeps_arrays_throw
    | apply keeps_arrays_await
    | apply keeps_arrays_findApplicationInfoForClient
    | apply keeps_arrays_insert_generated_report
    | apply keeps_arrays_mapM; intros ?
    | apply keeps_arrays_bind; [|intros ?]
    | match goal with
      | |- keeps_arrays (match ?x with _ => _ end) => destruct x
      end ].

Lemma keeps_arrays_provider_distributions (clientIds : list string) :
  keeps_arrays (provider_distributions_with_locations w clientIds).
Proof.
  unfold provider_distributions_with_locations, getStorageProviderDistribution,
    getFirstClientByProviders, with_location.
  keeps_arrays.
Qed.

Lemma keeps_arrays_check_group (event : Issue * Repository) (criterias : list Criteria)
      (applicationInfo : ApplicationInfo) (addressGroup : list string)
      (threshold range : number) :
  keeps_arrays (check_group w event criterias applicationInfo addressGroup
                            threshold range).
Proof.
  unfold check_group.
  destruct (getClientAddressId w addressGroup); [|apply keeps_arrays_ret].
  apply keeps_arrays_bind; [apply keeps_arrays_provider_distributions|].
  intros providerDistributions.
  unfold getReplicationDistribution, getCidSharing, cidSharingRow, other_applications.
  keeps_arrays.
Qed.

(** C9 (amended): when the resolved application has at least one
    allocation and the caller's [otherAddresses] array does not contain the
    resolved client address, [check] appends that address to the caller's
    array itself, whatever [check] returns or throws afterwards; every
    other array is left as it is.  (The guards before line 593 return
    without touching the array.) *)
Theorem check_appends_client_address (event : Issue * Repository)
        (criterias : option (list Criteria)) (otherAddresses : ref)
        (threshold range : option number) (s s1 : state)
        (others : list string) (address : string)
        (applicationInfo : ApplicationInfo) :
  arrays s !! otherAddresses = Some others →
  getClientAddress (fst event) = Some address →
  findApplicationInfoForClient w address s = (Ok (Some applicationInfo), s1) →
  numberOfAllocations applicationInfo ≠ 0%nat →
  clientAddress applicationInfo ∉ others →
  arrays (check w event criterias (Some otherAddresses) threshold range s).2
  = <[otherAddresses := others ++ [clientAddress applicationInfo]]> (arrays s).
Proof.
  intros Hothers Haddress Hfind Hallocations Hfresh.
  pose proof (keeps_arrays_findApplicationInfoForClient address s) as Hframe.
  rewrite Hfind in Hframe. cbn in Hframe.
  unfold check. rewrite Haddress.
  unfold mbind at 1, M_bind at 1, mret at 1, M_ret at 1.
  unfold mbind at 1, M_bind at 1. rewrite Hfind.
  rewrite bool_decide_eq_false_2 by done.
  unfold mbind at 1, M_bind at 1.
  assert (address_group otherAddresses (clientAddress applicationInfo) s1
          = (Ok (others ++ [clientAddress applicationInfo]),
             set_arrays (<[otherAddresses := others ++ [clientAddress applicationInfo]]>
                           (arrays s1)) s1)) as ->.
  { unfold address_group, mbind, M_bind, read, push, includes.
    rewrite Hframe, Hothers. rewrite bool_decide_eq_false_2 by done.
    cbn. rewrite Hframe, Hothers. cbn. by rewrite lookup_insert_eq. }
  rewrite keeps_arrays_check_group. cbn. by rewrite Hframe.
Qed.

End Aliasing.

Section Aliasing_examples.

#[local] Existing Instance Sample.runtime.

(** C9 (amended) on the usual report, asked with an empty array. *)
Lemma check_appends_client_address_witness :
  arrays Sample.usual_run.2 = <[0%nat := [] ++ ["f1client"]]> (arrays (Sample.start [])).
Proof.
  apply (check_appends_client_address (Sample.world Sample.Usual)
           (Sample.event "f1client") None 0%nat None None (Sample.start [])
           (findApplicationInfoForClient (Sample.world Sample.Usual) "f1client"
                                         (Sample.start [])).2
           [] "f1client"
           (application_info_of "f1client" (Sample.verified_client "100" "Acme" 2))).
  - reflexivity.
  - reflexivity.
  - reflexivity.
  - simpl. lia.
  - simpl. apply not_elem_of_nil.
Defined.

(** C9 as stated fails: the address f1fresh resolves to an application
    without any allocation; it is not in the caller's (empty) array, and
    [check] returns its error document without appending it. *)
Lemma check_without_allocation_keeps_array :
  let w := Sample.world Sample.Usual in
  let run := check w (Sample.event "f1fresh") None (Some 0%nat) None None
                   (Sample.start []) in
  (∃ applicationInfo,
      (findApplicationInfoForClient w "f1fresh" (Sample.start [])).1
      = Ok (Some applicationInfo)
      ∧ clientAddress applicationInfo = "f1fresh"
      ∧ numberOfAllocations applicationInfo = 0%nat)
  ∧ arrays (Sample.start []) !! 0%nat = Some []
  ∧ run.1 = Ok (getErrorContent msg_no_allocation, None)
  ∧ arrays run.2 !! 0%nat = Some [].
Proof.
  split; [eexists; repeat split; reflexivity|].
  repeat split; reflexivity.
Qed.

End Aliasing_examples.

(** ** The two report queries *)

Section Report_queries.

Context `{Runtime} (w : World).


End Report_queries.

(** ** Sums and quotients of numbers *)





(** ** The average retrieval success rate *)

Section Retrievability.

Context `{Runtime} (w : World).





Lemma last_char_app (a b : string) :
  b ≠ "" → last_char (a +:+ b) = last_char b.
Proof.
  intros Hb. induction a as [|c a IH]; [done|].
  change (String c a +:+ b) with (String c (a +:+ b)). cbn [last_char].
  rewrite IH. destruct (a +:+ b) eqn:Hab; [|done].
  exfalso. destruct a; cbn in Hab; [by apply Hb | discriminate].
Qed.

Lemma app_nonempty_r (a b : string) : b ≠ "" → a +:+ b ≠ "".
Proof. intros Hb. destruct a; [done|]. by cbn. Qed.

Ltac last_char :=
  rewrite !last_char_app by (repeat apply app_nonempty_r; done); cbn.



Lemma retrievability_pushes_in_report (d : ReportData) (p : line_push) :
  p ∈ retrievability_pushes d → p ∈ report_pushes d.
Proof. unfold report_pushes. rewrite !elem_of_app. tauto. Qed.


End Retrievability.

(** ** The provider distribution *)



Section Provider_distribution.

Context `{Runtime} (w : World).





End Provider_distribution.

(** ** Locations of the providers *)

Section Locations.

Context `{Runtime} (w : World).

(** one multiaddr that cannot be resolved ends the first loop *)
Lemma collect_ips_unresolved (multiaddrs ips : list string) (multiAddr e : string) :
  multiAddr ∈ multiaddrs →
  getIpFromMultiaddr w multiAddr = Throw e →
  collect_ips w multiaddrs ips = None.
Proof.
  intros Hin Hfail. revert ips.
  induction multiaddrs as [|m multiaddrs IH]; intros ips; [by apply elem_of_nil in Hin|].
  cbn [collect_ips]. apply elem_of_cons in Hin as [<- | Hin].
  - by rewrite Hfail.
  - destruct (getIpFromMultiaddr w m); [by apply IH | done].
Qed.

Lemma getLocation_unresolved (provider : string) (minerInfo : MinerInfo)
      (multiaddrs : list string) (multiAddr e : string) :
  StateMinerInfo w provider = Ok minerInfo →
  Multiaddrs minerInfo = Some multiaddrs →
  multiAddr ∈ multiaddrs →
  getIpFromMultiaddr w multiAddr = Throw e →
  getLocation w provider = Ok None.
Proof.
  intros Hinfo Haddrs Hin Hfail. unfold getLocation. rewrite Hinfo, Haddrs.
  destruct multiaddrs as [|m multiaddrs]; [done|].
  by rewrite (collect_ips_unresolved _ _ _ _ Hin Hfail).
Qed.

Lemma locate_answers (ips : list string) :
  (∀ ip, ip ∈ ips → ∃ data, ipinfo w ip = Ok data) →
  ∃ location, locate w ips = Ok location.
Proof.
  induction ips as [|ip ips IH]; intros Hgeo; cbn [locate]; [by eexists|].
  destruct (Hgeo ip) as [data ->]; [by left|].
  case_bool_decide; [|by eexists].
  apply IH. intros ip' Hin. apply Hgeo. by right.
Qed.

(** the method returns whenever the miner info and the geo lookups answer *)
Lemma getLocation_answers (provider : string) (minerInfo : MinerInfo) :
  StateMinerInfo w provider = Ok minerInfo →
  (∀ ip, ∃ data, ipinfo w ip = Ok data) →
  ∃ location, getLocation w provider = Ok location.
Proof.
  intros Hinfo Hgeo. unfold getLocation. rewrite Hinfo.
  destruct (Multiaddrs minerInfo) as [[|m multiaddrs]|]; [by eexists| |by eexists].
  destruct (collect_ips w (m :: multiaddrs) []) as [ips|]; [|by eexists].
  apply locate_answers. eauto.
Qed.

Lemma with_location_run (clientIds : list string)
      (firstClients : list (string * string)) (x : ProviderDistribution) (s : state) :
  with_location w clientIds firstClients x s
  = (match getLocation w (provider x) with
     | Ok l => Ok {| item := x; location := l;
                     new := is_new clientIds firstClients (provider x) |}
     | Throw e => Throw e
     end, s).
Proof.
  unfold with_location, mbind, M_bind, mret, M_ret, await.
  by destruct (getLocation w (provider x)).
Qed.

Lemma mapM_with_location (clientIds : list string)
      (firstClients : list (string * string)) (items : list ProviderDistribution)
      (s : state) :
  (∀ x, x ∈ items → ∃ location, getLocation w (provider x) = Ok location) →
  ∃ withLocations,
    mapM (with_location w clientIds firstClients) items s = (Ok withLocations, s)
    ∧ map item withLocations = items
    ∧ Forall (fun d => getLocation w (provider (item d)) = Ok (location d))
             withLocations.
Proof.
  induction items as [|x items IH]; intros Hloc; cbn [mapM].
  - exists []. by repeat split.
  - destruct (Hloc x) as [l Hl]; [by left|].
    destruct IH as (ys & Hys & Hitems & Hall); [intros; apply Hloc; by right|].
    eexists (_ :: ys).
    unfold mbind, M_bind, mret, M_ret.
    rewrite with_location_run, Hl, Hys. split; [reflexivity|].
    split; [by cbn; rewrite Hitems|]. by constructor.
Qed.

(** a thrown lookup of one provider ends the loop over the providers *)
Lemma mapM_with_location_throws (clientIds : list string)
      (firstClients : list (string * string)) (items : list ProviderDistribution)
      (s : state) (x : ProviderDistribution) (e : string) :
  x ∈ items →
  getLocation w (provider x) = Throw e →
  ∃ e', mapM (with_location w clientIds firstClients) items s = (Throw e', s).
Proof.
  intros Hin Hthrow. induction items as [|y items IH]; [by apply elem_of_nil in Hin|].
  cbn [mapM]. unfold mbind, M_bind, mret, M_ret. rewrite with_location_run.
  destruct (getLocation w (provider y)) as [l|e'] eqn:Hy; [|by eexists].
  apply elem_of_cons in Hin as [-> | Hin]; [congruence|].
  destruct (IH Hin) as [e' ->]. by eexists.
Qed.



Lemma provider_percentages_providers (rows : list ProviderDistributionSql) :
  map provider (provider_percentages rows) = map sql_provider rows.
Proof. unfold provider_percentages. by rewrite map_map. Qed.

Lemma unknown_location (d : ProviderDistributionWithLocation)
      (r : list Retrievability) :
  location d = None →
  location_text d = "Unknown"
  ∧ row_location (providerDistributionRow r d)
    = "Unknown<br/>" +:+ wrapInCode "Unknown".
Proof.
  intros Hnone.
  assert (location_text d = "Unknown") as Htext.
  { unfold location_text, wl_city, wl_region, wl_country. by rewrite Hnone. }
  split; [done|].
  unfold providerDistributionRow. cbn [row_location].
  rewrite Htext. unfold wl_orgName. by rewrite Hnone.
Qed.

(** C7 (amended): a provider one of whose multiaddrs cannot be resolved
    gets no location and is rendered as Unknown, and the aggregation still
    returns every provider, as long as the miner-info and the geo lookups
    answer; a provider whose location lookup throws, because its
    miner-info request or its geo request fails (after the retries), makes
    the whole aggregation fail. *)
Theorem unresolved_location_is_localized (clientIds : list string)
        (rows : list ProviderDistributionSql) (firstClients : list (string * string))
        (s : state) :
  query_provider_distribution w clientIds = Ok rows →
  query_providers w (map sql_provider rows) = Ok firstClients →
  ((∀ r, r ∈ rows → ∃ minerInfo, StateMinerInfo w (sql_provider r) = Ok minerInfo) →
   (∀ ip, ∃ data, ipinfo w ip = Ok data) →
   ∃ providerDistributions,
     provider_distributions_with_locations w clientIds s = (Ok providerDistributions, s)
     ∧ map item providerDistributions ≡ₚ provider_percentages rows
     ∧ ∀ d, d ∈ providerDistributions →
            unresolved w (provider (item d)) →
            location d = None
            ∧ location_text d = "Unknown"
            ∧ ∀ r, row_location (providerDistributionRow r d)
                   = "Unknown<br/>" +:+ wrapInCode "Unknown")
  ∧ (∀ r e, r ∈ rows → getLocation w (sql_provider r) = Throw e →
            ∃ e', provider_distributions_with_locations w clientIds s = (Throw e', s))
  ∧ (∀ provider e, StateMinerInfo w provider = Throw e →
                   getLocation w provider = Throw e)
  ∧ (∀ provider minerInfo multiAddr address e,
        StateMinerInfo w provider = Ok minerInfo →
        Multiaddrs minerInfo = Some [multiAddr] →
        getIpFromMultiaddr w multiAddr = Ok [address] →
        ipinfo w address = Throw e →
        getLocation w provider = Throw e).
Proof.
  intros Hrows Hfirst.
  unfold provider_distributions_with_locations, getStorageProviderDistribution,
    getFirstClientByProviders, mbind, M_bind, mret, M_ret, await.
  rewrite Hrows, provider_percentages_providers, Hfirst.
  split.
  - intros Hminer Hgeo.
    case_bool_decide as Hlen.
    { exists []. rewrite length_map in Hlen. destruct rows; [|done].
      split; [done|]. split; [done|]. intros d Hd. by apply elem_of_nil in Hd. }
    destruct (mapM_with_location clientIds firstClients (provider_percentages rows) s)
      as (withLocations & -> & Hitems & Hlocations).
    { intros x Hx. unfold provider_percentages in Hx.
      apply list_elem_of_fmap in Hx as (r & -> & Hr).
      destruct (Hminer r Hr) as [minerInfo HminerInfo].
      by eapply getLocation_answers. }
    eexists. split; [reflexivity|]. split.
    { rewrite <- Hitems. by rewrite array_sort_perm. }
    intros d Hd (minerInfo & multiaddrs & multiAddr & e & Hinfo & Haddrs & Hin & Hfail).
    rewrite array_sort_perm in Hd.
    rewrite Forall_forall in Hlocations. specialize (Hlocations d Hd).
    rewrite (getLocation_unresolved _ _ _ _ _ Hinfo Haddrs Hin Hfail) in Hlocations.
    injection Hlocations as Hnone. symmetry in Hnone.
    split; [done|]. split; [by apply (unknown_location d [])|].
    intros r. by apply unknown_location.
  - split; [|split].
    + intros r e Hr Hthrow.
      rewrite bool_decide_eq_false_2.
      2: { rewrite length_map. by destruct rows; [apply elem_of_nil in Hr|]. }
      destruct (mapM_with_location_throws clientIds firstClients
                  (provider_percentages rows) s
                  (with_percentage (provider_total rows) r) e) as [e' ->].
      * unfold provider_percentages. apply list_elem_of_fmap. eauto.
      * done.
      * by eexists.
    + intros provider e Hthrow. unfold getLocation. by rewrite Hthrow.
    + intros provider minerInfo multiAddr address e Hinfo Haddrs Hip Hgeo.
      unfold getLocation. rewrite Hinfo, Haddrs. cbn [collect_ips].
      rewrite Hip. cbn [collect_ips app locate]. by rewrite Hgeo.
Qed.

End Locations.

(** ** The single-region rule *)

Section Regions.

Context `{Runtime}.

(** what the test of line 788 decides: all location cells are the same *)
Lemma single_region_iff (rows : list ProviderDistributionRow) :
  single_region rows = true
  ↔ ∀ a b, a ∈ rows → b ∈ rows → row_location a = row_location b.
Proof.
  unfold single_region. rewrite bool_decide_eq_true.
  set (cells := list_to_set (map row_location rows) : gset string).
  assert (∀ a, a ∈ rows → row_location a ∈ cells) as Hcell.
  { intros a Ha. apply elem_of_list_to_set, list_elem_of_fmap. eauto. }
  split.
  - intros Hsize a b Ha Hb.
    assert (size cells = 1%nat) as Hone.
    { assert (size cells ≠ 0%nat); [|lia].
      intros Hempty. apply (size_empty_inv (C := gset string)) in Hempty.
      specialize (Hcell a Ha). rewrite Hempty in Hcell.
      by apply not_elem_of_empty in Hcell. }
    eapply (size_singleton_inv (C := gset string)); eauto.
  - intros Hsame. destruct rows as [|a rows].
    { subst cells. cbn. rewrite size_empty. lia. }
    assert (cells ⊆ {[ row_location a ]}) as Hsub.
    { intros x Hx. apply elem_of_list_to_set, list_elem_of_fmap in Hx as (b & -> & Hb).
      apply elem_of_singleton. apply Hsame; [done|]. by left. }
    apply (subseteq_size (C := gset string)) in Hsub.
    by rewrite size_singleton in Hsub.
Qed.

(** the cell of a provider holds its location text and the name of its
    network operator *)
Lemma row_location_cell (r : list Retrievability) (d : ProviderDistributionWithLocation) :
  row_location (providerDistributionRow r d)
  = location_text d +:+ "<br/>" +:+ wrapInCode (default "Unknown" (wl_orgName d)).
Proof. reflexivity. Qed.

(** a single provider is always in one region *)
Lemma single_region_one_provider (r : list Retrievability)
      (d : ProviderDistributionWithLocation) :
  single_region (map (providerDistributionRow r) [d]) = true.
Proof.
  apply single_region_iff. intros a b Ha Hb. cbn in Ha, Hb.
  apply list_elem_of_singleton in Ha, Hb. by subst.
Qed.

(** providers at the same place behind the same operator are in one region *)
Lemma single_region_same_cells (r : list Retrievability)
      (ds : list ProviderDistributionWithLocation) :
  (∀ a b, a ∈ ds → b ∈ ds →
          (wl_city a, wl_region a, wl_country a, wl_orgName a)
          = (wl_city b, wl_region b, wl_country b, wl_orgName b)) →
  single_region (map (providerDistributionRow r) ds) = true.
Proof.
  intros Hsame. apply single_region_iff. intros a b Ha Hb.
  apply list_elem_of_fmap in Ha as (da & -> & Ha).
  apply list_elem_of_fmap in Hb as (db & -> & Hb).
  rewrite !row_location_cell. unfold location_text.
  by injection (Hsame da db Ha Hb) as -> -> -> ->.
Qed.

End Regions.

Section Locations_examples.

#[local] Existing Instance Sample.runtime.

(** C7 (amended) when the multiaddr of provider f02 cannot be resolved. *)
Lemma unresolved_location_is_localized_witness :
  let w := Sample.world Sample.DnsDown in
  unresolved w "f02"
  ∧ ∃ providerDistributions,
      provider_distributions_with_locations w ["f0f1client"] (Sample.start [])
      = (Ok providerDistributions, Sample.start [])
      ∧ map item providerDistributions
        ≡ₚ provider_percentages [ Sample.provider_row "f01" "100" Num.zero;
                                  Sample.provider_row "f02" "300" Num.zero ]
      ∧ ∀ d, d ∈ providerDistributions →
             unresolved w (provider (item d)) →
             location d = None
             ∧ location_text d = "Unknown"
             ∧ ∀ r, row_location (providerDistributionRow r d)
                    = "Unknown<br/>" +:+ wrapInCode "Unknown".
Proof.
  intros w. split.
  - exists {| Multiaddrs := Some ["f02"] |}, ["f02"], "f02", "ENOTFOUND".
    repeat split; try reflexivity. apply list_elem_of_here.
  - apply (proj1 (unresolved_location_is_localized w ["f0f1client"]
                    [ Sample.provider_row "f01" "100" Num.zero;
                      Sample.provider_row "f02" "300" Num.zero ]
                    [("f01", "f0f1client")] (Sample.start []) eq_refl eq_refl)).
    + intros r _. cbn. case_bool_decide as Hdown; [by destruct Hdown|by eexists].
    + intros ip. cbn. case_bool_decide as Hdown; [by destruct Hdown|].
      repeat case_bool_decide; by eexists.
Defined.

(** in that situation the report is written and shows the provider as
    Unknown *)
Lemma unresolved_location_in_the_report :
  let w := Sample.world Sample.DnsDown in
  ∃ summary content,
    (check w (Sample.event "f1client") None (Some 0%nat) None None (Sample.start [])).1
    = Ok (summary, Some content)
    ∧ "| [f02](https://filfox.info/en/address/f02) | Unknown<br/>`Unknown` | 300 B | 75.00% | 300 B | 0.00% | 90.00% |"
      ∈ lines content.
Proof.
  eexists _, _. split; [vm_compute; reflexivity|].
  apply (bool_decide_unpack _). vm_compute. reflexivity.
Qed.

(** C7 as stated fails: when the miner-info lookup of provider f02 fails,
    the aggregation and [check] throw; so they do when the geo lookup of
    its address fails. *)
Lemma failed_lookup_aborts_check :
  StateMinerInfo (Sample.world Sample.MinerInfoDown) "f02" = Throw "ETIMEDOUT"
  ∧ (provider_distributions_with_locations (Sample.world Sample.MinerInfoDown)
                                           ["f0f1client"] (Sample.start [])).1
    = Throw "ETIMEDOUT"
  ∧ (check (Sample.world Sample.MinerInfoDown) (Sample.event "f1client")
           None (Some 0%nat) None None (Sample.start [])).1
    = Throw "ETIMEDOUT"
  ∧ ipinfo (Sample.world Sample.GeoDown) "f02" = Throw "ETIMEDOUT"
  ∧ (check (Sample.world Sample.GeoDown) (Sample.event "f1client")
           None (Some 0%nat) None None (Sample.start [])).1
    = Throw "ETIMEDOUT".
Proof. repeat split; vm_compute; reflexivity. Qed.

(** C6 fails on the code: two providers that resolve to the same city,
    region and country, behind two network operators.  Their location
    cells differ by the operator's name, so the set of cells has two
    elements and no single-region warning is written. *)
Lemma same_region_without_warning :
  let w := Sample.world Sample.SameRegion in
  ∃ providerDistributions summary content,
    (provider_distributions_with_locations w ["f0f1client"] (Sample.start [])).1
    = Ok providerDistributions
    ∧ map (fun d => (wl_city d, wl_region d, wl_country d)) providerDistributions
      = [ (Some "Ashburn", Some "Virginia", Some "US");
          (Some "Ashburn", Some "Virginia", Some "US") ]
    ∧ map (fun d => row_location (providerDistributionRow [] d)) providerDistributions
      = [ "Ashburn, Virginia, US<br/>`Amazon`"; "Ashburn, Virginia, US<br/>`Google`" ]
    ∧ single_region (map (providerDistributionRow []) providerDistributions) = false
    ∧ (check w (Sample.event "f1client") None (Some 0%nat) None None
             (Sample.start [])).1
      = Ok (summary, Some content)
    ∧ (SINGLE_REGION ∉ lines summary)
    ∧ (SINGLE_REGION ∉ lines content).
Proof.
  eexists _, _, _.
  split; [vm_compute; reflexivity|].
  split; [reflexivity|]. split; [reflexivity|]. split; [vm_compute; reflexivity|].
  split; [vm_compute; reflexivity|].
  split; apply (bool_decide_unpack _); vm_compute; reflexivity.
Qed.

End Locations_examples.

(** ** No active deals *)

Section No_deals.

Context `{Runtime} (w : World).




End No_deals.

Section No_deals_examples.

#[local] Existing Instance Sample.runtime.


(** the percentages of the usual rows are 1/4 and 3/4 *)
Lemma usual_percentages :
  map percentage
      (provider_percentages [ Sample.provider_row "f01" "100" Num.zero;
                              Sample.provider_row "f02" "300" Num.zero ])
  = [Num.frac 1 4; Num.frac 3 4].
Proof. apply (bool_decide_unpack _). by vm_compute. Qed.


End No_deals_examples.

(** * Further properties of the class *)

(** ** Splitting and joining *)

Lemma split_on_app_sep (sep : ascii) (x y : string) :
  split_on sep (x +:+ String sep y) = split_on sep x ++ split_on sep y.
Proof.
  induction x as [|c x IH].
  - change ("" +:+ String sep y) with (String sep y).
    cbn [split_on app]. by rewrite Ascii.eqb_refl.
  - change (String c x +:+ String sep y) with (String c (x +:+ String sep y)).
    cbn [split_on]. rewrite IH.
    destruct (Ascii.eqb c sep); [reflexivity|].
    pose proof (split_on_nonempty sep x) as Hne.
    by destruct (split_on sep x).
Qed.

Lemma split_on_absent (sep : ascii) (s : string) :
  occurs sep s = false → split_on sep s = [s].
Proof.
  induction s as [|c s IH]; [done|]. cbn [occurs split_on]. intros Hocc.
  apply orb_false_iff in Hocc as [-> Hs]. by rewrite IH.
Qed.

(** joining what was split gives the string back *)
Lemma join_split_on (sep : ascii) (s : string) :
  join (String sep EmptyString) (split_on sep s) = s.
Proof.
  induction s as [|c s IH]; [done|]. cbn [split_on].
  destruct (Ascii.eqb_spec c sep) as [-> | Hne].
  - pose proof (split_on_nonempty sep s) as Hnil.
    destruct (split_on sep s) as [|x xs] eqn:Hsplit; [done|].
    change (join (String sep "") ("" :: x :: xs))
      with (String sep (join (String sep "") (x :: xs))).
    by rewrite IH.
  - pose proof (split_on_nonempty sep s) as Hnil.
    destruct (split_on sep s) as [|x xs] eqn:Hsplit; [done|].
    destruct xs as [|y ys]; cbn in IH |- *; by rewrite <- IH.
Qed.

Lemma split_pop_absent (s : string) :
  occurs "/" s = false → split_pop s = Some s.
Proof. intros Hs. unfold split_pop. by rewrite split_on_absent. Qed.

Lemma split_pop_last (x y : string) :
  occurs "/" y = false → split_pop (x +:+ "/" +:+ y) = Some y.
Proof.
  intros Hy. unfold split_pop.
  change (x +:+ "/" +:+ y) with (x +:+ String "/" y).
  rewrite split_on_app_sep, (split_on_absent _ y Hy), length_app.
  cbn [length]. replace (length (split_on "/" x) + 1 - 1)%nat
    with (length (split_on "/" x) + 0)%nat by lia.
  by rewrite lookup_app_r, Nat.add_0_r, Nat.sub_diag by lia.
Qed.

(** ** The current epoch *)

Lemma getCurrentEpoch_div (now : Z) :
  getCurrentEpoch now = ((now - 1598306400000) / 30000)%Z.
Proof.
  unfold getCurrentEpoch. rewrite Zdiv_Qdiv. apply Qfloor_comp.
  unfold Z.sub. rewrite inject_Z_plus, inject_Z_opp.
  change (inject_Z 1598306400000) with (1598306400000 # 1)%Q.
  change (inject_Z 30000) with (30000 # 1)%Q.
  generalize (inject_Z now). intros a. field.
Qed.

(** X28: the current epoch is the number of whole periods of 30 seconds
    since 1598306400 seconds after the start of 1970: it is [e] exactly
    from 30 e seconds after that moment until 30 seconds later, and it is
    negative before that moment. *)
Theorem getCurrentEpoch_window (now e : Z) :
  getCurrentEpoch now = e
  ↔ (1598306400000 + 30000 * e ≤ now < 1598306400000 + 30000 * (e + 1))%Z.
Proof.
  rewrite getCurrentEpoch_div.
  pose proof (Z.div_mod (now - 1598306400000) 30000) as Hdiv.
  pose proof (Z.mod_pos_bound (now - 1598306400000) 30000) as Hmod.
  split.
  - intros <-. lia.
  - intros [Hlo Hhi]. symmetry.
    apply (Z.div_unique _ _ e (now - 1598306400000 - 30000 * e)); lia.
Qed.

(** ** The location of a provider *)

Section Locations.

Context `{Runtime} (w : World).

Lemma locate_skips_bogons (bogons rest : list string) :
  Forall (is_bogon w) bogons → locate w (bogons ++ rest) = locate w rest.
Proof.
  induction 1 as [|ip bogons (data & Hdata & Hbogon) _ IH]; [done|].
  cbn [app locate]. rewrite Hdata. by rewrite bool_decide_true.
Qed.

Lemma collect_ips_concat (multiaddrs : list string) (ipss : list (list string))
      (ips : list string) :
  Forall2 (fun m ip => getIpFromMultiaddr w m = Ok ip) multiaddrs ipss →
  collect_ips w multiaddrs ips = Some (ips ++ concat ipss).
Proof.
  intros Hall. revert ips.
  induction Hall as [|m ip multiaddrs ipss Hm _ IH]; intros ips; cbn [collect_ips concat].
  - by rewrite app_nil_r.
  - by rewrite Hm, IH, app_assoc.
Qed.

(** X1: [getLocation] returns [null] from its second loop exactly when
    every address it asked ipinfo.io about is a bogon: an address that is
    not a bogon always gives a location, and a failed request is thrown. *)
Theorem locate_null_iff (ips : list string) :
  locate w ips = Ok None ↔ Forall (is_bogon w) ips.
Proof.
  induction ips as [|ip ips IH]; cbn [locate]; [done|].
  destruct (ipinfo w ip) as [data|e] eqn:Hip.
  - case_bool_decide as Hbogon.
    + rewrite IH. split; [|by inversion 1].
      intros Hrest. constructor; [by exists data | done].
    + split; [done|]. inversion 1 as [|? ? (data' & Hdata' & Hb)]. congruence.
  - split; [done|]. inversion 1 as [|? ? (data' & Hdata' & Hb)]. congruence.
Qed.

(** X2: the IP addresses of a provider are tried in the order of its
    multiaddrs, and the first one that is not a bogon decides the
    location; what ipinfo.io would say about the later ones is never
    asked for, so a later address whose lookup would fail does no harm. *)
Theorem getLocation_first_public (provider : string) (minerInfo : MinerInfo)
        (multiaddrs : list string) (ipss : list (list string))
        (bogons rest : list string) (ip : string) (data : IpInfoResponse) :
  StateMinerInfo w provider = Ok minerInfo →
  Multiaddrs minerInfo = Some multiaddrs →
  Forall2 (fun m ips => getIpFromMultiaddr w m = Ok ips) multiaddrs ipss →
  concat ipss = bogons ++ ip :: rest →
  Forall (is_bogon w) bogons →
  ipinfo w ip = Ok data →
  bogon data ≠ Some true →
  getLocation w provider = Ok (Some (location_of data)).
Proof.
  intros Hinfo Haddrs Hips Hconcat Hbogons Hip Hpublic.
  unfold getLocation. rewrite Hinfo, Haddrs.
  destruct multiaddrs as [|m multiaddrs].
  { inversion Hips; subst. by destruct bogons. }
  rewrite (collect_ips_concat _ _ _ Hips). cbn [app]. rewrite Hconcat.
  rewrite locate_skips_bogons by done. cbn [locate]. rewrite Hip.
  by rewrite bool_decide_false.
Qed.


(** X4: the organisation of a location is the [org] of ipinfo.io without
    its first word, the AS number: what follows the first space is kept as
    it is, and an [org] of one word gives the empty string. *)
Theorem location_of_orgName (data : IpInfoResponse) (asn : string) :
  occurs " " asn = false →
  (∀ name, org data = Some (asn +:+ " " +:+ name) →
           orgName (location_of data) = name)
  ∧ (org data = Some asn → orgName (location_of data) = "").
Proof.
  intros Hasn. unfold location_of. cbn [orgName]. split.
  - intros name ->.
    change (asn +:+ " " +:+ name) with (asn +:+ String " " name).
    rewrite split_on_app_sep, (split_on_absent _ asn Hasn). cbn [app drop].
    apply join_split_on.
  - intros ->. by rewrite (split_on_absent _ asn Hasn).
Qed.

End Locations.

Section Locations_examples.

#[local] Existing Instance Sample.runtime.

Lemma locate_null_example :
  locate Cases.addresses_world ["10.0.0.1"; "10.0.0.1"] = Ok None.
Proof. reflexivity. Qed.

Lemma getLocation_first_public_witness :
  getLocation Cases.addresses_world "f01"
  = Ok (Some (location_of (Sample.ip_response "Mountain View" "California" "US"
                                              "AS15169 Google LLC"))).
Proof.
  apply (getLocation_first_public Cases.addresses_world "f01"
           {| Multiaddrs := Some ["10.0.0.1"; "8.8.8.8"; "203.0.113.9"] |}
           ["10.0.0.1"; "8.8.8.8"; "203.0.113.9"]
           [["10.0.0.1"]; ["8.8.8.8"]; ["203.0.113.9"]]
           ["10.0.0.1"] ["203.0.113.9"] "8.8.8.8").
  - reflexivity.
  - reflexivity.
  - repeat constructor.
  - reflexivity.
  - constructor; [|constructor]. eexists. split; reflexivity.
  - reflexivity.
  - simpl. discriminate.
Defined.


Lemma location_of_orgName_witness :
  (∀ name,
     org (Sample.ip_response "Mountain View" "California" "US" "AS15169 Google LLC")
     = Some ("AS15169" +:+ " " +:+ name) →
     orgName (location_of (Sample.ip_response "Mountain View" "California" "US"
                                              "AS15169 Google LLC")) = name)
  ∧ (org (Sample.ip_response "Mountain View" "California" "US" "AS15169 Google LLC")
     = Some "AS15169" →
     orgName (location_of (Sample.ip_response "Mountain View" "California" "US"
                                              "AS15169 Google LLC")) = "").
Proof.
  apply (location_of_orgName
           (Sample.ip_response "Mountain View" "California" "US" "AS15169 Google LLC")
           "AS15169").
  reflexivity.
Defined.

End Locations_examples.

(** ** The application info of a client *)

Section Applications.

Context `{Runtime} (w : World).

(** X5: the issue number of an application is the part of the audit trail
    of the first allowance after its last slash, the url is the audit trail
    itself and the number of allocations the length of the allowance array,
    so it is never 0 for a client that has an audit trail. *)
Theorem application_info_issueNumber (client : string) (primary : VerifiedClient)
        (first : Allowance) (rest : list Allowance) (prefix number : string) :
  allowanceArray primary = first :: rest →
  auditTrail first = Some (prefix +:+ "/" +:+ number) →
  occurs "/" number = false →
  issueNumber (application_info_of client primary) = Some number
  ∧ url (application_info_of client primary) = Some (prefix +:+ "/" +:+ number)
  ∧ numberOfAllocations (application_info_of client primary) = S (length rest).
Proof.
  intros Harray Htrail Hnumber.
  unfold application_info_of, first_auditTrail. rewrite Harray. cbn.
  rewrite Htrail. cbn. by rewrite split_pop_last.
Qed.

Lemma set_cache_ok (client : string) (v : option ApplicationInfo) (s : state) :
  cache_ok s →
  (∀ info, v = Some info → clientAddress info = client) →
  cache_ok (set_cache client v s).2.
Proof.
  intros Hok Hv k info. cbn.
  destruct (decide (client = k)) as [<- | Hne].
  - rewrite lookup_insert_eq. intros [= ->]. by apply Hv.
  - rewrite lookup_insert_ne by done. apply Hok.
Qed.

Lemma findApplicationInfoForClient_cache_ok (client : string) (s : state) :
  cache_ok s →
  cache_ok (findApplicationInfoForClient w client s).2
  ∧ ∀ info, (findApplicationInfoForClient w client s).1 = Ok (Some info) →
            clientAddress info = client.
Proof.
  intros Hok. unfold findApplicationInfoForClient.
  destruct (issueApplicationInfoCache s !! client) as [cached|] eqn:Hc.
  - split; [done|]. cbn. intros info [= ->]. by apply Hok.
  - unfold mbind, M_bind, mret, M_ret.
    pose proof (retry_http_get_frame w client 6 s) as (Hcache & _).
    destruct (retry 6 (http_get_verified_clients w client) s) as [[data|e] s1];
      cbn in Hcache.
    + assert (cache_ok s1) as Hok1.
      { intros k info. rewrite Hcache. apply Hok. }
      destruct (find_primary data) as [primary|]; cbn [fst snd].
      * split; [|by intros info [= <-]].
        apply (set_cache_ok client _ s1 Hok1). by intros info [= <-].
      * split; [|done]. by apply (set_cache_ok client None s1 Hok1).
    + split; [|done]. intros k info. cbn. rewrite Hcache. apply Hok.
Qed.

(** X6: in a process that starts with an empty cache, however many
    addresses were resolved, every application info of the cache is stored
    under the address it was built for, and a resolution returns an
    application info of the address that was asked for. *)
Theorem cache_entries_keep_their_address (before : list string) (client : string)
        (s : state) :
  issueApplicationInfoCache s = ∅ →
  let s1 := lookups w before s in
  cache_ok s1
  ∧ ∀ info, (findApplicationInfoForClient w client s1).1 = Ok (Some info) →
            clientAddress info = client.
Proof.
  intros Hempty s1.
  assert (cache_ok s) as Hok.
  { intros k info. by rewrite Hempty, lookup_empty. }
  assert (cache_ok s1) as Hok1.
  { subst s1. clear Hempty. revert s Hok.
    induction before as [|other before IH]; intros s Hok; [done|].
    cbn [lookups]. by apply IH, findApplicationInfoForClient_cache_ok. }
  split; [done|]. by apply findApplicationInfoForClient_cache_ok.
Qed.

(** X7: [getClientAddressId] returns the ids in the order of the
    addresses, one for each, when every lookup answers, and [null], with
    none of the ids already found, as soon as one lookup fails. *)
Theorem getClientAddressId_all_or_nothing (clientAddress : list string) :
  (∀ clientIds,
     getClientAddressId w clientAddress = Some clientIds
     ↔ Forall2 (fun address id => StateLookupID w address = Some id)
               clientAddress clientIds)
  ∧ (getClientAddressId w clientAddress = None
     ↔ ∃ address, address ∈ clientAddress ∧ StateLookupID w address = None).
Proof.
  induction clientAddress as [|address rest [IHsome IHnone]]; cbn [getClientAddressId].
  - split.
    + intros ids. split; [by intros [= <-]; constructor | by inversion 1].
    + split; [done|]. intros (a & Hin & _). by apply elem_of_nil in Hin.
  - destruct (StateLookupID w address) as [id|] eqn:Hid.
    + destruct (getClientAddressId w rest) as [ids|] eqn:Hrest.
      * split.
        -- intros ids'. split.
           ++ intros [= <-]. constructor; [done|]. by apply IHsome.
           ++ inversion 1 as [|? id' ? ids'' Hid' Hrest']; subst.
              apply IHsome in Hrest'. congruence.
        -- split; [done|]. intros (a & Hin & Ha).
           apply elem_of_cons in Hin as [-> | Hin]; [congruence|].
           assert (Some ids = None) as Habs by (apply IHnone; eauto). done.
      * split.
        -- intros ids'. split; [done|].
           inversion 1 as [|? id' ? ids'' Hid' Hrest']; subst.
           apply IHsome in Hrest'. done.
        -- split; [|done]. intros _.
           destruct IHnone as [(a & Hin & Ha) _]; [done|].
           exists a. split; [by right | done].
    + split.
      * intros ids'. split; [done|].
        inversion 1 as [|? id' ? ids'' Hid' Hrest']; subst. congruence.
      * split; [|done]. intros _. exists address. split; [by left | done].
Qed.

End Applications.

(** ** The join with the retrieval statistics *)

Section Retrievability_join.

Context `{Runtime}.

Lemma array_find_first {A : Type} (p : A → bool) (a : list A) (x : A) :
  array_find p a = Some x ↔
  ∃ before after, a = before ++ x :: after ∧ p x = true
                  ∧ Forall (fun y => p y = false) before.
Proof.
  unfold array_find. induction a as [|y a IH]; cbn [find].
  - split; [done|]. intros (before & after & Heq & _). by destruct before.
  - destruct (p y) eqn:Hy.
    + split.
      * intros [= ->]. exists [], a. by repeat split.
      * intros ([|z before] & after & Heq & Hx & Hbefore); simplify_eq/=; [done|].
        inversion Hbefore; congruence.
    + rewrite IH. split.
      * intros (before & after & -> & Hx & Hbefore).
        exists (y :: before), after. repeat split; [done|]. by constructor.
      * intros ([|z before] & after & Heq & Hx & Hbefore); simplify_eq/=; [congruence|].
        exists before, after. repeat split; [done|]. by inversion Hbefore.
Qed.

Lemma array_find_none {A : Type} (p : A → bool) (a : list A) :
  array_find p a = None ↔ Forall (fun y => p y = false) a.
Proof.
  unfold array_find. induction a as [|y a IH]; cbn [find]; [done|].
  destruct (p y) eqn:Hy.
  - split; [done|]. inversion 1; congruence.
  - rewrite IH. split; [by constructor | by inversion 1].
Qed.

(** X8: [createRetrievability] is an inner join: it keeps the providers,
    in their order, for which the statistics have a row, each with the
    success rate of the first such row and with its own deal size, and
    drops the others. *)
Theorem createRetrievability_join
        (providerDistributions : list ProviderDistributionWithLocation)
        (sparkData : list SparkSuccessRate) :
  let joined := createRetrievability providerDistributions sparkData in
  map provider_id joined
    `sublist_of` map (fun d => provider (item d)) providerDistributions
  ∧ (∀ d, d ∈ providerDistributions →
          (provider (item d) ∈ map provider_id joined
           ↔ provider (item d) ∈ map miner_id sparkData))
  ∧ (∀ r, r ∈ joined →
          ∃ d before x after,
            d ∈ providerDistributions
            ∧ provider_id r = provider (item d)
            ∧ rt_total_deal_size r = Number (total_deal_size (item d))
            ∧ sparkData = before ++ x :: after
            ∧ miner_id x = provider_id r
            ∧ success_rate r = spark_success_rate x
            ∧ Forall (fun y => miner_id y ≠ provider_id r) before).
Proof.
  intros joined. subst joined. unfold createRetrievability.
  set (f := fun d : ProviderDistributionWithLocation => _).
  assert (∀ r, r ∈ omap f providerDistributions →
            ∃ d before x after,
              d ∈ providerDistributions
              ∧ provider_id r = provider (item d)
              ∧ rt_total_deal_size r = Number (total_deal_size (item d))
              ∧ sparkData = before ++ x :: after
              ∧ miner_id x = provider_id r
              ∧ success_rate r = spark_success_rate x
              ∧ Forall (fun y => miner_id y ≠ provider_id r) before) as Hrows.
  { intros r Hr. apply list_elem_of_omap in Hr as (d & Hd & Hf).
    subst f. cbn beta in Hf.
    destruct (array_find _ sparkData) as [x|] eqn:Hfind; [|done].
    injection Hf as <-. cbn [provider_id success_rate rt_total_deal_size].
    apply array_find_first in Hfind as (before & after & Heq & Hx & Hbefore).
    apply bool_decide_eq_true in Hx.
    exists d, before, x, after. repeat split; try done.
    eapply Forall_impl; [exact Hbefore|]. cbn beta. intros y Hy.
    apply bool_decide_eq_false in Hy. congruence. }
  split; [|split; [|exact Hrows]].
  - clear Hrows. induction providerDistributions as [|d ds IH]; [done|].
    cbn [omap list_omap map]. subst f. cbn beta.
    destruct (array_find _ sparkData) as [x|] eqn:Hfind.
    + apply array_find_first in Hfind as (_ & _ & _ & Hx & _).
      apply bool_decide_eq_true in Hx. cbn [map provider_id]. rewrite Hx.
      by apply sublist_skip.
    + by apply sublist_cons.
  - intros d Hd. split.
    + intros Hin. apply list_elem_of_In, in_map_iff in Hin as (r & Heq & Hr).
      apply list_elem_of_In in Hr.
      destruct (Hrows r Hr) as (d' & before & x & after & _ & _ & _ & -> & Hx & _).
      apply list_elem_of_In, in_map_iff. exists x. split; [congruence|].
      apply in_or_app. right. by left.
    + intros Hin. apply list_elem_of_In, in_map_iff in Hin as (x & Heq & Hx).
      destruct (f d) as [r|] eqn:Hf.
      * apply list_elem_of_In, in_map_iff. exists r. split.
        -- subst f. cbn beta in Hf.
           destruct (array_find _ sparkData) as [x'|] eqn:Hfind; [|done].
           injection Hf as <-. cbn [provider_id].
           apply array_find_first in Hfind as (_ & _ & _ & Hx' & _).
           by apply bool_decide_eq_true in Hx'.
        -- apply list_elem_of_In, list_elem_of_omap. by exists d.
      * subst f. cbn beta in Hf.
        destruct (array_find _ sparkData) as [x'|] eqn:Hfind; [done|].
        apply array_find_none in Hfind.
        rewrite Forall_forall in Hfind. specialize (Hfind x).
        rewrite bool_decide_eq_false in Hfind. destruct Hfind; [|done].
        by apply list_elem_of_In.
Qed.

End Retrievability_join.

Section Applications_examples.

#[local] Existing Instance Sample.runtime.

Lemma application_info_issueNumber_witness :
  issueNumber (application_info_of "f1client" (Sample.verified_client "100" "first" 2))
  = Some "7"
  ∧ url (application_info_of "f1client" (Sample.verified_client "100" "first" 2))
    = Some ("https://github.com/org/repo/issues" +:+ "/" +:+ "7")
  ∧ numberOfAllocations
      (application_info_of "f1client" (Sample.verified_client "100" "first" 2))
    = 2%nat.
Proof.
  apply (application_info_issueNumber "f1client"
           (Sample.verified_client "100" "first" 2)
           {| auditTrail := Some "https://github.com/org/repo/issues/7" |}
           [ {| auditTrail := Some "https://github.com/org/repo/issues/7" |} ]
           "https://github.com/org/repo/issues" "7"); reflexivity.
Defined.

Lemma cache_entries_keep_their_address_witness :
  cache_ok (lookups (Sample.world Sample.Usual) ["f1other"; "f1client"]
                    (Sample.start []))
  ∧ ∀ info,
      (findApplicationInfoForClient (Sample.world Sample.Usual) "f1client"
         (lookups (Sample.world Sample.Usual) ["f1other"; "f1client"]
                  (Sample.start []))).1 = Ok (Some info) →
      clientAddress info = "f1client".
Proof.
  apply (cache_entries_keep_their_address (Sample.world Sample.Usual)
           ["f1other"; "f1client"] "f1client" (Sample.start [])).
  reflexivity.
Defined.

End Applications_examples.

(** ** Bounds of the averages *)


Section Averages.

Context `{Runtime}.



End Averages.

Section Replication.

Context `{Runtime}.




End Replication.

Section Averages_examples.

#[local] Existing Instance Sample.runtime.



End Averages_examples.

(** ** The warnings on the providers *)

Section Provider_warnings.

Context `{Runtime}.

Lemma provider_pushes_content (c : Criteria) (p : ProviderDistributionWithLocation) :
  summary_of (provider_pushes c p) = []
  ∧ length (content_of (provider_pushes c p))
    = (2 * ((if exceeds_max_percentage c p then 1 else 0)
            + (if exceeds_max_duplication c p then 1 else 0)
            + (if no_ip_location p then 1 else 0)))%nat.
Proof.
  unfold provider_pushes.
  by destruct (exceeds_max_percentage c p), (exceeds_max_duplication c p),
       (no_ip_location p).
Qed.

Lemma content_of_app (a b : list line_push) :
  content_of (a ++ b) = content_of a ++ content_of b.
Proof. apply omap_app. Qed.

Lemma length_filter_cons {A : Type} (f : A → bool) (x : A) (l : list A) :
  length (filter (fun y => f y = true) (x :: l))
  = ((if f x then 1 else 0) + length (filter (fun y => f y = true) l))%nat.
Proof.
  destruct (f x) eqn:Hx.
  - by rewrite filter_cons_True.
  - rewrite filter_cons_False; [done|]. by rewrite Hx.
Qed.

(** X11: the loop over the providers writes to the full report only, two
    lines for each warning, and the three counts the summary gives are the
    numbers of those warnings: every provider the summary counts has its
    own warning in the full report, and there is no other. *)
Theorem provider_warnings_counted (d : ReportData) :
  let pushes := flat_map (provider_pushes (criteria d)) (providerDistributions d) in
  summary_of pushes = []
  ∧ length (content_of pushes)
    = (2 * (length (providersExceedingMaxPercentage d)
            + length (providersExceedingMaxDuplication d)
            + length (providersNoIp d)))%nat
  ∧ (∀ x, x ∈ providersExceedingMaxPercentage d →
          (warning +:+ " " +:+ providerLink (fst x) +:+ " has sealed "
           +:+ percent (snd x) 2 +:+ "% of total datacap.")
          ∈ content_of (report_pushes d))
  ∧ (∀ x, x ∈ providersExceedingMaxDuplication d →
          (warning +:+ " " +:+ percent (snd x) 2 +:+ "% of total deal sealed by "
           +:+ providerLink (fst x) +:+ " are duplicate data.")
          ∈ content_of (report_pushes d))
  ∧ (∀ x, x ∈ providersNoIp d →
          (warning +:+ " " +:+ providerLink x +:+ " has unknown IP location.")
          ∈ content_of (report_pushes d)).
Proof.
  intros pushes.
  assert (∀ p line, p ∈ providerDistributions d →
                    content_push line ∈ provider_pushes (criteria d) p →
                    line ∈ content_of (report_pushes d)) as Hline.
  { intros p line Hp Hin. unfold content_of. apply list_elem_of_omap.
    exists (content_push line). split; [|done].
    unfold report_pushes. rewrite !elem_of_app. do 3 right. left.
    apply list_elem_of_In, in_flat_map. exists p.
    split; by apply list_elem_of_In. }
  split; [|split; [|split; [|split]]].
  - subst pushes. unfold summary_of. rewrite omap_flat_map. apply flat_map_nil.
    intros p. apply provider_pushes_content.
  - subst pushes. clear Hline.
    unfold providersExceedingMaxPercentage, providersExceedingMaxDuplication,
      providersNoIp.
    rewrite !length_map. generalize (criteria d). intros c.
    induction (providerDistributions d) as [|p ps IH]; [done|].
    cbn [flat_map].
    rewrite content_of_app.
    rewrite length_app, IH, (proj2 (provider_pushes_content c p)).
    rewrite !length_filter_cons.
    destruct (exceeds_max_percentage c p), (exceeds_max_duplication c p),
      (no_ip_location p); lia.
  - intros x Hx. unfold providersExceedingMaxPercentage in Hx.
    apply list_elem_of_In, in_map_iff in Hx as (p & <- & Hp).
    apply list_elem_of_In, list_elem_of_filter in Hp as [Hexceeds Hp].
    apply (Hline p _ Hp). unfold provider_pushes. rewrite Hexceeds. cbn [fst snd].
    apply elem_of_app. left. by left.
  - intros x Hx. unfold providersExceedingMaxDuplication in Hx.
    apply list_elem_of_In, in_map_iff in Hx as (p & <- & Hp).
    apply list_elem_of_In, list_elem_of_filter in Hp as [Hexceeds Hp].
    apply (Hline p _ Hp). unfold provider_pushes. rewrite Hexceeds. cbn [fst snd].
    apply elem_of_app. right. apply elem_of_app. left. by left.
  - intros x Hx. unfold providersNoIp in Hx.
    apply list_elem_of_In, in_map_iff in Hx as (p & <- & Hp).
    apply list_elem_of_In, list_elem_of_filter in Hp as [Hnoip Hp].
    apply (Hline p _ Hp). unfold provider_pushes. rewrite Hnoip.
    apply elem_of_app. right. apply elem_of_app. right. by left.
Qed.



(** X13: a report on a single provider always carries the warning that
    all providers are in the same region, and never the line on a healthy
    provider distribution. *)
Theorem single_provider_is_one_region (d : ReportData) :
  length (providerDistributions d) = 1%nat →
  region_and_health_pushes d = [ pushBoth SINGLE_REGION; pushBoth "" ]
  ∧ SINGLE_REGION ∈ summary_of (report_pushes d)
  ∧ SINGLE_REGION ∈ content_of (report_pushes d).
Proof.
  intros Hone.
  assert (region_and_health_pushes d = [ pushBoth SINGLE_REGION; pushBoth "" ])
    as Hpushes.
  { unfold region_and_health_pushes, providerDistributionHealthy,
      providerDistributionRows.
    destruct (providerDistributions d) as [|p [|q ps]]; try done.
    rewrite single_region_one_provider. by rewrite andb_false_r. }
  split; [done|].
  assert (pushBoth SINGLE_REGION ∈ report_pushes d) as Hin.
  { unfold report_pushes. rewrite !elem_of_app. do 5 right. left.
    rewrite Hpushes. by left. }
  split; apply list_elem_of_omap; by exists (pushBoth SINGLE_REGION).
Qed.

End Provider_warnings.

Section Provider_warnings_examples.

#[local] Existing Instance Sample.runtime.

Lemma single_provider_is_one_region_witness :
  region_and_health_pushes Cases.one_provider_data
  = [ pushBoth SINGLE_REGION; pushBoth "" ]
  ∧ SINGLE_REGION ∈ summary_of (report_pushes Cases.one_provider_data)
  ∧ SINGLE_REGION ∈ content_of (report_pushes Cases.one_provider_data).
Proof.
  apply (single_provider_is_one_region Cases.one_provider_data). reflexivity.
Defined.

End Provider_warnings_examples.

(** ** What a run of the class leaves of the state *)

Section Frames.

Context `{Runtime} (w : World) (R : relation state) `{!PreOrder R}.

Hypothesis R_arrays : ∀ h s, R s (set_arrays h s).
Hypothesis R_resolver : ∀ client, respects R (findApplicationInfoForClient w client).

Lemma respects_ret {A : Type} (a : A) : respects R (mret a).
Proof. intros s. reflexivity. Qed.

Lemma respects_throw {A : Type} (e : string) : respects R (@throw A e).
Proof. intros s. reflexivity. Qed.

Lemma respects_await {A : Type} (o : outcome A) : respects R (await o).
Proof. intros s. reflexivity. Qed.

Lemma respects_bind {A B : Type} (m : M A) (k : A → M B) :
  respects R m → (∀ a, respects R (k a)) → respects R (m ≫= k).
Proof.
  intros Hm Hk s. specialize (Hm s). unfold mbind, M_bind.
  destruct (m s) as [[a|e] s1]; cbn in Hm |- *; [|done].
  etrans; [exact Hm | apply Hk].
Qed.

Lemma respects_mapM {A B : Type} (f : A → M B) (l : list A) :
  (∀ x, respects R (f x)) → respects R (mapM f l).
Proof.
  intros Hf. induction l as [|x l IH]; cbn [mapM].
  - apply respects_ret.
  - apply respects_bind; [done|]. intros y.
    apply respects_bind; [done|]. intros ys. apply respects_ret.
Qed.

Lemma respects_alloc (a : list string) : respects R (alloc a).
Proof. intros s. apply R_arrays. Qed.

Lemma respects_read (r : ref) : respects R (read r).
Proof. intros s. unfold read. destruct (arrays s !! r); reflexivity. Qed.

Lemma respects_push (r : ref) (x : string) : respects R (push r x).
Proof.
  intros s. unfold push. destruct (arrays s !! r); [apply R_arrays | reflexivity].
Qed.

Ltac respects :=
  repeat first
    [ apply respects_ret
    | apply respects_throw
    | apply respects_await
    | apply respects_alloc
    | apply respects_read
    | apply respects_push
    | apply R_resolver
    | apply respects_mapM; intros ?
    | apply respects_bind; [|intros ?]
    | match goal with
      | |- respects R (match ?x with _ => _ end) => destruct x
      | |- respects R (if ?x then _ else _) => destruct x
      end ].

Lemma respects_address_group (otherAddresses : ref) (client : string) :
  respects R (address_group otherAddresses client).
Proof. unfold address_group. respects. Qed.

Lemma respects_provider_distributions (clientIds : list string) :
  respects R (provider_distributions_with_locations w clientIds).
Proof.
  unfold provider_distributions_with_locations, getStorageProviderDistribution,
    getFirstClientByProviders, with_location.
  respects.
Qed.

Lemma respects_getReplicationDistribution (clientIds : list string) :
  respects R (getReplicationDistribution w clientIds).
Proof. unfold getReplicationDistribution. respects. Qed.

Lemma respects_getCidSharing (clientIds : list string) :
  respects R (getCidSharing w clientIds).
Proof. unfold getCidSharing. respects. Qed.

Lemma respects_cidSharingRow (share : CidSharing) :
  respects R (cidSharingRow w share).
Proof. unfold cidSharingRow. respects. Qed.

Lemma respects_other_applications (addressGroup : list string) (client : string) :
  respects R (other_applications w addressGroup client).
Proof. unfold other_applications. respects. Qed.

Lemma respects_report_queries (address : string) :
  respects R (getAllClientGeneratedReports w address)
  ∧ respects R (getLatestClientGeneratedReport w address).
Proof.
  unfold getAllClientGeneratedReports, getLatestClientGeneratedReport.
  split; respects.
Qed.

Hypothesis R_insert :
  ∀ client_address_id file_path,
    respects R (insert_generated_report w client_address_id file_path).

Lemma respects_check_group (event : Issue * Repository) (criterias : list Criteria)
      (applicationInfo : ApplicationInfo) (addressGroup : list string)
      (threshold range : number) :
  respects R (check_group w event criterias applicationInfo addressGroup
                          threshold range).
Proof.
  unfold check_group.
  destruct (getClientAddressId w addressGroup); [|apply respects_ret].
  apply respects_bind; [apply respects_provider_distributions|]. intros pds.
  apply respects_bind; [apply respects_getReplicationDistribution|]. intros rds.
  apply respects_bind; [apply respects_getCidSharing|]. intros sharing.
  destruct (providersRetrievability w pds range) as [retrievability avg].
  case_bool_decide; [apply respects_ret|].
  apply respects_bind; [apply respects_mapM, respects_cidSharingRow|]. intros rows.
  destruct (select_criteria criterias (numberOfAllocations applicationInfo));
    [|apply respects_throw].
  apply respects_bind; [apply respects_await|]. intros approvers.
  apply respects_bind; [apply respects_other_applications|]. intros others.
  apply respects_bind; [apply R_insert|]. intros _. apply respects_ret.
Qed.

Lemma respects_check (event : Issue * Repository) (criterias : option (list Criteria))
      (otherAddresses : option ref) (threshold range : option number) :
  respects R (check w event criterias otherAddresses threshold range).
Proof.
  unfold check.
  apply respects_bind.
  { destruct otherAddresses; [apply respects_ret | apply respects_alloc]. }
  intros r. destruct (getClientAddress (fst event)); [|apply respects_ret].
  apply respects_bind; [apply R_resolver|]. intros [applicationInfo|];
    [|apply respects_ret].
  case_bool_decide; [apply respects_ret|].
  apply respects_bind; [apply respects_address_group|]. intros addressGroup.
  apply respects_check_group.
Qed.

End Frames.

Section Cache_growth.

Context `{Runtime} (w : World).

Global Instance cache_grows_preorder : PreOrder cache_grows.
Proof.
  split.
  - intros s. split; [reflexivity | lia].
  - intros s1 s2 s3 [Hc12 Hn12] [Hc23 Hn23].
    split; [by etrans | lia].
Qed.

Lemma cache_grows_resolver (client : string) :
  respects cache_grows (findApplicationInfoForClient w client).
Proof.
  intros s. unfold findApplicationInfoForClient.
  destruct (issueApplicationInfoCache s !! client) as [cached|] eqn:Hc; [reflexivity|].
  unfold mbind, M_bind, mret, M_ret, set_cache.
  pose proof (retry_http_get_frame w client 6 s) as (Hcache & _ & _ & Hcalls).
  destruct (retry 6 (http_get_verified_clients w client) s) as [[data|e] s1];
    cbn in Hcache, Hcalls |- *.
  - destruct (find_primary data); unfold cache_grows; cbn; (split; [|lia]);
      rewrite Hcache; by apply insert_subseteq.
  - unfold cache_grows; cbn. split; [by rewrite Hcache | lia].
Qed.

(** X14: a run of [check], whatever it returns or throws, removes and
    replaces no entry of the cache of application infos, and the number of
    requests to the registry of verified clients never goes back; the same
    holds for the two queries of the generated reports. *)
Theorem check_keeps_the_cache (event : Issue * Repository)
        (criterias : option (list Criteria)) (otherAddresses : option ref)
        (threshold range : option number) (address : string) (s : state) :
  cache_grows s (check w event criterias otherAddresses threshold range s).2
  ∧ cache_grows s (getAllClientGeneratedReports w address s).2
  ∧ cache_grows s (getLatestClientGeneratedReport w address s).2.
Proof.
  assert (∀ h s, cache_grows s (set_arrays h s)) as Harrays.
  { intros h s0. split; [reflexivity | cbn; lia]. }
  split; [|split].
  - apply (respects_check w cache_grows Harrays cache_grows_resolver).
    intros client_address_id file_path s0. unfold insert_generated_report.
    destruct (insert_succeeds w client_address_id file_path);
      (split; [reflexivity | cbn; lia]).
  - apply (respects_report_queries w cache_grows cache_grows_resolver).
  - apply (respects_report_queries w cache_grows cache_grows_resolver).
Qed.

End Cache_growth.

Section Generated_reports.

Context `{Runtime} (w : World).

Global Instance same_reports_preorder : PreOrder same_reports.
Proof.
  split.
  - by intros s.
  - intros s1 s2 s3 H12 H23. unfold same_reports in *. congruence.
Qed.

Lemma same_reports_arrays (h : gmap ref (list string)) (s : state) :
  same_reports s (set_arrays h s).
Proof. done. Qed.

Lemma same_reports_resolver (client : string) :
  respects same_reports (findApplicationInfoForClient w client).
Proof.
  intros s. unfold findApplicationInfoForClient.
  destruct (issueApplicationInfoCache s !! client) as [cached|] eqn:Hc; [done|].
  unfold mbind, M_bind, mret, M_ret, set_cache.
  pose proof (retry_http_get_frame w client 6 s) as (_ & _ & Hreports & _).
  destruct (retry 6 (http_get_verified_clients w client) s) as [[data|e] s1];
    cbn in Hreports |- *; [|done].
  by destruct (find_primary data).
Qed.

Lemma check_group_reports (event : Issue * Repository) (criterias : list Criteria)
      (applicationInfo : ApplicationInfo) (addressGroup : list string)
      (threshold range : number) (s : state) :
  let run := check_group w event criterias applicationInfo addressGroup
                         threshold range s in
  generated_reports run.2
  = generated_reports s ++ rows_of w (clientAddress applicationInfo) run.1 event
  ∧ ∀ summary, run.1 = Ok (summary, None) → summary ∈ error_documents.
Proof.
  cbv zeta. unfold check_group.
  destruct (getClientAddressId w addressGroup) as [clientIds|].
  2:{ cbn. rewrite app_nil_r. split; [done|]. intros ? [= <-].
      unfold error_documents. cbn. do 3 right. by left. }
  unfold mbind, M_bind.
  pose proof (respects_provider_distributions w same_reports clientIds s) as H1.
  destruct (provider_distributions_with_locations w clientIds s) as [[pds|e] s1];
    cbn [fst snd rows_of] in H1 |- *; [|by rewrite app_nil_r].
  pose proof (respects_getReplicationDistribution w same_reports clientIds s1) as H2.
  destruct (getReplicationDistribution w clientIds s1) as [[rds|e] s2];
    cbn [fst snd rows_of] in H2 |- *; [|rewrite app_nil_r; split; [congruence | done]].
  pose proof (respects_getCidSharing w same_reports clientIds s2) as H3.
  destruct (getCidSharing w clientIds s2) as [[sharing|e] s3];
    cbn [fst snd rows_of] in H3 |- *; [|rewrite app_nil_r; split; [congruence | done]].
  destruct (providersRetrievability w pds range) as [retrievability avg].
  case_bool_decide.
  { cbn [fst snd rows_of mret M_ret]. rewrite app_nil_r. split; [congruence|].
    intros ? [= <-].
    unfold error_documents. cbn. do 4 right. by left. }
  pose proof (respects_mapM same_reports (cidSharingRow w) sharing
                (respects_cidSharingRow w same_reports same_reports_resolver) s3) as H4.
  destruct (mapM (cidSharingRow w) sharing s3) as [[rows|e] s4];
    cbn [fst snd rows_of] in H4 |- *; [|rewrite app_nil_r; split; [congruence | done]].
  destruct (select_criteria criterias (numberOfAllocations applicationInfo))
    as [criteria|]; [|cbn [fst snd rows_of throw]; rewrite app_nil_r; split; [congruence | done]].
  unfold await.
  destruct (getApprovers w (Num.of_Z (issue_number event.1))) as [approvers|e];
    cbn [fst snd rows_of]; [|rewrite app_nil_r; split; [congruence | done]].
  pose proof (respects_other_applications w same_reports same_reports_resolver
                addressGroup (clientAddress applicationInfo) s4) as H5.
  destruct (other_applications w addressGroup (clientAddress applicationInfo) s4)
    as [[others|e] s5]; cbn [fst snd rows_of] in H5 |- *; [|rewrite app_nil_r; split; [congruence | done]].
  unfold insert_generated_report, mret, M_ret.
  split; [|by destruct (insert_succeeds w _ _)].
  destruct (insert_succeeds w _ _) eqn:Hinsert;
    cbn [fst snd rows_of generated_reports]; rewrite Hinsert;
    [|rewrite app_nil_r]; congruence.
Qed.

(** X15: a run of [check] adds at most one row to [generated_reports],
    and only when it returns a report: the row holds the client address of
    the issue and the address under which the full report was uploaded, and
    it is missing when the INSERT failed.  A run that returns no report
    returns one of the five error documents and adds no row, and a run that
    throws adds none. *)
Theorem check_generated_reports (event : Issue * Repository)
        (criterias : option (list Criteria)) (otherAddresses : option ref)
        (threshold range : option number) (s : state) :
  cache_ok s →
  let run := check w event criterias otherAddresses threshold range s in
  generated_reports run.2
  = generated_reports s
    ++ rows_of w (default "" (getClientAddress (fst event))) run.1 event
  ∧ ∀ summary, run.1 = Ok (summary, None) → summary ∈ error_documents.
Proof.
  intros Hok. cbv zeta. unfold check, mbind, M_bind.
  assert (∃ r s0, (match otherAddresses with
                   | Some r => mret r
                   | None => alloc []
                   end) s = (Ok r, s0)
                  ∧ generated_reports s0 = generated_reports s
                  ∧ cache_ok s0) as (r & s0 & -> & Hs0 & Hok0).
  { destruct otherAddresses; eexists _, _; (split; [reflexivity|]); by split. }
  destruct (getClientAddress (fst event)) as [address|] eqn:Haddress.
  2:{ cbn [fst snd rows_of mret M_ret]. rewrite app_nil_r. split; [done|].
      intros ? [= <-]. unfold error_documents. cbn. by left. }
  pose proof (same_reports_resolver address s0) as H1.
  destruct (findApplicationInfoForClient_cache_ok w address s0 Hok0) as [_ Hclient].
  destruct (findApplicationInfoForClient w address s0) as [[[applicationInfo|]|e] s1];
    cbn [fst snd] in H1, Hclient |- *.
  - case_bool_decide.
    { cbn [fst snd rows_of mret M_ret]. rewrite app_nil_r. split; [congruence|].
      intros ? [= <-]. unfold error_documents. cbn. do 2 right. by left. }
    pose proof (respects_address_group same_reports same_reports_arrays r
                  (clientAddress applicationInfo) s1) as H2.
    destruct (address_group r (clientAddress applicationInfo) s1)
      as [[addressGroup|e] s2]; cbn [fst snd rows_of] in H2 |- *;
      [|rewrite app_nil_r; split; [congruence | done]].
    pose proof (check_group_reports event (default default_criterias criterias)
                  applicationInfo addressGroup (default (Num.frac 1 5) threshold)
                  (default (Num.of_Z 7) range) s2) as [H3 H4].
    rewrite (Hclient applicationInfo eq_refl) in H3.
    split; [|done]. change (default "" (Some address)) with address.
    rewrite H3. unfold same_reports in *. congruence.
  - cbn [fst snd rows_of mret M_ret]. rewrite app_nil_r. split; [congruence|].
    intros ? [= <-]. unfold error_documents. cbn. right. by left.
  - cbn [rows_of]. rewrite app_nil_r. split; [congruence | done].
Qed.

End Generated_reports.

Section Insert_failure.

Context `{Runtime} (w : World).

Lemma check_group_ignores_insert (f : string → string → bool)
      (event : Issue * Repository) (criterias : list Criteria)
      (applicationInfo : ApplicationInfo) (addressGroup : list string)
      (threshold range : number) (s : state) :
  let run := check_group w event criterias applicationInfo addressGroup
                         threshold range s in
  let run' := check_group (with_insert_succeeds f w) event criterias applicationInfo
                          addressGroup threshold range s in
  run'.1 = run.1
  ∧ arrays run'.2 = arrays run.2
  ∧ issueApplicationInfoCache run'.2 = issueApplicationInfoCache run.2
  ∧ http_calls run'.2 = http_calls run.2.
Proof.
  cbv zeta. unfold check_group.
  change (getClientAddressId (with_insert_succeeds f w)) with (getClientAddressId w).
  change (provider_distributions_with_locations (with_insert_succeeds f w))
    with (provider_distributions_with_locations w).
  change (getReplicationDistribution (with_insert_succeeds f w))
    with (getReplicationDistribution w).
  change (getCidSharing (with_insert_succeeds f w)) with (getCidSharing w).
  change (providersRetrievability (with_insert_succeeds f w))
    with (providersRetrievability w).
  change (cidSharingRow (with_insert_succeeds f w)) with (cidSharingRow w).
  change (other_applications (with_insert_succeeds f w)) with (other_applications w).
  change (uploadReport (with_insert_succeeds f w)) with (uploadReport w).
  change (issue_path (with_insert_succeeds f w)) with (issue_path w).
  cbn [uploadFile getApprovers now_toISOString with_insert_succeeds].
  unfold mbind, M_bind, mret, M_ret, await, throw, insert_generated_report.
  cbn [insert_succeeds with_insert_succeeds].
  repeat (case_match; simplify_eq); done.
Qed.

(** X16: whether the INSERT into [generated_reports] succeeds or fails
    makes no difference to a run of [check]: it returns or throws the same,
    and leaves the same arrays, the same cache and the same number of
    requests. *)
Theorem check_ignores_insert_failure (f : string → string → bool)
        (event : Issue * Repository) (criterias : option (list Criteria))
        (otherAddresses : option ref) (threshold range : option number) (s : state) :
  let run := check w event criterias otherAddresses threshold range s in
  let run' := check (with_insert_succeeds f w) event criterias otherAddresses
                    threshold range s in
  run'.1 = run.1
  ∧ arrays run'.2 = arrays run.2
  ∧ issueApplicationInfoCache run'.2 = issueApplicationInfoCache run.2
  ∧ http_calls run'.2 = http_calls run.2.
Proof.
  cbv zeta. unfold check.
  change (findApplicationInfoForClient (with_insert_succeeds f w))
    with (findApplicationInfoForClient w).
  unfold mbind, M_bind.
  destruct (match otherAddresses with
            | Some r => mret r
            | None => alloc []
            end s) as [[r|e] s0]; [|done].
  destruct (getClientAddress (fst event)) as [address|]; [|done].
  destruct (findApplicationInfoForClient w address s0)
    as [[[applicationInfo|]|e] s1]; [|done..].
  case_bool_decide; [done|].
  destruct (address_group r (clientAddress applicationInfo) s1)
    as [[addressGroup|e] s2]; [|done].
  apply check_group_ignores_insert.
Qed.

End Insert_failure.

Section Statistics_failure.

Context `{Runtime} (w : World).

Lemma createRetrievability_no_statistics
      (providerDistributions : list ProviderDistributionWithLocation) :
  createRetrievability providerDistributions [] = [].
Proof.
  unfold createRetrievability.
  induction providerDistributions as [|d ds IH]; [done|]. cbn. exact IH.
Qed.



(** X18: for [check], statistics that cannot be fetched are the same as
    statistics without any row: the run returns or throws the same and
    leaves the same state. *)
Theorem check_statistics_failure_is_no_statistics (e : string)
        (event : Issue * Repository) (criterias : option (list Criteria))
        (otherAddresses : option ref) (threshold range : option number) (s : state) :
  check (with_fetchRetrievalSuccessRate (fun _ => Throw e) w) event criterias
        otherAddresses threshold range s
  = check (with_fetchRetrievalSuccessRate (fun _ => Ok []) w) event criterias
          otherAddresses threshold range s.
Proof.
  unfold check, check_group, mbind, M_bind.
  change (findApplicationInfoForClient (with_fetchRetrievalSuccessRate _ w))
    with (findApplicationInfoForClient w).
  change (getClientAddressId (with_fetchRetrievalSuccessRate _ w))
    with (getClientAddressId w).
  change (provider_distributions_with_locations (with_fetchRetrievalSuccessRate _ w))
    with (provider_distributions_with_locations w).
  change (getReplicationDistribution (with_fetchRetrievalSuccessRate _ w))
    with (getReplicationDistribution w).
  change (getCidSharing (with_fetchRetrievalSuccessRate _ w)) with (getCidSharing w).
  destruct (match otherAddresses with
            | Some r => mret r
            | None => alloc []
            end s) as [[r|e0] s0]; [|done].
  destruct (getClientAddress (fst event)) as [address|]; [|done].
  destruct (findApplicationInfoForClient w address s0)
    as [[[applicationInfo|]|e0] s1]; [|done..].
  case_bool_decide; [done|].
  destruct (address_group r (clientAddress applicationInfo) s1)
    as [[addressGroup|e0] s2]; [|done].
  destruct (getClientAddressId w addressGroup) as [clientIds|]; [|done].
  destruct (provider_distributions_with_locations w clientIds s2)
    as [[pds|e0] s3]; [|done].
  destruct (getReplicationDistribution w clientIds s3) as [[rds|e0] s4]; [|done].
  destruct (getCidSharing w clientIds s4) as [[sharing|e0] s5]; [|done].
  unfold providersRetrievability.
  cbn [fetchRetrievalSuccessRate with_fetchRetrievalSuccessRate].
  rewrite createRetrievability_no_statistics. cbn [length].
  reflexivity.
Qed.

End Statistics_failure.

Section Check_examples.

#[local] Existing Instance Sample.runtime.

Lemma start_cache_ok (others : list string) : cache_ok (Sample.start others).
Proof. intros client info Hin. cbn in Hin. by rewrite lookup_empty in Hin. Qed.

Lemma check_generated_reports_witness :
  generated_reports Sample.usual_run.2
  = generated_reports (Sample.start [])
    ++ rows_of (Sample.world Sample.Usual)
               (default "" (getClientAddress (fst (Sample.event "f1client"))))
               Sample.usual_run.1 (Sample.event "f1client")
  ∧ ∀ summary, Sample.usual_run.1 = Ok (summary, None) → summary ∈ error_documents.
Proof.
  apply (check_generated_reports (Sample.world Sample.Usual) (Sample.event "f1client")
           None (Some 0%nat) None None (Sample.start [])).
  apply start_cache_ok.
Defined.

(** the row of the usual report *)
Lemma usual_generated_report :
  generated_reports Sample.usual_run.2
  = [("f1client", "https://view.example/org/repo/issues/7/1700000000000.md")].
Proof. by vm_compute. Qed.


End Check_examples.

(** * The methods on GitHub *)

Section GitHub_requests.

Import GitHub.

Lemma retry_first {A : Type} (retries : nat) (attempt : G A) (s s' : store) (a : A) :
  attempt s = (Ok a, s') → GitHub.retry retries attempt s = (Ok a, s').
Proof. intros Hfirst. destruct retries; cbn; by rewrite Hfirst. Qed.

Lemma iter_sent (k : nat) (s : store) :
  Nat.iter k sent (sent s) = sent (Nat.iter k sent s).
Proof. symmetry. apply (Nat.iter_succ_r k sent s). Qed.

Lemma iter_sent_frame (k : nat) (s : store) :
  commentsCache (Nat.iter k sent s) = commentsCache s
  ∧ prCache (Nat.iter k sent s) = prCache s
  ∧ files (Nat.iter k sent s) = files s
  ∧ requests (Nat.iter k sent s) = (requests s + k)%nat.
Proof.
  induction k as [|k (Hc & Hp & Hf & Hr)]; [cbn; repeat split; lia|].
  rewrite Nat.iter_succ. cbn [sent commentsCache prCache files requests].
  rewrite Hc, Hp, Hf, Hr. repeat split; lia.
Qed.

Lemma retry_all_fail {A : Type} (retries : nat) (attempt : G A) (e : string)
      (s : store) :
  (∀ s0, attempt s0 = (Throw e, sent s0)) →
  GitHub.retry retries attempt s = (Throw e, Nat.iter (S retries) sent s).
Proof.
  intros Hfail. revert s. induction retries as [|n IH]; intros s; cbn [GitHub.retry].
  - by rewrite Hfail.
  - rewrite Hfail, IH. by rewrite <- !Nat.iter_succ_r.
Qed.

(** what a retried request leaves of the state *)
Lemma retry_frame {A : Type} (retries : nat) (attempt : G A) (s : store) :
  (∀ s0, (attempt s0).2 = sent s0) →
  ∃ k, (1 ≤ k ≤ S retries)%nat
       ∧ (GitHub.retry retries attempt s).2 = Nat.iter k sent s.
Proof.
  intros Hsent. revert s. induction retries as [|n IH]; intros s; cbn [GitHub.retry].
  - exists 1%nat. split; [lia|]. specialize (Hsent s).
    destruct (attempt s) as [[a|e] s1]; cbn in *; by subst.
  - specialize (Hsent s). destruct (attempt s) as [[a|e] s1]; cbn in Hsent; subst.
    + exists 1%nat. split; [lia | done].
    + destruct (IH (sent s)) as (k & Hk & ->). exists (S k). split; [lia|].
      by rewrite Nat.iter_succ_r.
Qed.

End GitHub_requests.

Section GitHub_comments.

Import GitHub.

Context `{Runtime} (env : Environment).

Lemma div_100_step (n : nat) : (100 ≤ n)%nat → (n / 100 = S ((n - 100) / 100))%nat.
Proof.
  intros Hn. replace n with ((n - 100) + 1 * 100)%nat at 1 by lia.
  rewrite Nat.div_add by lia. lia.
Qed.

Lemma comment_pages_paginates (repo : Repository) (issueNumber : number)
      (all : list Comment) (fuel page : nat) (comments : list Comment) (s : store) :
  paginates env repo issueNumber all →
  (length (drop (100 * page) all) / 100 < fuel)%nat →
  comment_pages env fuel repo issueNumber (S page) comments s
  = (Ok (Some (comments ++ drop (100 * page) all)),
     Nat.iter (S (length (drop (100 * page) all) / 100)) sent s).
Proof.
  intros Hpag. revert page comments s.
  induction fuel as [|fuel IH]; intros page comments s Hfuel; [lia|].
  cbn [comment_pages]. unfold mbind, G_bind.
  set (rest := drop (100 * page) all) in *.
  rewrite (retry_first 3 _ s (sent s) (Some (take 100 rest))).
  2:{ unfold comments_attempt. by rewrite Hpag. }
  case_bool_decide as Hshort.
  - rewrite length_take in Hshort.
    rewrite take_ge by lia. rewrite Nat.div_small by lia. done.
  - rewrite length_take in Hshort.
    assert (100 ≤ length rest)%nat as Hfull by lia.
    assert (drop (100 * S page) all = drop 100 rest) as Hdrop.
    { subst rest. rewrite drop_drop. f_equal. lia. }
    rewrite (div_100_step _ Hfull) in Hfuel |- *.
    rewrite IH.
    + rewrite Hdrop, length_drop, <- app_assoc, take_drop.
      f_equal. by rewrite <- !Nat.iter_succ_r.
    + rewrite Hdrop, length_drop. lia.
Qed.

Lemma getComments_hit (fuel : nat) (issueNumber : number) (repo : Repository)
      (s : store) (cached : list Comment) :
  commentsCache s !! comments_key issueNumber repo = Some cached →
  getComments env fuel issueNumber repo s = (Ok (Some cached), s).
Proof. intros Hhit. unfold getComments. cbv zeta. by rewrite Hhit. Qed.

(** X19: when GitHub shows the comments of an issue in pages of 100,
    [getComments] asks for one page after the other, returns all the
    comments in their order, and stores them under the key of the issue; it
    sends one request more than there are full pages, so an issue with
    exactly 100 comments costs two.  Asked again, it answers from the cache
    without any request. *)
Theorem getComments_reads_every_page (fuel : nat) (issueNumber : number)
        (repo : Repository) (all : list Comment) (s : store) :
  paginates env repo issueNumber all →
  commentsCache s !! comments_key issueNumber repo = None →
  (length all / 100 < fuel)%nat →
  let run := getComments env fuel issueNumber repo s in
  run.1 = Ok (Some all)
  ∧ requests run.2 = (requests s + S (length all / 100))%nat
  ∧ commentsCache run.2 = <[comments_key issueNumber repo := all]> (commentsCache s)
  ∧ ∀ fuel', getComments env fuel' issueNumber repo run.2 = (Ok (Some all), run.2).
Proof.
  intros Hpag Hmiss Hfuel.
  assert (getComments env fuel issueNumber repo s
          = (Ok (Some all),
             (set_comments (comments_key issueNumber repo) all
                           (Nat.iter (S (length all / 100)) sent s)).2)) as Hrun.
  { unfold getComments. cbv zeta. rewrite Hmiss. unfold mbind, G_bind.
    pose proof (comment_pages_paginates repo issueNumber all fuel 0 [] s Hpag) as Hpages.
    cbn [Nat.mul drop app] in Hpages. rewrite Hpages by done. done. }
  cbv zeta. rewrite Hrun. cbn [fst snd].
  destruct (iter_sent_frame (S (length all / 100)) s) as (Hc & _ & _ & Hr).
  split; [done|]. split; [exact Hr|]. split.
  - cbn [set_comments snd commentsCache]. by rewrite Hc.
  - intros fuel'. apply getComments_hit. cbn [set_comments snd commentsCache].
    apply lookup_insert_eq.
Qed.

(** X20: when the request of the first page fails, a status of 404 counts
    as an issue without comments: [getComments] returns the empty list after
    one request and stores it in the cache.  Any other failure is tried four
    times and then thrown, and nothing is stored. *)
Theorem getComments_first_page_fails (fuel : nat) (issueNumber : number)
        (repo : Repository) (status : Z) (message : string) (s : store) :
  (∀ n, list_comments env n (owner_login repo) (repo_name repo) issueNumber 1
        = RequestError status message) →
  commentsCache s !! comments_key issueNumber repo = None →
  (0 < fuel)%nat →
  let run := getComments env fuel issueNumber repo s in
  if bool_decide (status = 404%Z)
  then run.1 = Ok (Some [])
       ∧ requests run.2 = (requests s + 1)%nat
       ∧ commentsCache run.2 = <[comments_key issueNumber repo := []]> (commentsCache s)
  else run.1 = Throw message
       ∧ requests run.2 = (requests s + 4)%nat
       ∧ commentsCache run.2 = commentsCache s.
Proof.
  intros Hfail Hmiss Hfuel. cbv zeta. unfold getComments. cbv zeta. rewrite Hmiss.
  destruct fuel as [|fuel]; [lia|].
  cbn [comment_pages]. unfold mbind, G_bind.
  case_bool_decide as Hstatus.
  - rewrite (retry_first 3 _ s (sent s) None).
    2:{ unfold comments_attempt. rewrite Hfail. by rewrite bool_decide_eq_true_2. }
    cbn. repeat split. lia.
  - rewrite (retry_all_fail 3 _ message).
    2:{ intros s0. unfold comments_attempt. rewrite Hfail.
        by rewrite bool_decide_eq_false_2. }
    destruct (iter_sent_frame 4 s) as (Hc & _ & _ & Hr). done.
Qed.

End GitHub_comments.

Section GitHub_approvers.

Import GitHub.

Context `{Runtime}.

Lemma map_get_set (m : list (string * number)) (k k' : string) (v : number) :
  map_get (map_set m k v) k' = if bool_decide (k = k') then Some v else map_get m k'.
Proof.
  induction m as [|[x y] m IH]; cbn [map_set map_get].
  - by repeat case_bool_decide.
  - destruct (decide (x = k)) as [->|Hx].
    + rewrite (bool_decide_eq_true_2 (k = k)) by done. cbn [map_get].
      repeat case_bool_decide; congruence.
    + rewrite (bool_decide_eq_false_2 (x = k)) by done. cbn [map_get]. rewrite IH.
      repeat case_bool_decide; congruence.
Qed.

Lemma map_set_keys (m : list (string * number)) (k x : string) (v : number) :
  x ∈ map fst (map_set m k v) ↔ x = k ∨ x ∈ map fst m.
Proof.
  induction m as [|[y z] m IH]; cbn [map_set map fst].
  - rewrite list_elem_of_singleton. split; [by left|]. intros [?|Hin]; [done|].
    by apply elem_of_nil in Hin.
  - case_bool_decide as Hy; cbn [map fst]; rewrite !elem_of_cons.
    + subst. tauto.
    + rewrite IH. tauto.
Qed.

Lemma map_set_NoDup (m : list (string * number)) (k : string) (v : number) :
  NoDup (map fst m) → NoDup (map fst (map_set m k v)).
Proof.
  induction m as [|[y z] m IH]; cbn [map_set map fst]; intros Hm.
  - apply NoDup_singleton.
  - apply NoDup_cons in Hm as [Hy Hm].
    case_bool_decide as Hk; cbn [map fst]; apply NoDup_cons.
    + done.
    + split; [|by apply IH]. rewrite map_set_keys. intros [?|?]; congruence.
Qed.

Lemma map_get_elem_of (m : list (string * number)) (k : string) (v : number) :
  NoDup (map fst m) → (k, v) ∈ m ↔ map_get m k = Some v.
Proof.
  induction m as [|[y z] m IH]; cbn [map fst map_get]; intros Hm.
  - split; [|done]. intros Hin. by apply elem_of_nil in Hin.
  - apply NoDup_cons in Hm as [Hy Hm]. rewrite elem_of_cons, (IH Hm).
    case_bool_decide as Hk.
    + subst. split.
      * intros [Heq|Hget]; [by simplify_eq|]. exfalso. apply Hy.
        apply (proj2 (IH Hm)) in Hget.
        apply list_elem_of_In, in_map_iff. exists (k, v).
        split; [done | by apply list_elem_of_In].
      * intros [= ->]. by left.
    + split; [|by right]. intros [Heq|?]; [by simplify_eq | done].
Qed.

Lemma of_nat_succ (n : nat) : Num.add (Num.of_nat n) Num.one = Num.of_nat (S n).
Proof.
  unfold Num.of_nat, Num.one. cbn [Num.add]. f_equal.
  rewrite Nat2Z.inj_succ, <- Z.add_1_r, Z2Qc_inj_add. by rewrite Z2Qc_inj_1.
Qed.

Lemma entry_of_succ (n : nat) :
  Some (Num.add (default Num.zero (entry_of n)) Num.one) = entry_of (S n).
Proof.
  destruct n as [|n]; [|cbn [entry_of default from_option Datatypes.id]; by rewrite of_nat_succ].
  cbn [entry_of default from_option Datatypes.id]. f_equal. exact (of_nat_succ 0).
Qed.

Lemma approvals_cons (approver : string) (c : Comment) (cs : list Comment) :
  approvals approver (c :: cs)
  = ((if is_approval c && bool_decide (approver_of c = approver) then 1 else 0)
     + approvals approver cs)%nat.
Proof.
  unfold approvals.
  destruct (is_approval c) eqn:Hc; [case_bool_decide as Ha|]; cbn [andb].
  - by rewrite filter_cons_True.
  - rewrite filter_cons_False; [done|]. tauto.
  - rewrite filter_cons_False; [done|]. intros [? _]. congruence.
Qed.

Lemma fold_count_approval (comments : list Comment) (m : list (string * number))
      (before : string → nat) :
  NoDup (map fst m) →
  (∀ a, map_get m a = entry_of (before a)) →
  NoDup (map fst (fold_left count_approval comments m))
  ∧ ∀ a, map_get (fold_left count_approval comments m) a
         = entry_of (before a + approvals a comments).
Proof.
  revert m before.
  induction comments as [|c cs IH]; intros m before Hm Hget; cbn [fold_left].
  - split; [done|]. intros a. unfold approvals. cbn. by rewrite Nat.add_0_r.
  - destruct (IH (count_approval m c)
                 (fun a => (before a
                            + (if is_approval c && bool_decide (approver_of c = a)
                               then 1 else 0))%nat))
      as [Hnodup Hcount].
    + unfold count_approval. destruct (is_approval c); [|done].
      by apply map_set_NoDup.
    + intros a. unfold count_approval.
      destruct (is_approval c); cbn [andb]; [|by rewrite Nat.add_0_r].
      cbv zeta. rewrite map_get_set. case_bool_decide as Ha.
      * subst a. rewrite Hget, Nat.add_1_r. apply entry_of_succ.
      * by rewrite Nat.add_0_r.
    + split; [done|]. intros a. rewrite Hcount, approvals_cons. f_equal. lia.
Qed.

(** X21: [getApprovers] lists every account that wrote at least one
    comment starting with [## Request Approved] or [## Request Proposed],
    once, with the number of those comments; a comment without an author
    counts for [Unknown], and other comments are not counted. *)
Theorem approvers_of_counts (comments : list Comment) :
  NoDup (map fst (approvers_of comments))
  ∧ ∀ approver count,
      (approver, count) ∈ approvers_of comments
      ↔ (0 < approvals approver comments)%nat
        ∧ count = Num.of_nat (approvals approver comments).
Proof.
  unfold approvers_of.
  set (m := fold_left count_approval comments []).
  pose proof (array_sort_perm _ (fun a b : string * number => localeCompare a.1 b.1) m)
    as Hperm.
  destruct (fold_count_approval comments [] (fun _ => 0%nat)) as [Hnodup Hcount];
    [apply NoDup_nil_2 | done |]. fold m in Hnodup, Hcount.
  split.
  - assert (map fst (array_sort _ (fun a b : string * number => localeCompare a.1 b.1) m)
            ≡ₚ map fst m) as Hkeys by (by apply Permutation_map).
    by rewrite Hkeys.
  - intros approver count. rewrite Hperm, (map_get_elem_of m _ _ Hnodup), Hcount.
    cbn [Nat.add]. destruct (approvals approver comments) as [|n]; cbn [entry_of].
    + split; [done | lia].
    + split; [intros [= <-]; split; [lia | done] | by intros [_ ->]].
Qed.

End GitHub_approvers.

Section GitHub_records.

Import GitHub.

Context `{Runtime} (env : Environment).

Lemma request_sent {A : Type} (answer : nat → reply A) (s : store) :
  (request answer s).2 = sent s.
Proof. unfold request. by destruct (answer (requests s)). Qed.

(** X22: the cache of [getRecordByPR] is keyed by the number of the pull
    request alone: once a record was returned, the same record is returned
    for that number without any request, whatever repository is asked for.
    A run that throws stores nothing.  A run sends at most five requests. *)
Theorem getRecordByPR_cache (prNumber : Z) (repo : Repository) (s : store) :
  let run := getRecordByPR env prNumber repo s in
  match run.1 with
  | Ok record =>
      ∀ other, getRecordByPR env prNumber other run.2 = (Ok record, run.2)
  | Throw _ => prCache run.2 = prCache s
  end
  ∧ (requests s ≤ requests run.2 ≤ requests s + 5)%nat
  ∧ commentsCache run.2 = commentsCache s.
Proof.
  cbv zeta. unfold getRecordByPR.
  destruct (prCache s !! prNumber) as [cached|] eqn:Hcache.
  { cbn [fst snd]. split; [|split; [lia | done]]. intros other. by rewrite Hcache. }
  unfold mbind, G_bind.
  destruct (retry_frame 3 (request (fun n => pulls_files env n (owner_login repo)
                                                          (repo_name repo) prNumber)) s)
    as (k & Hk & Hstate); [intros s0; apply request_sent|].
  destruct (iter_sent_frame k s) as (Hc & Hp & _ & Hr).
  destruct (GitHub.retry 3 _ s) as [[response|e] s1]; cbn [snd] in Hstate; subst s1.
  2:{ cbn [fst snd]. rewrite Hp, Hr, Hc. split; [done|]. split; [lia | done]. }
  destruct response as [[|editedFile rest]|].
  - cbn [fst snd GitHub.throw]. rewrite Hp, Hr, Hc. split; [done|]. split; [lia | done].
  - pose proof (request_sent (fun n => get_contents env n editedFile)
                             (Nat.iter k sent s)) as Hsent.
    destruct (request (fun n => get_contents env n editedFile) (Nat.iter k sent s))
      as [[content|e] s2]; cbn [snd] in Hsent; subst s2;
      cbn [fst snd sent prCache requests commentsCache].
    2:{ rewrite Hp, Hr, Hc. split; [done|]. split; [lia | done]. }
    unfold GitHub.await.
    destruct (atob env content) as [outData|e];
      cbn [fst snd sent prCache requests commentsCache].
    2:{ rewrite Hp, Hr, Hc. split; [done|]. split; [lia | done]. }
    destruct (JSON_parse env outData) as [outRecord|e];
      cbn [fst snd sent prCache requests commentsCache set_record mret G_ret].
    2:{ rewrite Hp, Hr, Hc. split; [done|]. split; [lia | done]. }
    rewrite Hr, Hc. split; [|split; [lia | done]].
    intros other. by rewrite lookup_insert_eq.
  - cbn [fst snd GitHub.throw]. rewrite Hp, Hr, Hc. split; [done|]. split; [lia | done].
Qed.

End GitHub_records.

Section GitHub_uploads.

Import GitHub.

Context `{Runtime} (env : Environment) (fileUploadConfig : FileUploadConfig).

(** X23: [uploadFile] never throws.  With a local directory configured it
    sends no request: it writes the decoded content under that directory
    and returns the local address of the file twice, or returns two empty
    strings when the disk refuses, and then writes nothing.  Without one
    ([local] missing or empty) it writes no file and sends the PUT at most
    four times; it returns the two addresses of a response, and two empty
    strings when every attempt failed. *)
Theorem uploadFile_never_throws (path base64Content commitMessage : string)
        (s : store) :
  let run := uploadFile env fileUploadConfig path base64Content commitMessage s in
  let fullURL := localBaseURL fileUploadConfig +:+ path in
  ∃ urls,
    run.1 = Ok urls
    ∧ commentsCache run.2 = commentsCache s
    ∧ prCache run.2 = prCache s
    ∧ match local_directory fileUploadConfig with
      | Some directory =>
          requests run.2 = requests s
          ∧ (urls = (fullURL, fullURL)
             ∧ files run.2
               = <[pathJoin env directory path := from_base64 env base64Content]>
                   (files s)
             ∨ urls = ("", "") ∧ files run.2 = files s)
      | None =>
          files run.2 = files s
          ∧ (requests s < requests run.2 ≤ requests s + 4)%nat
          ∧ ((∀ n, ∃ status message,
                put_contents env n (put_params fileUploadConfig path base64Content
                                               commitMessage)
                = RequestError status message) →
             urls = ("", ""))
      end.
Proof.
  cbv zeta. unfold uploadFile.
  destruct (local_directory fileUploadConfig) as [directory|].
  - unfold or_empty, write_locally, mbind, G_bind, GitHub.await, write_file, mret, G_ret.
    destruct (mkdirSync env _) as [[]|e].
    + destruct (writeFileSync env _) as [[]|e]; eexists;
        (split; [reflexivity|]); cbn; repeat split; auto.
    + eexists. split; [reflexivity|]. cbn. repeat split; auto.
  - unfold or_empty, put_remotely, mbind, G_bind.
    set (attempt := request (fun n => put_contents env n _)).
    destruct (retry_frame 3 attempt s) as (k & Hk & Hstate);
      [intros s0; apply request_sent|].
    destruct (iter_sent_frame k s) as (Hc & Hp & Hf & Hr).
    assert ((∀ n, ∃ status message,
               put_contents env n (put_params fileUploadConfig path base64Content
                                              commitMessage)
               = RequestError status message) →
            ∀ s0, ∃ e, GitHub.retry 3 attempt s0 = (Throw e, Nat.iter 4 sent s0))
      as Hfails.
    { intros Hall. assert (∀ s0, ∃ e, attempt s0 = (Throw e, sent s0)) as Hone.
      { intros s0. subst attempt. unfold request.
        destruct (Hall (requests s0)) as (status & message & ->). by eexists. }
      intros s0. cbn [GitHub.retry].
      destruct (Hone s0) as [e0 ->].
      destruct (Hone (sent s0)) as [e1 ->].
      destruct (Hone (sent (sent s0))) as [e2 ->].
      destruct (Hone (sent (sent (sent s0)))) as [e3 ->]. by eexists. }
    destruct (GitHub.retry 3 attempt s) as [[[urls|]|e] s1] eqn:Hretry;
      cbn [snd] in Hstate; subst s1; eexists;
      (split; [reflexivity|]); cbn [fst snd GitHub.throw mret G_ret];
      rewrite Hc, Hp, Hf, Hr; repeat split; try lia; try done.
    intros Hall. destruct (Hfails Hall s) as [e He]. congruence.
Qed.

End GitHub_uploads.

Section GitHub_examples.

Import GitHub.

#[local] Existing Instance Sample.runtime.

Lemma getComments_reads_every_page_witness :
  let run := getComments Hub.env 2 (Num.of_Z 7) Hub.repository GitHub.empty in
  run.1 = Ok (Some Hub.comments)
  ∧ requests run.2 = (requests GitHub.empty + S (length Hub.comments / 100))%nat
  ∧ commentsCache run.2
    = <[comments_key (Num.of_Z 7) Hub.repository := Hub.comments]>
        (commentsCache GitHub.empty)
  ∧ ∀ fuel', getComments Hub.env fuel' (Num.of_Z 7) Hub.repository run.2
             = (Ok (Some Hub.comments), run.2).
Proof.
  apply (getComments_reads_every_page Hub.env 2 (Num.of_Z 7) Hub.repository
           Hub.comments GitHub.empty).
  - intros n page. reflexivity.
  - reflexivity.
  - vm_compute. lia.
Defined.

(** the issue of 102 comments costs two requests *)
Lemma two_pages :
  requests (getComments Hub.env 2 (Num.of_Z 7) Hub.repository GitHub.empty).2 = 2%nat
  ∧ approvals "alice" Hub.comments = 1%nat
  ∧ approvals "bot" Hub.comments = 0%nat.
Proof. by vm_compute. Qed.

Lemma getComments_first_page_fails_witness :
  let run := getComments (Hub.failing 404) 1 (Num.of_Z 7) Hub.repository GitHub.empty in
  if bool_decide (404 = 404)%Z
  then run.1 = Ok (Some [])
       ∧ requests run.2 = (requests GitHub.empty + 1)%nat
       ∧ commentsCache run.2
         = <[comments_key (Num.of_Z 7) Hub.repository := []]>
             (commentsCache GitHub.empty)
  else run.1 = Throw "Request failed"
       ∧ requests run.2 = (requests GitHub.empty + 4)%nat
       ∧ commentsCache run.2 = commentsCache GitHub.empty.
Proof.
  apply (getComments_first_page_fails (Hub.failing 404) 1 (Num.of_Z 7) Hub.repository
           404 "Request failed" GitHub.empty).
  - intros n. reflexivity.
  - reflexivity.
  - lia.
Defined.

(** a server error is thrown after four requests *)
Lemma server_error_is_thrown :
  getComments (Hub.failing 500) 1 (Num.of_Z 7) Hub.repository GitHub.empty
  = (Throw "Request failed", Nat.iter 4 sent GitHub.empty).
Proof. reflexivity. Qed.

End GitHub_examples.

(** * The migrations *)

Section Migration_round_trip.

Import Migrations.

Lemma schema_eq (s s' : schema) :
  tables s = tables s' → indexes s = indexes s' → s = s'.
Proof. destruct s, s'. cbn. by intros -> ->. Qed.

Lemma no_index_without_table (s : schema) (tableName : string) :
  well_formed s → tables s !! tableName = None →
  ∀ column, (tableName, column) ∉ indexes s.
Proof.
  intros Hwf Hnone column Hin. destruct (Hwf _ _ Hin) as [cols Hcols]. congruence.
Qed.

Lemma filter_other_tables (X : gset (string * string)) (tableName : string) :
  (∀ column, (tableName, column) ∉ X) →
  filter (fun i => fst i ≠ tableName) X = X.
Proof.
  intros Hnone. apply set_eq. intros [t c]. rewrite elem_of_filter. cbn.
  split; [by intros [_ ?]|]. intros Hin. split; [|done]. intros ->. by apply (Hnone c).
Qed.

(** X24: each of the two migrations can be applied to a schema that does
    not have its table, and its [down] then gives back the schema it was
    applied to; it cannot be applied where the table exists already. *)
Theorem migrations_round_trip (s : schema) :
  well_formed s →
  (tables s !! "generated_reports" = None →
   ∃ s1, run GeneratedReports.up s = Some s1
         ∧ well_formed s1
         ∧ run GeneratedReports.down s1 = Some s)
  ∧ (tables s !! "allocator_generated_reports" = None →
     ∃ s1, run AllocatorGeneratedReports.up s = Some s1
           ∧ well_formed s1
           ∧ run AllocatorGeneratedReports.down s1 = Some s)
  ∧ (is_Some (tables s !! "generated_reports") → run GeneratedReports.up s = None)
  ∧ (is_Some (tables s !! "allocator_generated_reports") →
     run AllocatorGeneratedReports.up s = None).
Proof.
  intros Hwf. split; [|split; [|split]].
  - intros Hnone.
    pose proof (no_index_without_table s _ Hwf Hnone) as Hidx.
    unfold GeneratedReports.up, GeneratedReports.down.
    cbn [run apply]. rewrite Hnone. cbn [tables indexes].
    rewrite lookup_insert_eq. cbn [map fst].
    rewrite bool_decide_eq_true_2.
    2:{ split; [set_solver | apply Hidx]. }
    eexists. split; [reflexivity|]. split.
    + intros t c. cbn [tables indexes]. rewrite elem_of_union, elem_of_singleton.
      intros [[= -> ->] | Hin]; [by rewrite lookup_insert_eq|].
      destruct (decide (t = "generated_reports")) as [->|Hne];
        [by rewrite lookup_insert_eq|].
      rewrite lookup_insert_ne by done. by apply (Hwf t c).
    + cbn [run apply tables indexes].
      rewrite bool_decide_eq_true_2 by set_solver.
      cbn [tables indexes]. rewrite lookup_insert_eq. f_equal.
      apply schema_eq; cbn [tables indexes].
      * by rewrite delete_insert_id.
      * assert (({[("generated_reports", "client_address_id")]} ∪ indexes s)
                  ∖ {[("generated_reports", "client_address_id")]} = indexes s) as ->.
        { apply set_eq. intros i.
          rewrite elem_of_difference, elem_of_union, !elem_of_singleton. split.
          - by intros [[->|Hin] Hne].
          - intros Hin. split; [by right|]. intros ->.
            by apply (Hidx "client_address_id"). }
        by apply filter_other_tables.
  - intros Hnone.
    pose proof (no_index_without_table s _ Hwf Hnone) as Hidx.
    unfold AllocatorGeneratedReports.up, AllocatorGeneratedReports.down.
    cbn [run apply]. rewrite Hnone. cbn [tables indexes].
    rewrite lookup_insert_eq. cbn [map fst].
    rewrite bool_decide_eq_true_2.
    2:{ split; [set_solver | apply Hidx]. }
    cbn [tables indexes]. rewrite lookup_insert_eq. cbn [map fst].
    rewrite bool_decide_eq_true_2.
    2:{ split; [set_solver|]. rewrite elem_of_union, elem_of_singleton.
        intros [[=]|Hin]. by apply (Hidx "address_id"). }
    eexists. split; [reflexivity|]. split.
    + intros t c. cbn [tables indexes]. rewrite !elem_of_union, !elem_of_singleton.
      intros [[= -> ->] | [[= -> ->] | Hin]]; try by rewrite lookup_insert_eq.
      destruct (decide (t = "allocator_generated_reports")) as [->|Hne];
        [by rewrite lookup_insert_eq|].
      rewrite lookup_insert_ne by done. by apply (Hwf t c).
    + cbn [run apply tables indexes].
      rewrite bool_decide_eq_true_2 by set_solver.
      cbn [tables indexes].
      rewrite bool_decide_eq_true_2 by set_solver.
      cbn [tables indexes]. rewrite lookup_insert_eq. f_equal.
      apply schema_eq; cbn [tables indexes].
      * by rewrite delete_insert_id.
      * assert ((({[("allocator_generated_reports", "address_id")]}
                   ∪ ({[("allocator_generated_reports", "address")]} ∪ indexes s))
                   ∖ {[("allocator_generated_reports", "address")]})
                  ∖ {[("allocator_generated_reports", "address_id")]} = indexes s) as ->.
        { apply set_eq. intros i.
          rewrite !elem_of_difference, !elem_of_union, !elem_of_singleton. split.
          - by intros [[[->|[->|Hin]] Hne] Hne'].
          - intros Hin. split; [split; [by do 2 right|]|]; intros ->.
            + by apply (Hidx "address").
            + by apply (Hidx "address_id"). }
        by apply filter_other_tables.
  - intros [cols Hcols]. cbn [run apply GeneratedReports.up]. by rewrite Hcols.
  - intros [cols Hcols]. cbn [run apply AllocatorGeneratedReports.up]. by rewrite Hcols.
Qed.

(** X25: in a schema the migration of [generated_reports] was applied
    to, the INSERT of [check] is accepted: it names columns of the table
    and gives a value to every column that needs one, and the column of the
    condition of the two queries of generated reports has its index. *)
Theorem insert_fits_the_migration (s s1 : schema) :
  run GeneratedReports.up s = Some s1 →
  ∃ columns,
    tables s1 !! insert_table = Some columns
    ∧ accepts columns insert_columns = true
    ∧ (insert_table, "client_address_id") ∈ indexes s1
    ∧ accepts columns ["client_address_id"] = false.
Proof.
  unfold GeneratedReports.up. cbn [run apply].
  destruct (tables s !! "generated_reports") eqn:Hnone; [done|].
  cbn [tables indexes]. rewrite lookup_insert_eq.
  case_bool_decide; [|done]. intros [= <-]. cbn [tables indexes].
  eexists. split; [apply lookup_insert_eq|]. split; [by vm_compute|].
  split; [|by vm_compute]. by apply elem_of_union_l, elem_of_singleton.
Qed.

Lemma no_tables_well_formed : well_formed no_tables.
Proof. intros t c Hin. cbn in Hin. set_solver. Qed.

Lemma migrations_round_trip_witness :
  (tables no_tables !! "generated_reports" = None →
   ∃ s1, run GeneratedReports.up no_tables = Some s1
         ∧ well_formed s1
         ∧ run GeneratedReports.down s1 = Some no_tables)
  ∧ (tables no_tables !! "allocator_generated_reports" = None →
     ∃ s1, run AllocatorGeneratedReports.up no_tables = Some s1
           ∧ well_formed s1
           ∧ run AllocatorGeneratedReports.down s1 = Some no_tables)
  ∧ (is_Some (tables no_tables !! "generated_reports") →
     run GeneratedReports.up no_tables = None)
  ∧ (is_Some (tables no_tables !! "allocator_generated_reports") →
     run AllocatorGeneratedReports.up no_tables = None).
Proof.
  apply (migrations_round_trip no_tables). apply no_tables_well_formed.
Defined.

Lemma insert_fits_the_migration_witness :
  ∃ s1,
    run GeneratedReports.up no_tables = Some s1
    ∧ ∃ columns,
        tables s1 !! insert_table = Some columns
        ∧ accepts columns insert_columns = true
        ∧ (insert_table, "client_address_id") ∈ indexes s1
        ∧ accepts columns ["client_address_id"] = false.
Proof.
  destruct (run GeneratedReports.up no_tables) as [s1|] eqn:Hup.
  - exists s1. split; [done|]. exact (insert_fits_the_migration no_tables s1 Hup).
  - exfalso. revert Hup. unfold GeneratedReports.up. cbn [run apply no_tables tables].
    rewrite lookup_empty. cbn [tables indexes]. rewrite lookup_insert_eq.
    case_bool_decide as Hcond; [done|]. intros _. apply Hcond.
    split; [set_solver | set_solver].
Defined.

End Migration_round_trip.

(** * When [check] returns *)

Section Returns.

Context `{Runtime} (w : World).

Lemma returns_ret {A : Type} (a : A) : returns (mret a).
Proof. intros s. by exists a. Qed.

Lemma returns_bind {A B : Type} (m : M A) (k : A → M B) :
  returns m → (∀ a, returns (k a)) → returns (m ≫= k).
Proof.
  intros Hm Hk s. destruct (Hm s) as [a Ha]. unfold mbind, M_bind.
  destruct (m s) as [[a'|e] s1]; cbn in Ha; [|done]. apply Hk.
Qed.

Lemma returns_mapM {A B : Type} (f : A → M B) (l : list A) :
  (∀ x, returns (f x)) → returns (mapM f l).
Proof.
  intros Hf. induction l as [|x l IH]; cbn [mapM].
  - apply returns_ret.
  - apply returns_bind; [done|]. intros y.
    apply returns_bind; [done|]. intros ys. apply returns_ret.
Qed.

Lemma returns_await {A : Type} (o : outcome A) (a : A) : o = Ok a → returns (await o).
Proof. intros -> s. by exists a. Qed.

Lemma select_criteria_some (criterias : list Criteria) (allocations : nat) :
  criterias ≠ [] → allocations ≠ 0%nat →
  is_Some (select_criteria criterias allocations).
Proof.
  intros Hne Hpos. unfold select_criteria, array_get.
  assert (0 < length criterias)%nat by (destruct criterias; [done | cbn; lia]).
  destruct (Z.ltb_spec (Z.of_nat allocations - 1) (Z.of_nat (length criterias))).
  - rewrite (proj2 (Z.ltb_ge _ _)) by lia. apply lookup_lt_is_Some. lia.
  - rewrite (proj2 (Z.ltb_ge _ _)) by lia. apply lookup_lt_is_Some. lia.
Qed.

Hypothesis Hanswers : answers w.

Lemma returns_resolver (client : string) :
  returns (findApplicationInfoForClient w client).
Proof.
  intros s. unfold findApplicationInfoForClient.
  destruct (issueApplicationInfoCache s !! client) as [cached|]; [by eexists|].
  unfold mbind, M_bind. cbn [retry]. unfold http_get_verified_clients at 1.
  destruct Hanswers as (Hget & _). destruct (Hget (http_calls s) client) as [data ->].
  destruct (find_primary data); by eexists.
Qed.

Lemma returns_provider_distributions (clientIds : list string) :
  returns (provider_distributions_with_locations w clientIds).
Proof.
  destruct Hanswers as (_ & Hrows & Hfirst & _ & _ & Hminer & Hgeo & _).
  intros s. unfold provider_distributions_with_locations,
    getStorageProviderDistribution, getFirstClientByProviders, await, mbind, M_bind,
    mret, M_ret.
  destruct (Hrows clientIds) as [rows ->].
  case_bool_decide; [by eexists|].
  destruct (Hfirst (map provider (provider_percentages rows))) as [firstClients ->].
  destruct (mapM_with_location w clientIds firstClients (provider_percentages rows) s)
    as (withLocations & -> & _).
  { intros x _. destruct (Hminer (provider x)) as [minerInfo Hinfo].
    by apply (getLocation_answers w _ minerInfo). }
  by eexists.
Qed.

Lemma returns_cidSharingRow (share : CidSharing) : returns (cidSharingRow w share).
Proof.
  destruct Hanswers as (_ & _ & _ & _ & _ & _ & _ & Happrovers).
  unfold cidSharingRow.
  apply returns_bind; [apply returns_resolver|]. intros otherApplication.
  apply returns_bind; [|intros verifier; apply returns_ret].
  destruct (otherApplication ≫= issueNumber) as [n|]; [|apply returns_ret].
  destruct (Happrovers (parseInt n)) as [approvers Ha].
  apply returns_bind; [by eapply returns_await | intros ?; apply returns_ret].
Qed.

Lemma returns_check_group (event : Issue * Repository) (criterias : list Criteria)
      (applicationInfo : ApplicationInfo) (addressGroup : list string)
      (threshold range : number) :
  criterias ≠ [] → numberOfAllocations applicationInfo ≠ 0%nat →
  returns (check_group w event criterias applicationInfo addressGroup threshold range).
Proof.
  intros Hcriterias Hallocations.
  pose proof Hanswers as (_ & _ & _ & Hreplicas & Hsharing & _ & _ & Happrovers).
  unfold check_group.
  destruct (getClientAddressId w addressGroup) as [clientIds|]; [|apply returns_ret].
  apply returns_bind; [apply returns_provider_distributions|]. intros pds.
  destruct (Hreplicas clientIds) as [replicas Hr].
  apply returns_bind.
  { unfold getReplicationDistribution.
    apply returns_bind; [by eapply returns_await | intros ?; apply returns_ret]. }
  intros rds.
  destruct (Hsharing clientIds) as [sharing Hs].
  apply returns_bind; [unfold getCidSharing; by eapply returns_await|]. intros shares.
  destruct (providersRetrievability w pds range) as [retrievability avg].
  case_bool_decide; [apply returns_ret|].
  apply returns_bind; [apply returns_mapM, returns_cidSharingRow|]. intros rows.
  destruct (select_criteria_some criterias (numberOfAllocations applicationInfo))
    as [criteria ->]; [done..|].
  destruct (Happrovers (Num.of_Z (issue_number event.1))) as [approvers Ha].
  apply returns_bind; [by eapply returns_await|]. intros approvers'.
  apply returns_bind.
  { unfold other_applications. case_bool_decide; [|apply returns_ret].
    apply returns_mapM. intros address.
    apply returns_bind; [apply returns_resolver | intros ?; apply returns_ret]. }
  intros others.
  apply returns_bind; [|intros ?; apply returns_ret].
  intros s. unfold insert_generated_report.
  destruct (insert_succeeds w _ _); by eexists.
Qed.

(** X26: when the registry, the database, the node, ipinfo.io and GitHub
    answer, the list of criteria is not empty and the array of other
    addresses, if one is given, exists, [check] returns: it does not throw
    on any issue, whatever its addresses resolve to, and neither a
    multiaddr that cannot be resolved, nor missing statistics, nor a failed
    upload or INSERT makes it throw. *)
Theorem check_returns (event : Issue * Repository) (criterias : option (list Criteria))
        (otherAddresses : option ref) (threshold range : option number) (s : state) :
  default default_criterias criterias ≠ [] →
  (∀ r, otherAddresses = Some r → is_Some (arrays s !! r)) →
  ∃ result, (check w event criterias otherAddresses threshold range s).1 = Ok result.
Proof.
  intros Hcriterias Hothers. unfold check, mbind, M_bind.
  assert (∃ r s0, (match otherAddresses with
                   | Some r => mret r
                   | None => alloc []
                   end) s = (Ok r, s0)
                  ∧ is_Some (arrays s0 !! r)) as (r & s0 & -> & Hr).
  { destruct otherAddresses as [r|].
    - exists r, s. split; [done|]. by apply Hothers.
    - eexists _, _. split; [reflexivity|]. cbn. rewrite lookup_insert_eq. by eexists. }
  destruct (getClientAddress (fst event)) as [address|]; [|by eexists].
  destruct (returns_resolver address s0) as [applicationInfo Hinfo].
  pose proof (keeps_arrays_findApplicationInfoForClient w address s0) as Harrays.
  destruct (findApplicationInfoForClient w address s0) as [[info|e] s1];
    cbn in Hinfo, Harrays; [|done].
  destruct info as [info|]; [|by eexists].
  case_bool_decide as Hallocations; [by eexists|].
  destruct Hr as [others Hr].
  assert (∃ addressGroup s2,
            address_group r (clientAddress info) s1 = (Ok addressGroup, s2))
    as (addressGroup & s2 & ->).
  { unfold address_group, mbind, M_bind, read, push, mret, M_ret.
    rewrite Harrays, Hr. destruct (includes others (clientAddress info)).
    - rewrite Harrays, Hr. by eexists _, _.
    - rewrite Harrays, Hr. cbn. rewrite lookup_insert_eq. by eexists _, _. }
  by apply returns_check_group.
Qed.

End Returns.

Section Fresh_group.

Context `{Runtime} (w : World).

(** X27: a call of [check] without an array of other addresses works on
    an array of its own: every array of the caller is after the call what it
    was before. *)
Theorem check_default_group_is_fresh (event : Issue * Repository)
        (criterias : option (list Criteria)) (threshold range : option number)
        (s : state) (r : ref) (others : list string) :
  arrays s !! r = Some others →
  arrays (check w event criterias None threshold range s).2 !! r = Some others.
Proof.
  intros Hr. unfold check.
  unfold mbind at 1, M_bind at 1. cbn [alloc].
  set (fresh_ref := fresh (dom (arrays s))).
  assert (fresh_ref ≠ r) as Hfresh.
  { intros Heq. apply (is_fresh (dom (arrays s))). apply elem_of_dom.
    fold fresh_ref. rewrite Heq. by exists others. }
  set (s0 := set_arrays _ s).
  assert (arrays s0 !! r = Some others) as Hr0.
  { subst s0. cbn. by rewrite lookup_insert_ne. }
  clearbody s0.
  destruct (getClientAddress (fst event)) as [address|]; [|done].
  unfold mbind at 1, M_bind at 1.
  pose proof (keeps_arrays_findApplicationInfoForClient w address s0) as Harrays.
  destruct (findApplicationInfoForClient w address s0) as [[[info|]|e] s1];
    cbn in Harrays |- *; try by rewrite Harrays.
  case_bool_decide; [cbn; by rewrite Harrays|].
  unfold mbind at 1, M_bind at 1.
  assert (arrays (address_group fresh_ref (clientAddress info) s1).2 !! r = Some others)
    as Hgroup.
  { unfold address_group, mbind, M_bind, read, push, mret, M_ret.
    destruct (arrays s1 !! fresh_ref) as [group|] eqn:Hgroup; cbn;
      [|by rewrite Harrays].
    destruct (includes group (clientAddress info)); cbn.
    - rewrite Hgroup. cbn. by rewrite Harrays.
    - rewrite Hgroup. cbn. rewrite lookup_insert_eq. cbn.
      rewrite lookup_insert_ne by done. by rewrite Harrays. }
  destruct (address_group fresh_ref (clientAddress info) s1) as [[addressGroup|e] s2];
    cbn in Hgroup |- *; [|done].
  by rewrite keeps_arrays_check_group.
Qed.

End Fresh_group.

Section Returns_examples.

#[local] Existing Instance Sample.runtime.

Lemma steady_answers : answers Cases.steady.
Proof.
  repeat split; intros; cbn; repeat case_bool_decide; try by eexists.
  all: by destruct_and?.
Qed.

Lemma check_returns_witness :
  ∃ result,
    (check Cases.steady (Sample.event "f1client") None (Some 0%nat) None None
           (Sample.start [])).1 = Ok result.
Proof.
  apply (check_returns Cases.steady steady_answers (Sample.event "f1client") None
           (Some 0%nat) None None (Sample.start [])).
  - done.
  - intros r [= <-]. by eexists.
Defined.

Lemma check_default_group_is_fresh_witness :
  arrays (check (Sample.world Sample.Usual) (Sample.event "f1client") None None None
                None (Sample.start ["f1other"])).2 !! 0%nat = Some ["f1other"].
Proof.
  apply (check_default_group_is_fresh (Sample.world Sample.Usual)
           (Sample.event "f1client") None None None (Sample.start ["f1other"])
           0%nat ["f1other"]).
  reflexivity.
Defined.

End Returns_examples.
